(** * SIREN fog-cloud scheduler: cost model, fitness evaluator and MD-GWO

    A shallow embedding of [fog_gwo_scheduler/models/system_model.py],
    [fog_gwo_scheduler/models/objectives.py] and
    [fog_gwo_scheduler/algorithms/mdgwo.py].

    Numbers.  A Python [float] is idealised as a real number, extended with
    the three special values the source creates or can reach from them
    ([float('inf')], its negation, and the not-a-number value that
    [0 * inf] and [inf - inf] produce).  Rounding error and overflow of
    finite arithmetic are not modelled.  Record fields that hold input data
    are finite reals; values computed by the code are [pyfloat]s.

    Exceptions.  A Python function that can raise returns a [result]. *)

From Stdlib Require Import Reals Lra Lia ZArith List.
From stdpp Require Import gmap strings list fin_maps.

#[local] Open Scope R_scope.

(** ** Exceptions and the error monad *)

Inductive exn : Type :=
| ZeroDivisionError
| IndexError
| AttributeError
| KeyError
| ValueError.

Inductive result (A : Type) : Type :=
| Ok (a : A)
| Raise (e : exn).
Arguments Ok {A} a.
Arguments Raise {A} e.

Definition rbind {A B : Type} (m : result A) (k : A -> result B) : result B :=
  match m with
  | Ok a => k a
  | Raise e => Raise e
  end.

Notation "x <-r m ;; k" := (rbind m (fun x => k))
  (at level 100, m at next level, right associativity).

(** A [for] loop over a list whose body threads an accumulator and may raise. *)
Fixpoint for_each {A S : Type} (body : S -> A -> result S) (l : list A) (s : S)
  : result S :=
  match l with
  | [] => Ok s
  | x :: l' => s' <-r body s x ;; for_each body l' s'
  end.

(** ** Decidable comparisons on the reals *)

#[global] Instance Rlt_decision : RelDecision Rlt := Rlt_dec.
#[global] Instance Rle_decision : RelDecision Rle := Rle_dec.
#[global] Instance Req_decision : EqDecision R := Req_dec_T.

(** ** Python floats *)

Inductive pyfloat : Type :=
| Fin (r : R)
| PInf
| NInf
| NaN.

Definition fl_neg (a : pyfloat) : pyfloat :=
  match a with
  | Fin r => Fin (- r)
  | PInf => NInf
  | NInf => PInf
  | NaN => NaN
  end.

Definition fl_add (a b : pyfloat) : pyfloat :=
  match a, b with
  | NaN, _ | _, NaN => NaN
  | Fin x, Fin y => Fin (x + y)
  | PInf, NInf | NInf, PInf => NaN
  | PInf, _ | _, PInf => PInf
  | NInf, _ | _, NInf => NInf
  end.

Definition fl_sub (a b : pyfloat) : pyfloat := fl_add a (fl_neg b).

(** [r * inf] for a finite [r]: the sign of [r] decides, and [0 * inf] is NaN. *)
Definition fl_scale_inf (r : R) (i : pyfloat) : pyfloat :=
  if decide (0 < r) then i
  else if decide (r < 0) then fl_neg i
  else NaN.

Definition fl_mul (a b : pyfloat) : pyfloat :=
  match a, b with
  | NaN, _ | _, NaN => NaN
  | Fin x, Fin y => Fin (x * y)
  | Fin x, PInf | PInf, Fin x => fl_scale_inf x PInf
  | Fin x, NInf | NInf, Fin x => fl_scale_inf x NInf
  | PInf, PInf | NInf, NInf => PInf
  | PInf, NInf | NInf, PInf => NInf
  end.

(** Python's [a / b] on floats: a zero divisor raises, also under an infinite
    or NaN dividend. *)
Definition fl_div (a b : pyfloat) : result pyfloat :=
  match a, b with
  | _, Fin y =>
      if decide (y = 0) then Raise ZeroDivisionError
      else match a with
           | Fin x => Ok (Fin (x / y))
           | PInf => Ok (fl_scale_inf y PInf)
           | NInf => Ok (fl_scale_inf y NInf)
           | NaN => Ok NaN
           end
  | NaN, _ | _, NaN => Ok NaN
  | Fin _, _ => Ok (Fin 0)
  | _, _ => Ok NaN
  end.

(** Division of two finite floats. *)
Definition py_div (x y : R) : result R :=
  if decide (y = 0) then Raise ZeroDivisionError else Ok (x / y).

(** [math.exp]. *)
Definition fl_exp (a : pyfloat) : pyfloat :=
  match a with
  | Fin r => Fin (exp r)
  | PInf => PInf
  | NInf => Fin 0
  | NaN => NaN
  end.

(** [a < b]; every comparison with NaN is false. *)
Definition fl_lt (a b : pyfloat) : Prop :=
  match a, b with
  | Fin x, Fin y => x < y
  | NInf, Fin _ | NInf, PInf | Fin _, PInf => True
  | _, _ => False
  end.

#[global] Instance fl_lt_dec : RelDecision fl_lt.
Proof.
  intros [x| | |] [y| | |]; simpl; try apply _.
Defined.

(** [a <= b]; every comparison with NaN is false. *)
Definition fl_le (a b : pyfloat) : Prop :=
  match a, b with
  | Fin x, Fin y => x <= y
  | NInf, Fin _ | NInf, PInf | Fin _, PInf | PInf, PInf | NInf, NInf => True
  | _, _ => False
  end.

Definition is_nan (a : pyfloat) : Prop :=
  match a with NaN => True | _ => False end.

(** [np.clip(x, lo, hi)] is [minimum(maximum(x, lo), hi)]. *)
Definition clip (x lo hi : R) : R := Rmin (Rmax x lo) hi.

(** ** The system model ([system_model.py]) *)

Module FogNode.
Record t : Type := mk {
  node_id : Z;
  cpu_mips : R;
  memory_mb : R;
  bandwidth_in_mbps : R;
  bandwidth_out_mbps : R;
  failure_rate : R;
  idle_power_w : R;
  tx_power_w : R;
  rx_power_w : R;
  alpha : R;
  beta : R;
  gamma : R
}.

Definition get_active_power (self : t) (frequency_ghz : R) : R :=
  alpha self * (frequency_ghz ^ 3) + beta self * frequency_ghz + gamma self.
End FogNode.

Module Task.
Record t : Type := mk {
  task_id : Z;
  workload_mi : R;
  input_size_mb : R;
  output_size_mb : R;
  memory_requirement_mb : R;
  deadline_s : R;
  criticality : Z;
  source_device_id : Z
}.
End Task.

Module CloudDataCenter.
Record t : Type := mk {
  center_id : Z;
  cpu_mips : R;
  memory_mb : R;
  bandwidth_in_mbps : R;
  bandwidth_out_mbps : R;
  failure_rate : R;
  idle_power_w : R
}.
End CloudDataCenter.

(** What [get_host] hands out: an object of one of the two classes. *)
Inductive Host : Type :=
| HFog (n : FogNode.t)
| HCloud (c : CloudDataCenter.t).

Definition host_cpu_mips (h : Host) : R :=
  match h with
  | HFog n => FogNode.cpu_mips n
  | HCloud c => CloudDataCenter.cpu_mips c
  end.

Definition host_memory_mb (h : Host) : R :=
  match h with
  | HFog n => FogNode.memory_mb n
  | HCloud c => CloudDataCenter.memory_mb c
  end.

Definition host_failure_rate (h : Host) : R :=
  match h with
  | HFog n => FogNode.failure_rate n
  | HCloud c => CloudDataCenter.failure_rate c
  end.

(** [host.node_id if hasattr(host, 'node_id') else host.center_id] *)
Definition host_id_of (h : Host) : Z :=
  match h with
  | HFog n => FogNode.node_id n
  | HCloud c => CloudDataCenter.center_id c
  end.

Module FogCloudTopology.
Record t : Type := mk {
  fog_nodes : gmap Z FogNode.t;
  cloud_datacenters : gmap Z CloudDataCenter.t;
  network_latency_ms : gmap (Z * Z) R;
  network_bandwidth_mbps : gmap (Z * Z) R;
  num_fog : nat;
  num_cloud : nat
}.

(** A dict comprehension: a later entry with the same key replaces the
    earlier one. *)
Definition dict_of {A : Type} (key : A -> Z) (l : list A) : gmap Z A :=
  fold_left (fun m x => <[key x := x]> m) l ∅.

Definition init (fogs : list FogNode.t) (clouds : list CloudDataCenter.t)
    (latency bandwidth : gmap (Z * Z) R) : t :=
  {| fog_nodes := dict_of FogNode.node_id fogs;
     cloud_datacenters := dict_of CloudDataCenter.center_id clouds;
     network_latency_ms := latency;
     network_bandwidth_mbps := bandwidth;
     num_fog := length fogs;
     num_cloud := length clouds |}.

Definition get_latency_ms (self : t) (source_id dest_id : Z) : R :=
  match network_latency_ms self !! (source_id, dest_id) with
  | None => default 50 (network_latency_ms self !! (dest_id, source_id))
  | Some v => v
  end.

Definition get_bandwidth_mbps (self : t) (source_id dest_id : Z) : R :=
  match network_bandwidth_mbps self !! (source_id, dest_id) with
  | None => default 100 (network_bandwidth_mbps self !! (dest_id, source_id))
  | Some v => v
  end.

Definition is_fog_node (self : t) (node_id : Z) : bool :=
  bool_decide (is_Some (fog_nodes self !! node_id)).

Definition is_cloud_center (self : t) (node_id : Z) : bool :=
  bool_decide (is_Some (cloud_datacenters self !! node_id)).

(** [None] is Python's [None]. *)
Definition get_host (self : t) (node_id : Z) : option Host :=
  match fog_nodes self !! node_id with
  | Some n => Some (HFog n)
  | None =>
      match cloud_datacenters self !! node_id with
      | Some c => Some (HCloud c)
      | None => None
      end
  end.
End FogCloudTopology.

Module ReliabilityModel.
Definition task_execution_time (task : Task.t) (host : Host) (frequency_ghz : R)
  : result pyfloat :=
  let cpu_mips := host_cpu_mips host in
  if decide (0 < cpu_mips)
  then q <-r py_div (Task.workload_mi task) cpu_mips ;; Ok (Fin q)
  else Ok PInf.

Definition transfer_time_s (data_size_mb bandwidth_mbps latency_ms : R)
  : result pyfloat :=
  transmission_s <-r
    (if decide (0 < bandwidth_mbps)
     then q <-r py_div (data_size_mb * 8) bandwidth_mbps ;; Ok (Fin q)
     else Ok PInf) ;;
  latency_s <-r py_div latency_ms 1000 ;;
  Ok (fl_add transmission_s (Fin latency_s)).

Definition node_success_probability (node : Host) (execution_time_s : pyfloat)
  : result pyfloat :=
  lambda_per_second <-r py_div (host_failure_rate node) 3600 ;;
  Ok (fl_exp (fl_mul (Fin (- lambda_per_second)) execution_time_s)).

Definition task_success_with_replication (success_probs : list pyfloat)
  : pyfloat :=
  match success_probs with
  | [] => Fin 0
  | _ =>
      let failure_prob :=
        fold_left (fun fp p_succ => fl_mul fp (fl_sub (Fin 1) p_succ))
                  success_probs (Fin 1) in
      fl_sub (Fin 1) failure_prob
  end.
End ReliabilityModel.

Module NetworkModel.
Definition total_transfer_time (data_size_mb bandwidth_mbps latency_ms : R)
  : result pyfloat :=
  transmission_s <-r
    (if decide (0 < bandwidth_mbps)
     then q <-r py_div (data_size_mb * 8) bandwidth_mbps ;; Ok (Fin q)
     else Ok PInf) ;;
  latency_s <-r py_div latency_ms 1000 ;;
  Ok (fl_add transmission_s (Fin latency_s)).

(** [host] is what [get_host] returned: on [None] both attribute reads of
    the first line fail. *)
Definition task_total_time (task : Task.t) (device_id : Z) (host : option Host)
    (frequency_ghz : R) (topology : FogCloudTopology.t) : result pyfloat :=
  match host with
  | None => Raise AttributeError
  | Some h =>
      let host_id := host_id_of h in
      let latency_in :=
        FogCloudTopology.get_latency_ms topology device_id host_id in
      let bandwidth_in :=
        FogCloudTopology.get_bandwidth_mbps topology device_id host_id in
      t_trans_in <-r
        total_transfer_time (Task.input_size_mb task) bandwidth_in latency_in ;;
      exec_time <-r ReliabilityModel.task_execution_time task h frequency_ghz ;;
      let latency_out :=
        FogCloudTopology.get_latency_ms topology host_id device_id in
      let bandwidth_out :=
        FogCloudTopology.get_bandwidth_mbps topology host_id device_id in
      t_trans_out <-r
        total_transfer_time (Task.output_size_mb task) bandwidth_out latency_out ;;
      Ok (fl_add (fl_add t_trans_in exec_time) t_trans_out)
  end.
End NetworkModel.

(** ** Schedules and the fitness evaluator ([objectives.py]) *)

Module Schedule.
(** The value stored per task: [{'nodes': [...], 'frequency': f}]. *)
Record assignment : Type := mk_assignment {
  nodes : list Z;
  frequency : R
}.

Record t : Type := mk {
  num_tasks : Z;
  num_hosts : Z;
  assignments : gmap Z assignment
}.

Definition init (num_tasks num_hosts : Z) : t :=
  {| num_tasks := num_tasks; num_hosts := num_hosts; assignments := ∅ |}.

Definition assign_task (self : t) (task_id : Z) (node_ids : list Z)
    (frequency_ghz : R) : t :=
  {| num_tasks := num_tasks self;
     num_hosts := num_hosts self;
     assignments :=
       <[task_id := mk_assignment node_ids frequency_ghz]> (assignments self) |}.
End Schedule.

Module ObjectiveFunction.
Record t : Type := mk {
  topology : FogCloudTopology.t;
  tasks : list Task.t;
  beta_energy : R;
  beta_reliability : R;
  penalties : gmap string R
}.

Definition default_penalties : gmap string R :=
  <["cpu" := 10000]> (<["memory" := 10000]>
    (<["deadline" := 100000]> (<["reliability" := 100000]> ∅))).

(** [penalty_coeffs or {...}]: [None] and the empty dict both give the
    defaults. *)
Definition init (topology : FogCloudTopology.t) (tasks : list Task.t)
    (beta_energy beta_reliability : R)
    (penalty_coeffs : option (gmap string R)) : t :=
  {| topology := topology;
     tasks := tasks;
     beta_energy := beta_energy;
     beta_reliability := beta_reliability;
     penalties :=
       match penalty_coeffs with
       | Some d => if decide (d = ∅) then default_penalties else d
       | None => default_penalties
       end |}.

(** [self.penalties[key]] *)
Definition penalty_coeff (self : t) (key : string) : result R :=
  match penalties self !! key with
  | Some c => Ok c
  | None => Raise KeyError
  end.

(** The local dicts [cpu_load] and [mem_load], in insertion order (the
    order in which [.items()] yields them).  [dict_add d k v] is
    [if k not in d: d[k] = 0.0] followed by [d[k] += v]. *)
Fixpoint dict_add (d : list (Z * R)) (k : Z) (v : R) : list (Z * R) :=
  match d with
  | [] => [(k, 0 + v)]
  | (k', x) :: d' =>
      if decide (k' = k) then (k', x + v) :: d'
      else (k', x) :: dict_add d' k v
  end.

(** The first loop of each capacity check: every replica of every assigned
    task adds [amount task] to its node's entry. *)
Definition load_by_node (self : t) (schedule : Schedule.t)
    (amount : Task.t -> R) : list (Z * R) :=
  fold_left
    (fun load task =>
       match Schedule.assignments schedule !! Task.task_id task with
       | None => load
       | Some assignment =>
           fold_left (fun load node_id => dict_add load node_id (amount task))
                     (Schedule.nodes assignment) load
       end)
    (tasks self) [].

(** The second loop of each capacity check. *)
Definition overload_penalty (self : t) (key : string) (capacity : Host -> R)
    (load : list (Z * R)) (penalty : pyfloat) : result pyfloat :=
  for_each
    (fun penalty '(node_id, load_x) =>
       match FogCloudTopology.get_host (topology self) node_id with
       | Some host =>
           utilization <-r py_div load_x (capacity host) ;;
           if decide (1 < utilization)
           then c <-r penalty_coeff self key ;;
                Ok (fl_add penalty (Fin (c * (utilization - 1))))
           else Ok penalty
       | None => Ok penalty
       end)
    load penalty.

Definition cpu_violations (self : t) (schedule : Schedule.t)
    (penalty : pyfloat) : result pyfloat :=
  let cpu_load := load_by_node self schedule Task.workload_mi in
  overload_penalty self "cpu" host_cpu_mips cpu_load penalty.

Definition memory_violations (self : t) (schedule : Schedule.t)
    (penalty : pyfloat) : result pyfloat :=
  let mem_load := load_by_node self schedule Task.memory_requirement_mb in
  overload_penalty self "memory" host_memory_mb mem_load penalty.

(** [if node_id:] is false for [None] and for the integer [0]. *)
Definition truthy (node_id : option Z) : bool :=
  match node_id with
  | Some n => bool_decide (n <> 0%Z)
  | None => false
  end.

Definition deadline_violations (self : t) (schedule : Schedule.t)
    (penalty : pyfloat) : result pyfloat :=
  for_each
    (fun penalty task =>
       match Schedule.assignments schedule !! Task.task_id task with
       | None =>
           c <-r penalty_coeff self "deadline" ;;
           Ok (fl_add penalty (Fin c))
       | Some assignment =>
           let node_ids := Schedule.nodes assignment in
           let frequency_ghz := Schedule.frequency assignment in
           let node_id := head node_ids in
           if truthy node_id then
             let device_id := Task.source_device_id task in
             let host :=
               FogCloudTopology.get_host (topology self) (default 0%Z node_id) in
             total_time <-r
               NetworkModel.task_total_time task device_id host frequency_ghz
                 (topology self) ;;
             if decide (fl_lt (Fin (Task.deadline_s task)) total_time)
             then c <-r penalty_coeff self "deadline" ;;
                  Ok (fl_add penalty (Fin c))
             else Ok penalty
           else Ok penalty
       end)
    (tasks self) penalty.

(** The success probabilities of the replicas whose host resolves;
    [missing] is what a replica on an unknown node contributes. *)
Definition replica_success_probs (self : t) (task : Task.t)
    (assignment : Schedule.assignment) (missing : list pyfloat)
  : result (list pyfloat) :=
  for_each
    (fun success_probs node_id =>
       match FogCloudTopology.get_host (topology self) node_id with
       | None => Ok (success_probs ++ missing)
       | Some host =>
           exec_time <-r
             ReliabilityModel.task_execution_time task host
               (Schedule.frequency assignment) ;;
           p_succ <-r ReliabilityModel.node_success_probability host exec_time ;;
           Ok (success_probs ++ [p_succ])
       end)
    (Schedule.nodes assignment) [].

Definition min_reliability : R := 99 / 100.

Definition reliability_violations (self : t) (schedule : Schedule.t)
    (penalty : pyfloat) : result pyfloat :=
  for_each
    (fun penalty task =>
       if decide (Task.criticality task = 0%Z) then Ok penalty
       else
         match Schedule.assignments schedule !! Task.task_id task with
         | None =>
             c <-r penalty_coeff self "reliability" ;;
             Ok (fl_add penalty (Fin c))
         | Some assignment =>
             success_probs <-r replica_success_probs self task assignment [] ;;
             let task_success :=
               ReliabilityModel.task_success_with_replication success_probs in
             if decide (fl_lt task_success (Fin min_reliability))
             then c <-r penalty_coeff self "reliability" ;;
                  Ok (fl_add penalty
                        (fl_mul (Fin c) (fl_sub (Fin min_reliability) task_success)))
             else Ok penalty
         end)
    (tasks self) penalty.

Definition penalty_function (self : t) (schedule : Schedule.t)
  : result pyfloat :=
  penalty <-r cpu_violations self schedule (Fin 0) ;;
  penalty <-r memory_violations self schedule penalty ;;
  penalty <-r deadline_violations self schedule penalty ;;
  reliability_violations self schedule penalty.

Definition system_reliability (self : t) (schedule : Schedule.t)
  : result pyfloat :=
  match tasks self with
  | [] => Ok (Fin 0)
  | _ =>
      total_success_prob <-r
        for_each
          (fun total task =>
             match Schedule.assignments schedule !! Task.task_id task with
             | None => Ok (fl_add total (Fin 0))
             | Some assignment =>
                 success_probs <-r
                   replica_success_probs self task assignment [Fin 0] ;;
                 let task_success :=
                   ReliabilityModel.task_success_with_replication success_probs in
                 Ok (fl_add total task_success)
             end)
          (tasks self) (Fin 0) ;;
      fl_div total_success_prob (Fin (INR (length (tasks self))))
  end.
End ObjectiveFunction.

(** ** The optimizer ([mdgwo.py]) *)

(** Methods read and write the attributes of [self]: a computation takes
    the object's state and returns its outcome with the state it leaves
    behind; the state survives a raised exception. *)
Definition M (S A : Type) : Type := S -> result A * S.

Definition mret {S A : Type} (a : A) : M S A := fun s => (Ok a, s).

Definition mbind {S A B : Type} (m : M S A) (k : A -> M S B) : M S B :=
  fun s =>
    match m s with
    | (Ok a, s') => k a s'
    | (Raise e, s') => (Raise e, s')
    end.

Definition mget {S : Type} : M S S := fun s => (Ok s, s).

Definition mgets {S A : Type} (f : S -> A) : M S A := fun s => (Ok (f s), s).

Definition mmodify {S : Type} (f : S -> S) : M S unit := fun s => (Ok tt, f s).

Definition mraise {S A : Type} (e : exn) : M S A := fun s => (Raise e, s).

Definition mlift {S A : Type} (r : result A) : M S A := fun s => (r, s).

Notation "x <-m m ;; k" := (mbind m (fun x => k))
  (at level 100, m at next level, right associativity).
Notation "m ;;m k" := (mbind m (fun _ => k))
  (at level 100, right associativity).

(** A [for] statement. *)
Fixpoint mfor {S A : Type} (l : list A) (body : A -> M S unit) : M S unit :=
  match l with
  | [] => mret tt
  | x :: l' => body x ;;m mfor l' body
  end.

(** A [for] statement that builds a local value. *)
Fixpoint mfold {S A B : Type} (body : B -> A -> M S B) (l : list A) (b : B)
  : M S B :=
  match l with
  | [] => mret b
  | x :: l' => b' <-m body b x ;; mfold body l' b'
  end.

(** A computation that only reads the state. *)
Definition readonly {S A : Type} (m : M S A) : Prop :=
  forall s, snd (m s) = s.

(** Every run of [m] relates the state it starts in to the one it leaves. *)
Definition preserves {S A : Type} (R : S -> S -> Prop) (m : M S A) : Prop :=
  forall s, R s (snd (m s)).

(** [np.round]: to the nearest integer, a tie to the even neighbour. *)
Definition np_round (x : R) : Z :=
  let f := Zfloor x in
  let d := x - IZR f in
  if decide (d < 1 / 2) then f
  else if decide (1 / 2 < d) then (f + 1)%Z
  else if Z.even f then f else (f + 1)%Z.

(** Python's [a % b] on integers. *)
Definition py_mod (a b : Z) : result Z :=
  if decide (b = 0%Z) then Raise ZeroDivisionError else Ok (a mod b)%Z.

(** An arithmetic operator on two one-dimensional arrays, with numpy's
    broadcasting of a one-element array. *)
Definition np_zip (f : R -> R -> R) (a b : list R) : result (list R) :=
  if decide (length a = length b) then Ok (zip_with f a b)
  else match a, b with
       | [x], _ => Ok (map (f x) b)
       | _, [y] => Ok (map (fun x => f x y) a)
       | _, _ => Raise ValueError
       end.

(** [sorted(l, key=...)], a stable sort that compares keys with [<] only.
    On keys without NaN the result of a stable sort is unique; a list in
    which no element is smaller than its predecessor is returned as it is. *)
Fixpoint insert_by {A : Type} (key : A -> pyfloat) (x : A) (l : list A) : list A :=
  match l with
  | [] => [x]
  | y :: l' =>
      if decide (fl_lt (key y) (key x)) then y :: insert_by key x l'
      else x :: y :: l'
  end.

Definition py_sorted {A : Type} (key : A -> pyfloat) (l : list A) : list A :=
  foldr (insert_by key) [] l.

Module Wolf.
Record t : Type := mk {
  position : list R;
  num_tasks : Z;
  num_hosts : Z;
  fitness : pyfloat;
  pbest : list R;
  pbest_fitness : pyfloat
}.

Definition init (position : list R) (num_tasks num_hosts : Z) : t :=
  {| position := position;
     num_tasks := num_tasks;
     num_hosts := num_hosts;
     fitness := PInf;
     pbest := position;
     pbest_fitness := PInf |}.

Definition set_position (p : list R) (w : t) : t :=
  {| position := p; num_tasks := num_tasks w; num_hosts := num_hosts w;
     fitness := fitness w; pbest := pbest w; pbest_fitness := pbest_fitness w |}.

Definition set_fitness (x : pyfloat) (w : t) : t :=
  {| position := position w; num_tasks := num_tasks w; num_hosts := num_hosts w;
     fitness := x; pbest := pbest w; pbest_fitness := pbest_fitness w |}.

Definition set_pbest (p : list R) (x : pyfloat) (w : t) : t :=
  {| position := position w; num_tasks := num_tasks w; num_hosts := num_hosts w;
     fitness := fitness w; pbest := p; pbest_fitness := x |}.

(** [self.position[idx] if idx < len(self.position) else dflt] *)
Definition coordinate (idx : nat) (dflt : R) : M t R :=
  self_position <-m mgets position ;;
  mret (default dflt (self_position !! idx)).

(** The body of the loop of [decode_position] for task [j]. *)
Definition decode_task (schedule : gmap nat (list Z * R)) (j : nat)
  : M t (gmap nat (list Z * R)) :=
  let idx_node := (3 * j)%nat in
  let idx_repl := (3 * j + 1)%nat in
  let idx_freq := (3 * j + 2)%nat in
  node_cont <-m coordinate idx_node 0 ;;
  self_num_hosts <-m mgets num_hosts ;;
  node_id <-m mlift (py_mod (np_round node_cont) self_num_hosts) ;;
  repl_cont <-m coordinate idx_repl 1 ;;
  let replication := Z.max 1 (Z.min 3 (np_round repl_cont)) in
  freq_cont <-m coordinate idx_freq 2 ;;
  let frequency_ghz := clip freq_cont (4 / 10) 2 in
  node_ids <-m
    mfold (fun node_ids r =>
             self_num_hosts <-m mgets num_hosts ;;
             alt_node <-m mlift (py_mod (node_id + r) self_num_hosts) ;;
             mret (node_ids ++ [alt_node]))
          (seqZ 1 (replication - 1)) [node_id] ;;
  mret (<[j := (node_ids, frequency_ghz)]> schedule).

Definition decode_position : M t (gmap nat (list Z * R)) :=
  self_num_tasks <-m mgets num_tasks ;;
  mfold decode_task (seq 0 (Z.to_nat self_num_tasks)) ∅.

Definition update_pbest (new_fitness : pyfloat) : M t unit :=
  self_pbest_fitness <-m mgets pbest_fitness ;;
  if decide (fl_lt new_fitness self_pbest_fitness)
  then self_position <-m mgets position ;;
       mmodify (set_pbest self_position new_fitness)
  else mret tt.
End Wolf.

Module MDGWO.
(** The [Wolf] objects live in the list [wolves]; the leaders are references
    to three of them, kept as their places in that list. *)
Record t : Type := mk {
  num_tasks : Z;
  num_hosts : Z;
  population_size : Z;
  max_iterations : Z;
  memory_decay : string;
  wolves : list Wolf.t;
  alpha : option nat;
  beta : option nat;
  delta : option nat;
  iteration : Z;
  best_fitness_history : list pyfloat
}.

Definition init (num_tasks num_hosts population_size max_iterations : Z)
    (memory_decay : string) : result t :=
  Ok {| num_tasks := num_tasks;
        num_hosts := num_hosts;
        population_size := population_size;
        max_iterations := max_iterations;
        memory_decay := memory_decay;
        wolves := [];
        alpha := None;
        beta := None;
        delta := None;
        iteration := 0;
        best_fitness_history := [] |}.

Definition set_wolves (ws : list Wolf.t) (s : t) : t :=
  {| num_tasks := num_tasks s; num_hosts := num_hosts s;
     population_size := population_size s; max_iterations := max_iterations s;
     memory_decay := memory_decay s; wolves := ws;
     alpha := alpha s; beta := beta s; delta := delta s;
     iteration := iteration s; best_fitness_history := best_fitness_history s |}.

Definition set_leaders (a b d : option nat) (s : t) : t :=
  {| num_tasks := num_tasks s; num_hosts := num_hosts s;
     population_size := population_size s; max_iterations := max_iterations s;
     memory_decay := memory_decay s; wolves := wolves s;
     alpha := a; beta := b; delta := d;
     iteration := iteration s; best_fitness_history := best_fitness_history s |}.

Definition set_iteration (i : Z) (s : t) : t :=
  {| num_tasks := num_tasks s; num_hosts := num_hosts s;
     population_size := population_size s; max_iterations := max_iterations s;
     memory_decay := memory_decay s; wolves := wolves s;
     alpha := alpha s; beta := beta s; delta := delta s;
     iteration := i; best_fitness_history := best_fitness_history s |}.

Definition set_history (h : list pyfloat) (s : t) : t :=
  {| num_tasks := num_tasks s; num_hosts := num_hosts s;
     population_size := population_size s; max_iterations := max_iterations s;
     memory_decay := memory_decay s; wolves := wolves s;
     alpha := alpha s; beta := beta s; delta := delta s;
     iteration := iteration s; best_fitness_history := h |}.

(** Read the wolf a reference points to. *)
Definition deref (k : nat) : M t Wolf.t :=
  ws <-m mgets wolves ;;
  match ws !! k with
  | Some w => mret w
  | None => mraise IndexError
  end.

(** Run a method of the wolf at place [k] and store the wolf it leaves. *)
Definition on_wolf {A : Type} (k : nat) (m : M Wolf.t A) : M t A :=
  w <-m deref k ;;
  let '(r, w') := m w in
  mmodify (fun s => set_wolves (<[k := w']> (wolves s)) s) ;;m
  mlift r.

(** [np.random.uniform(lo, hi)] on the unit sample [u] the generator yields. *)
Definition uniform (lo hi u : R) : R := lo + (hi - lo) * u.

(** The position filled in for one wolf; [samples] are the unit samples the
    generator yields for it, in call order. *)
Definition random_position (num_tasks num_hosts : Z) (samples : nat -> R)
  : list R :=
  flat_map
    (fun j =>
       [ uniform 0 (IZR num_hosts) (samples (3 * j)%nat);
         uniform 1 3 (samples (3 * j + 1)%nat);
         uniform (4 / 10) 2 (samples (3 * j + 2)%nat) ])
    (seq 0 (Z.to_nat num_tasks)).

Definition _update_leaders : M t unit :=
  ws <-m mgets wolves ;;
  let sorted_wolves :=
    py_sorted (fun k => default NaN (Wolf.fitness <$> ws !! k))
              (seq 0 (length ws)) in
  match sorted_wolves with
  | [] => mraise IndexError
  | a :: _ =>
      let b := default a (sorted_wolves !! 1%nat) in
      let d := default a (sorted_wolves !! 2%nat) in
      mmodify (set_leaders (Some a) (Some b) (Some d))
  end.

(** The generator seeded with [random_seed] is represented by the unit
    samples it goes on to yield, [samples i] for the wolf created [i]-th. *)
Definition initialize_population (samples : nat -> nat -> R) : M t unit :=
  mmodify (set_wolves []) ;;m
  self_population_size <-m mgets population_size ;;
  mfor (seq 0 (Z.to_nat self_population_size))
       (fun i =>
          self_num_tasks <-m mgets num_tasks ;;
          self_num_hosts <-m mgets num_hosts ;;
          (if decide (self_num_tasks < 0)%Z
           then mraise ValueError else mret tt) ;;m
          let position :=
            random_position self_num_tasks self_num_hosts (samples i) in
          let wolf := Wolf.init position self_num_tasks self_num_hosts in
          mmodify (fun s => set_wolves (wolves s ++ [wolf]) s)) ;;m
  _update_leaders.

Definition _memory_coefficient (iteration : Z) : M t R :=
  self_memory_decay <-m mgets memory_decay ;;
  self_max_iterations <-m mgets max_iterations ;;
  if decide (self_memory_decay = "linear") then
    q <-m mlift (py_div (IZR iteration) (IZR (Z.max 1 self_max_iterations))) ;;
    mret (1 - q)
  else if decide (self_memory_decay = "exponential") then
    lambda_decay <-m mlift (py_div 2 (IZR self_max_iterations)) ;;
    mret (exp (- lambda_decay * IZR iteration))
  else
    q <-m mlift (py_div (IZR iteration) (IZR (Z.max 1 self_max_iterations))) ;;
    mret (1 - q).

(** The bound enforced on coordinate [i]. *)
Definition enforce_bound (num_hosts : Z) (i : nat) (x : R) : R :=
  if decide (i mod 3 = 0)%nat then clip x 0 (IZR (num_hosts - 1))
  else if decide (i mod 3 = 1)%nat then clip x 1 3
  else clip x (4 / 10) 2.

Definition update_wolf (wolf : nat) (iteration : Z) : M t unit :=
  a <-m mgets alpha ;;
  b <-m mgets beta ;;
  d <-m mgets delta ;;
  match a, b, d with
  | Some a, Some b, Some d =>
      eta <-m _memory_coefficient iteration ;;
      wa <-m deref a ;;
      wb <-m deref b ;;
      wd <-m deref d ;;
      ab <-m mlift (np_zip Rplus (Wolf.position wa) (Wolf.position wb)) ;;
      abd <-m mlift (np_zip Rplus ab (Wolf.position wd)) ;;
      let social_position := map (fun x => x / 3) abd in
      w <-m deref wolf ;;
      diff <-m mlift (np_zip Rminus (Wolf.pbest w) (Wolf.position w)) ;;
      let memory_component := map (fun x => eta * x) diff in
      new_position <-m mlift (np_zip Rplus social_position memory_component) ;;
      self_num_hosts <-m mgets num_hosts ;;
      on_wolf wolf
        (mmodify (Wolf.set_position new_position) ;;m
         mmodify (fun w =>
           Wolf.set_position
             (imap (enforce_bound self_num_hosts) (Wolf.position w)) w))
  | _, _, _ => mret tt
  end.

(** The four steps of one pass of the loop of [optimize], in the order of
    its comments: evaluate all wolves, update leaders, record best fitness,
    update all wolves except the leaders. *)
Definition evaluate_all (fitness_function : Wolf.t -> pyfloat) : M t unit :=
  ws <-m mgets wolves ;;
  mfor (seq 0 (length ws))
       (fun k =>
          on_wolf k
            (w <-m mget ;;
             mmodify (Wolf.set_fitness (fitness_function w)) ;;m
             fitness <-m mgets Wolf.fitness ;;
             Wolf.update_pbest fitness)).

Definition record_best : M t unit :=
  a <-m mgets alpha ;;
  best_fitness <-m
    match a with
    | Some a => w <-m deref a ;; mret (Wolf.fitness w)
    | None => mret PInf
    end ;;
  mmodify (fun s => set_history (best_fitness_history s ++ [best_fitness]) s).

Definition move_wolves (iteration : Z) : M t unit :=
  ws <-m mgets wolves ;;
  mfor (seq 0 (length ws))
       (fun k =>
          a <-m mgets alpha ;;
          b <-m mgets beta ;;
          d <-m mgets delta ;;
          if decide (Some k <> a /\ Some k <> b /\ Some k <> d)
          then update_wolf k iteration
          else mret tt).

(** One pass of the loop of [optimize]. *)
Definition generation (fitness_function : Wolf.t -> pyfloat) (iteration : Z)
  : M t unit :=
  evaluate_all fitness_function ;;m
  _update_leaders ;;m
  record_best ;;m
  move_wolves iteration ;;m
  mmodify (set_iteration iteration).

(** [optimize] without a callback; the fitness function is a Python function
    that neither raises nor mutates the wolf.  The result is the reference
    [self.alpha]. *)
Definition optimize (fitness_function : Wolf.t -> pyfloat) : M t nat :=
  mmodify (set_history []) ;;m
  self_max_iterations <-m mgets max_iterations ;;
  mfor (seqZ 0 self_max_iterations) (generation fitness_function) ;;m
  a <-m mgets alpha ;;
  match a with
  | Some a => mret a
  | None => mraise AttributeError
  end.
End MDGWO.


(** ** Frames: what a method leaves as it was *)

Module Frame.
(** Two wolves that differ at most in their position. *)
Definition same_but_position (w w' : Wolf.t) : Prop :=
  Wolf.num_tasks w' = Wolf.num_tasks w /\
  Wolf.num_hosts w' = Wolf.num_hosts w /\
  Wolf.fitness w' = Wolf.fitness w /\
  Wolf.pbest w' = Wolf.pbest w /\
  Wolf.pbest_fitness w' = Wolf.pbest_fitness w.

(** Two optimizer states that differ at most in the wolves. *)
Definition same_but_wolves (s s' : MDGWO.t) : Prop :=
  MDGWO.num_tasks s' = MDGWO.num_tasks s /\
  MDGWO.num_hosts s' = MDGWO.num_hosts s /\
  MDGWO.population_size s' = MDGWO.population_size s /\
  MDGWO.max_iterations s' = MDGWO.max_iterations s /\
  MDGWO.memory_decay s' = MDGWO.memory_decay s /\
  MDGWO.alpha s' = MDGWO.alpha s /\
  MDGWO.beta s' = MDGWO.beta s /\
  MDGWO.delta s' = MDGWO.delta s /\
  MDGWO.iteration s' = MDGWO.iteration s /\
  MDGWO.best_fitness_history s' = MDGWO.best_fitness_history s.

(** Two optimizer states that differ at most in the position of the wolf
    at place [k]. *)
Definition update_frame (k : nat) (s s' : MDGWO.t) : Prop :=
  same_but_wolves s s' /\
  length (MDGWO.wolves s') = length (MDGWO.wolves s) /\
  (forall j, j <> k -> MDGWO.wolves s' !! j = MDGWO.wolves s !! j) /\
  (forall w, MDGWO.wolves s !! k = Some w ->
     exists w', MDGWO.wolves s' !! k = Some w' /\ same_but_position w w').

(** While [a] is the alpha reference: nothing but wolves other than [a]
    changes. *)
Definition keeps_leader (a : nat) (s s' : MDGWO.t) : Prop :=
  MDGWO.alpha s = Some a ->
  same_but_wolves s s' /\
  length (MDGWO.wolves s') = length (MDGWO.wolves s) /\
  MDGWO.wolves s' !! a = MDGWO.wolves s !! a.
End Frame.

(** ** The quantities the properties speak of *)

Module Spec.
Definition Rsum (l : list R) : R := fold_right Rplus 0 l.

(** Every (node, task) pair of the schedule: one per replica of each
    assigned task of the task set. *)
Definition placements (O : ObjectiveFunction.t) (schedule : Schedule.t)
  : list (Z * Task.t) :=
  flat_map
    (fun task =>
       match Schedule.assignments schedule !! Task.task_id task with
       | None => []
       | Some a => map (fun n => (n, task)) (Schedule.nodes a)
       end)
    (ObjectiveFunction.tasks O).

(** The total amount (workload or memory) assigned to node [h]. *)
Definition total_assigned (amount : Task.t -> R) (pl : list (Z * Task.t))
    (h : Z) : R :=
  Rsum (map (fun p => amount (snd p)) (filter (fun p => fst p = h) pl)).

(** The distinct elements of [l] that are not in [seen], each at its first
    occurrence. *)
Fixpoint first_occurrences (seen : list Z) (l : list Z) : list Z :=
  match l with
  | [] => []
  | k :: l' =>
      if decide (k ∈ seen) then first_occurrences seen l'
      else k :: first_occurrences (k :: seen) l'
  end.

(** The nodes with any assigned load. *)
Definition hosts_with_load (pl : list (Z * Task.t)) : list Z :=
  first_occurrences [] (map fst pl).

(** [max(0, load/capacity - 1)] for a node of the topology; a node id the
    topology does not know is no host and contributes nothing. *)
Definition overload (O : ObjectiveFunction.t) (capacity : Host -> R)
    (load : Z -> R) (h : Z) : R :=
  match FogCloudTopology.get_host (ObjectiveFunction.topology O) h with
  | Some host => Rmax 0 (load h / capacity host - 1)
  | None => 0
  end.

(** coefficient * sum over the hosts with any load of the overload. *)
Definition capacity_component (O : ObjectiveFunction.t) (schedule : Schedule.t)
    (coeff : R) (capacity : Host -> R) (amount : Task.t -> R) : R :=
  let pl := placements O schedule in
  coeff * Rsum (map (overload O capacity (total_assigned amount pl))
                    (hosts_with_load pl)).

Definition cpu_component (O : ObjectiveFunction.t) (schedule : Schedule.t)
    (penalty_cpu : R) : R :=
  capacity_component O schedule penalty_cpu host_cpu_mips Task.workload_mi.

(** [exp(-(failure_rate/3600) * (workload/rate))]: the success probability
    of a replica on a host with a positive processing rate. *)
Definition success_probability (host : Host) (task : Task.t) : R :=
  exp (- (host_failure_rate host / 3600)
       * (Task.workload_mi task / host_cpu_mips host)).

(** [1 - prod (1 - p_i)], and 0 for no replica. *)
Definition replicated_success (probs : list R) : R :=
  match probs with
  | [] => 0
  | _ => 1 - fold_left (fun fp p => fp * (1 - p)) probs 1
  end.

(** The success probabilities of the replicas on [node_ids]; [missing] is
    what a node id unknown to the topology contributes. *)
Definition replica_probabilities (O : ObjectiveFunction.t) (task : Task.t)
    (node_ids : list Z) (missing : list R) : list R :=
  flat_map
    (fun n =>
       match FogCloudTopology.get_host (ObjectiveFunction.topology O) n with
       | None => missing
       | Some host => [success_probability host task]
       end)
    node_ids.

(** Every replica of every assigned task of the task set that resolves to a
    host is on a host with a positive processing rate. *)
Definition positive_rates (O : ObjectiveFunction.t) (schedule : Schedule.t)
  : Prop :=
  forall task a n host,
    task ∈ ObjectiveFunction.tasks O ->
    Schedule.assignments schedule !! Task.task_id task = Some a ->
    n ∈ Schedule.nodes a ->
    FogCloudTopology.get_host (ObjectiveFunction.topology O) n = Some host ->
    0 < host_cpu_mips host.

(** The schedule assigns every task of the task set to the single node [h]. *)
Definition all_on (O : ObjectiveFunction.t) (schedule : Schedule.t) (h : Z)
  : Prop :=
  forall task, task ∈ ObjectiveFunction.tasks O ->
    exists a, Schedule.assignments schedule !! Task.task_id task = Some a /\
              Schedule.nodes a = [h].

(** [d[k]] in a load dict, 0 for a key that is not there. *)
Fixpoint dict_get (d : list (Z * R)) (k : Z) : R :=
  match d with
  | [] => 0
  | (k', x) :: d' => if decide (k' = k) then x else dict_get d' k
  end.

(** The tasks for which the deadline loop adds its coefficient: the
    unassigned ones, and those whose first replica passes [if node_id:] and
    takes longer than the deadline. *)
Definition deadline_hit (O : ObjectiveFunction.t) (schedule : Schedule.t)
    (task : Task.t) : bool :=
  match Schedule.assignments schedule !! Task.task_id task with
  | None => true
  | Some assignment =>
      let node_id := head (Schedule.nodes assignment) in
      let topology := ObjectiveFunction.topology O in
      ObjectiveFunction.truthy node_id &&
      match NetworkModel.task_total_time task (Task.source_device_id task)
              (FogCloudTopology.get_host topology (default 0%Z node_id))
              (Schedule.frequency assignment) topology with
      | Ok total_time =>
          bool_decide (fl_lt (Fin (Task.deadline_s task)) total_time)
      | Raise _ => false
      end
  end.

(** The entry [decode_position] stores for task [j] when [num_hosts] is not
    zero, as a function of the position vector. *)
Definition decoded_node (w : Wolf.t) (j : nat) : Z :=
  (np_round (default 0%R (Wolf.position w !! (3 * j)%nat))
   mod Wolf.num_hosts w)%Z.

Definition decoded_replication (w : Wolf.t) (j : nat) : Z :=
  Z.max 1 (Z.min 3 (np_round (default 1 (Wolf.position w !! (3 * j + 1)%nat)))).

Definition decoded_entry (w : Wolf.t) (j : nat) : list Z * R :=
  (decoded_node w j ::
     map (fun r => ((decoded_node w j + r) mod Wolf.num_hosts w)%Z)
         (seqZ 1 (decoded_replication w j - 1)),
   clip (default 2 (Wolf.position w !! (3 * j + 2)%nat)) (4 / 10) 2).

(** A sequence in which no element exceeds its predecessor. *)
Definition non_increasing (h : list pyfloat) : Prop :=
  forall (i : nat) (x y : pyfloat),
    h !! i = Some x -> h !! S i = Some y -> fl_le y x.

(** A fitness function that looks at the position of the wolf only. *)
Definition position_pure (f : Wolf.t -> pyfloat) : Prop :=
  forall w w', Wolf.position w = Wolf.position w' -> f w = f w'.

Definition never_nan (f : Wolf.t -> pyfloat) : Prop :=
  forall w, ~ is_nan (f w).

(** The wolf after [wolf.fitness = f(wolf); wolf.update_pbest(wolf.fitness)]. *)
Definition evaluate (f : Wolf.t -> pyfloat) (w : Wolf.t) : Wolf.t :=
  let w1 := Wolf.set_fitness (f w) w in
  if decide (fl_lt (f w) (Wolf.pbest_fitness w))
  then Wolf.set_pbest (Wolf.position w) (f w) w1
  else w1.

(** Every wolf of a non-empty population has a position and a personal best
    of [n] coordinates. *)
Definition uniform_population (n : nat) (s : MDGWO.t) : Prop :=
  MDGWO.wolves s <> [] /\
  Forall (fun w => length (Wolf.position w) = n /\ length (Wolf.pbest w) = n)
         (MDGWO.wolves s).

(** The three leader references point into the population. *)
Definition leaders_in_population (s : MDGWO.t) : Prop :=
  exists a b d : nat,
    MDGWO.alpha s = Some a /\ MDGWO.beta s = Some b /\ MDGWO.delta s = Some d /\
    (a < length (MDGWO.wolves s))%nat /\
    (b < length (MDGWO.wolves s))%nat /\
    (d < length (MDGWO.wolves s))%nat.

(** What the optimizer maintains between generations: the recorded sequence
    does not increase, and some wolf's position is at least as good as the
    last recorded value. *)
Definition history_invariant (f : Wolf.t -> pyfloat) (s : MDGWO.t) : Prop :=
  non_increasing (MDGWO.best_fitness_history s) /\
  forall x, last (MDGWO.best_fitness_history s) = Some x ->
    exists a w, MDGWO.wolves s !! a = Some w /\ fl_le (f w) x.
End Spec.

(** ** Concrete scenarios *)

Module Scenario.
(** A fog node with the default power coefficients of the dataclass. *)
Definition fog (node_id : Z) (cpu_mips memory_mb failure_rate : R) : FogNode.t :=
  FogNode.mk node_id cpu_mips memory_mb 100 100 failure_rate 10
             (18 / 10) (12 / 10) (1 / 10000) 0 0.

Definition task (task_id : Z) (workload_mi deadline_s : R) (criticality : Z)
  : Task.t :=
  Task.mk task_id workload_mi 10 5 256 deadline_s criticality 0.

(** One slow fog node with id 0 and one task placed on it. *)
Definition slow_topology : FogCloudTopology.t :=
  FogCloudTopology.init [fog 0 1 2048 (1 / 10000)] [] ∅ ∅.

Definition long_task : Task.t := task 0 1000 10 0.

Definition slow_objective : ObjectiveFunction.t :=
  ObjectiveFunction.init slow_topology [long_task] (6 / 10) (4 / 10) None.

Definition on_node_zero : Schedule.t :=
  Schedule.assign_task (Schedule.init 1 1) 0 [0%Z] 2.

(** A fog node that never fails and has no processing rate, with one task
    placed on it. *)
Definition stalled_topology : FogCloudTopology.t :=
  FogCloudTopology.init [fog 0 0 2048 0] [] ∅ ∅.

Definition stalled_objective : ObjectiveFunction.t :=
  ObjectiveFunction.init stalled_topology [long_task] (6 / 10) (4 / 10) None.

(** A wolf for one task on three hosts, with a negative host coordinate. *)
Definition sample_wolf : Wolf.t :=
  Wolf.init [- (17 / 10); 26 / 10; 3] 1 3.

(** Optimizers with the default population and iteration budget. *)
Definition linear_optimizer : MDGWO.t :=
  MDGWO.mk 10 5 100 200 "linear" [] None None None 0 [].

Definition exponential_optimizer : MDGWO.t :=
  MDGWO.mk 10 5 100 200 "exponential" [] None None None 0 [].

(** Four wolves for one task on ten hosts, as [initialize_population]
    leaves them: all fitnesses infinite, the leaders the first three. *)
Definition pack_wolf (host_coordinate : R) : Wolf.t :=
  Wolf.init [host_coordinate; 1; 1] 1 10.

Definition pack : MDGWO.t :=
  MDGWO.mk 1 10 4 2 "linear"
           [pack_wolf 0; pack_wolf 3; pack_wolf 6; pack_wolf 9]
           (Some 0%nat) (Some 1%nat) (Some 2%nat) 0 [].

(** The unit samples that make [initialize_population] draw [pack]. *)
Definition pack_samples (i j : nat) : R :=
  match j with
  | O => 3 * INR i / 10
  | S O => 0
  | _ => 3 / 8
  end.

(** A fitness that depends on the host coordinate only and is NaN at the
    host coordinate 4. *)
Definition spiky_fitness (w : Wolf.t) : pyfloat :=
  match Wolf.position w with
  | x :: _ =>
      if decide (x = 4) then NaN
      else if decide (x = 9) then Fin (1 / 2)
      else if decide (x = 0) then Fin 1
      else if decide (x = 3) then Fin 2
      else Fin 3
  | [] => Fin 3
  end.

(** [pack] after the first generation under [spiky_fitness]: every wolf has
    been evaluated, the leaders are the wolves at places 3, 0 and 1, and the
    remaining wolf has moved to the mean of the leaders. *)
Definition evaluated_wolf (host_coordinate fitness : R) : Wolf.t :=
  Wolf.mk [host_coordinate; 1; 1] 1 10 (Fin fitness)
          [host_coordinate; 1; 1] (Fin fitness).

Definition moved_wolf : Wolf.t :=
  Wolf.mk [4; 1; 1] 1 10 (Fin 3) [6; 1; 1] (Fin 3).

Definition pack_before_move : MDGWO.t :=
  MDGWO.mk 1 10 4 2 "linear"
           [evaluated_wolf 0 1; evaluated_wolf 3 2; evaluated_wolf 6 3;
            evaluated_wolf 9 (1 / 2)]
           (Some 3%nat) (Some 0%nat) (Some 1%nat) 0 [Fin (1 / 2)].

Definition pack_after_one : MDGWO.t :=
  MDGWO.mk 1 10 4 2 "linear"
           [evaluated_wolf 0 1; evaluated_wolf 3 2; moved_wolf;
            evaluated_wolf 9 (1 / 2)]
           (Some 3%nat) (Some 0%nat) (Some 1%nat) 0 [Fin (1 / 2)].

(** A fitness without special values: the sum of the coordinates. *)
Definition sum_fitness (w : Wolf.t) : pyfloat :=
  Fin (fold_right Rplus 0 (Wolf.position w)).

(** Two tasks of 1500 MI each on the one fog node (id 1) of 2000 MIPS. *)
Definition crowded_topology : FogCloudTopology.t :=
  FogCloudTopology.init [fog 1 2000 2048 (1 / 10000)] [] ∅ ∅.

Definition crowded_tasks : list Task.t := [task 0 1500 10 0; task 1 1500 10 0].

Definition crowded_objective : ObjectiveFunction.t :=
  ObjectiveFunction.init crowded_topology crowded_tasks (6 / 10) (4 / 10) None.

Definition all_on_node_one : Schedule.t :=
  Schedule.assign_task (Schedule.assign_task (Schedule.init 2 1) 0 [1%Z] 2)
                       1 [1%Z] 2.
End Scenario.

(** ** Energy ([system_model.py], class [EnergyModel]) *)

#[global] Instance fl_le_dec : RelDecision fl_le.
Proof.
  intros [x| | |] [y| | |]; simpl; try apply _.
Defined.

(** [host.tx_power_w] and [host.rx_power_w]: attributes of a [FogNode]; a
    [CloudDataCenter] has neither. *)
Definition host_tx_power_w (h : Host) : result R :=
  match h with
  | HFog n => Ok (FogNode.tx_power_w n)
  | HCloud _ => Raise AttributeError
  end.

Definition host_rx_power_w (h : Host) : result R :=
  match h with
  | HFog n => Ok (FogNode.rx_power_w n)
  | HCloud _ => Raise AttributeError
  end.

Module EnergyModel.
(** [get_active_power] is a method of [FogNode] only. *)
Definition computation_energy (node : Host) (task : Task.t) (frequency_ghz : R)
    (execution_time_s : pyfloat) : result pyfloat :=
  match node with
  | HFog n =>
      let power_w := FogNode.get_active_power n frequency_ghz in
      Ok (fl_mul (Fin power_w) execution_time_s)
  | HCloud _ => Raise AttributeError
  end.

Definition communication_energy (task : Task.t) (transfer_time_s : pyfloat)
    (tx_power_w rx_power_w : R) : pyfloat :=
  let total_transfer_time := fl_mul (Fin 2) transfer_time_s in
  fl_mul (Fin (tx_power_w + rx_power_w)) total_transfer_time.

(** The defaults of [tx_power_w] and [rx_power_w]. *)
Definition default_tx_power_w : R := 18 / 10.
Definition default_rx_power_w : R := 12 / 10.
End EnergyModel.

(** ** Energy, fitness and feasibility ([objectives.py]) *)

Module Objectives.
(** [ObjectiveFunction.energy_consumption] *)
Definition energy_consumption (self : ObjectiveFunction.t) (schedule : Schedule.t)
  : result pyfloat :=
  for_each
    (fun total_energy task =>
       match Schedule.assignments schedule !! Task.task_id task with
       | None => Ok total_energy
       | Some assignment =>
           let node_ids := Schedule.nodes assignment in
           let frequency_ghz := Schedule.frequency assignment in
           for_each
             (fun total_energy node_id =>
                let topology := ObjectiveFunction.topology self in
                match FogCloudTopology.get_host topology node_id with
                | None => Ok total_energy
                | Some host =>
                    exec_time <-r
                      ReliabilityModel.task_execution_time task host frequency_ghz ;;
                    comp_energy <-r
                      EnergyModel.computation_energy host task frequency_ghz
                        exec_time ;;
                    let device_id := Task.source_device_id task in
                    let latency_in :=
                      FogCloudTopology.get_latency_ms topology device_id node_id in
                    let bandwidth_in :=
                      FogCloudTopology.get_bandwidth_mbps topology device_id node_id in
                    transfer_time_in <-r
                      NetworkModel.total_transfer_time (Task.input_size_mb task)
                        bandwidth_in latency_in ;;
                    tx_power_w <-r host_tx_power_w host ;;
                    rx_power_w <-r host_rx_power_w host ;;
                    let comm_energy :=
                      EnergyModel.communication_energy task transfer_time_in
                        tx_power_w rx_power_w in
                    Ok (fl_add total_energy (fl_add comp_energy comm_energy))
                end)
             node_ids total_energy
       end)
    (ObjectiveFunction.tasks self) (Fin 0).

(** [ObjectiveFunction.fitness] *)
Definition fitness (self : ObjectiveFunction.t) (schedule : Schedule.t)
  : result pyfloat :=
  energy <-r energy_consumption self schedule ;;
  reliability <-r ObjectiveFunction.system_reliability self schedule ;;
  penalty <-r ObjectiveFunction.penalty_function self schedule ;;
  Ok (fl_add
        (fl_sub (fl_mul (Fin (ObjectiveFunction.beta_energy self)) energy)
                (fl_mul (fl_mul (Fin (ObjectiveFunction.beta_reliability self))
                                reliability)
                        (Fin 1000)))
        penalty).

(** The defaults of [beta_energy], [beta_reliability] and [max_penalty]. *)
Definition default_beta_energy : R := 6 / 10.
Definition default_beta_reliability : R := 4 / 10.
Definition default_max_penalty : R := 1 / 1000.

(** [Schedule.is_feasible]: the penalty is computed by a fresh
    [ObjectiveFunction] with the default weights and coefficients. *)
Definition is_feasible (self : Schedule.t) (topology : FogCloudTopology.t)
    (tasks : list Task.t) (max_penalty : R) : result bool :=
  let obj_fn :=
    ObjectiveFunction.init topology tasks default_beta_energy
      default_beta_reliability None in
  penalty <-r ObjectiveFunction.penalty_function obj_fn self ;;
  Ok (bool_decide (fl_lt penalty (Fin max_penalty))).
End Objectives.

(** ** Constraint checks ([constraints.py]) *)

(** A schedule handed over as a plain dict,
    [{task_id: {'nodes': [...], 'frequency': f}}]: an entry may lack either
    key. *)
Module Plain.
Record entry : Type := mk_entry {
  nodes : option (list Z);
  frequency : option R
}.

(** [entry['nodes']] *)
Definition get_nodes (e : entry) : result (list Z) :=
  match nodes e with
  | Some l => Ok l
  | None => Raise KeyError
  end.

(** [entry['frequency']] *)
Definition get_frequency (e : entry) : result R :=
  match frequency e with
  | Some f => Ok f
  | None => Raise KeyError
  end.

(** The dict [Schedule.assign_task] stores. *)
Definition of_assignment (a : Schedule.assignment) : entry :=
  {| nodes := Some (Schedule.nodes a);
     frequency := Some (Schedule.frequency a) |}.

(** [schedule.assignments] *)
Definition of_schedule (schedule : Schedule.t) : gmap Z entry :=
  of_assignment <$> Schedule.assignments schedule.
End Plain.

Module ConstraintHandler.
(** [d[k] = v] on a dict kept in insertion order. *)
Fixpoint dict_set (d : list (Z * R)) (k : Z) (v : R) : list (Z * R) :=
  match d with
  | [] => [(k, v)]
  | (k', x) :: d' =>
      if decide (k' = k) then (k', v) :: d'
      else (k', x) :: dict_set d' k v
  end.

(** The first loop of [check_cpu_capacity] and [check_memory_capacity]:
    only nodes the topology knows get an entry. *)
Definition utilization_by_node (topology : FogCloudTopology.t)
    (assignments : gmap Z Plain.entry) (tasks : list Task.t)
    (amount : Task.t -> R) : result (list (Z * R)) :=
  for_each
    (fun utilization task =>
       match assignments !! Task.task_id task with
       | None => Ok utilization
       | Some entry =>
           node_ids <-r Plain.get_nodes entry ;;
           Ok (fold_left
                 (fun utilization node_id =>
                    match FogCloudTopology.get_host topology node_id with
                    | None => utilization
                    | Some _ =>
                        ObjectiveFunction.dict_add utilization node_id (amount task)
                    end)
                 node_ids utilization)
       end)
    tasks [].

(** The second loop: the entry of a host with a positive capacity is
    replaced by its ratio; the items are visited in insertion order, and
    each key is read before it is written. *)
Definition utilization_ratios (topology : FogCloudTopology.t)
    (capacity : Host -> R) (utilization : list (Z * R))
  : result (bool * list (Z * R)) :=
  for_each
    (fun '(is_feasible, utilization) '(node_id, load) =>
       match FogCloudTopology.get_host topology node_id with
       | None => Raise AttributeError
       | Some host =>
           if decide (0 < capacity host) then
             util_ratio <-r py_div load (capacity host) ;;
             let is_feasible :=
               if decide (1 < util_ratio) then false else is_feasible in
             Ok (is_feasible, dict_set utilization node_id util_ratio)
           else Ok (is_feasible, utilization)
       end)
    utilization (true, utilization).

Definition check_cpu_capacity (topology : FogCloudTopology.t)
    (assignments : gmap Z Plain.entry) (tasks : list Task.t)
  : result (bool * list (Z * R)) :=
  utilization <-r
    utilization_by_node topology assignments tasks Task.workload_mi ;;
  utilization_ratios topology host_cpu_mips utilization.

Definition check_memory_capacity (topology : FogCloudTopology.t)
    (assignments : gmap Z Plain.entry) (tasks : list Task.t)
  : result (bool * list (Z * R)) :=
  utilization <-r
    utilization_by_node topology assignments tasks Task.memory_requirement_mb ;;
  utilization_ratios topology host_memory_mb utilization.

Definition check_deadline_constraints (topology : FogCloudTopology.t)
    (assignments : gmap Z Plain.entry) (tasks : list Task.t)
  : result (bool * gmap Z pyfloat) :=
  for_each
    (fun '(is_feasible, deadline_violations) task =>
       match assignments !! Task.task_id task with
       | None =>
           Ok (false, <[Task.task_id task := Fin 0]> deadline_violations)
       | Some assignment =>
           node_ids <-r Plain.get_nodes assignment ;;
           let frequency_ghz := default 2 (Plain.frequency assignment) in
           match node_ids with
           | [] => Ok (false, <[Task.task_id task := Fin 0]> deadline_violations)
           | node_id :: _ =>
               let device_id := Task.source_device_id task in
               let host := FogCloudTopology.get_host topology node_id in
               total_time <-r
                 NetworkModel.task_total_time task device_id host frequency_ghz
                   topology ;;
               let is_feasible :=
                 if decide (fl_lt (Fin (Task.deadline_s task)) total_time)
                 then false else is_feasible in
               ratio <-r fl_div total_time (Fin (Task.deadline_s task)) ;;
               Ok (is_feasible, <[Task.task_id task := ratio]> deadline_violations)
           end
       end)
    tasks (true, ∅).

Definition check_all_constraints (topology : FogCloudTopology.t)
    (assignments : gmap Z Plain.entry) (tasks : list Task.t)
  : result (gmap string bool) :=
  cpu <-r check_cpu_capacity topology assignments tasks ;;
  let cpu_ok := fst cpu in
  mem <-r check_memory_capacity topology assignments tasks ;;
  let mem_ok := fst mem in
  dl <-r check_deadline_constraints topology assignments tasks ;;
  let dl_ok := fst dl in
  Ok (<["cpu" := cpu_ok]> (<["memory" := mem_ok]> (<["deadline" := dl_ok]>
        (<["all" := cpu_ok && mem_ok && dl_ok]> ∅)))).
End ConstraintHandler.

(** ** Reading the result of the optimizer ([mdgwo.py]) *)

Module Readout.
(** [MDGWO.get_best_schedule]; a [Wolf] object is always true. *)
Definition get_best_schedule : M MDGWO.t (gmap nat (list Z * R)) :=
  a <-m mgets MDGWO.alpha ;;
  match a with
  | Some a => MDGWO.on_wolf a Wolf.decode_position
  | None => mret ∅
  end.

End Readout.

(** ** The baseline without memory ([baselines/standard_gwo.py]) *)

Module StandardGWO.
(** The override of [update_wolf]. *)
Definition update_wolf (wolf : nat) (iteration : Z) : M MDGWO.t unit :=
  a <-m mgets MDGWO.alpha ;;
  b <-m mgets MDGWO.beta ;;
  d <-m mgets MDGWO.delta ;;
  match a, b, d with
  | Some a, Some b, Some d =>
      wa <-m MDGWO.deref a ;;
      wb <-m MDGWO.deref b ;;
      wd <-m MDGWO.deref d ;;
      ab <-m mlift (np_zip Rplus (Wolf.position wa) (Wolf.position wb)) ;;
      abd <-m mlift (np_zip Rplus ab (Wolf.position wd)) ;;
      let new_position := map (fun x => x / 3) abd in
      self_num_hosts <-m mgets MDGWO.num_hosts ;;
      MDGWO.on_wolf wolf
        (mmodify (Wolf.set_position new_position) ;;m
         mmodify (fun w =>
           Wolf.set_position
             (imap (MDGWO.enforce_bound self_num_hosts) (Wolf.position w)) w))
  | _, _, _ => mret tt
  end.

(** The last step of one pass of the inherited [optimize], which calls the
    override. *)
Definition move_wolves (iteration : Z) : M MDGWO.t unit :=
  ws <-m mgets MDGWO.wolves ;;
  mfor (seq 0 (length ws))
       (fun k =>
          a <-m mgets MDGWO.alpha ;;
          b <-m mgets MDGWO.beta ;;
          d <-m mgets MDGWO.delta ;;
          if decide (Some k <> a /\ Some k <> b /\ Some k <> d)
          then update_wolf k iteration
          else mret tt).
End StandardGWO.

(** ** The game-theoretic engine ([algorithms/game_theory.py]) *)

Module GameTheoreticEngine.
Record t : Type := mk {
  topology : FogCloudTopology.t;
  tasks : list Task.t;
  omega_r : R;
  omega_e : R
}.

Definition init (topology : FogCloudTopology.t) (tasks : list Task.t)
    (omega_reliability omega_energy : R) : t :=
  {| topology := topology; tasks := tasks;
     omega_r := omega_reliability; omega_e := omega_energy |}.

Definition compute_node_payoff (self : t) (node_id : Z)
    (assigned_tasks : list Task.t) (frequencies : gmap Z R)
    (replication_factors : gmap Z nat) : result pyfloat :=
  match FogCloudTopology.get_host (topology self) node_id with
  | None => Ok (Fin 0)
  | Some host =>
      contributions <-r
        for_each
          (fun '(reliability_contribution, energy_contribution) task =>
             let task_id := Task.task_id task in
             let frequency_ghz := default 2 (frequencies !! task_id) in
             exec_time <-r
               ReliabilityModel.task_execution_time task host frequency_ghz ;;
             p_succ <-r ReliabilityModel.node_success_probability host exec_time ;;
             let reliability_contribution :=
               fl_add reliability_contribution p_succ in
             comp_energy <-r
               EnergyModel.computation_energy host task frequency_ghz exec_time ;;
             let device_id := Task.source_device_id task in
             let latency :=
               FogCloudTopology.get_latency_ms (topology self) device_id node_id in
             let bandwidth :=
               FogCloudTopology.get_bandwidth_mbps (topology self) device_id
                 node_id in
             transfer_time <-r
               NetworkModel.total_transfer_time (Task.input_size_mb task)
                 bandwidth latency ;;
             let comm_energy :=
               EnergyModel.communication_energy task transfer_time
                 EnergyModel.default_tx_power_w EnergyModel.default_rx_power_w in
             Ok (reliability_contribution,
                 fl_add energy_contribution (fl_add comp_energy comm_energy)))
          assigned_tasks (Fin 0, Fin 0) ;;
      let payoff :=
        fl_sub (fl_mul (Fin (omega_r self)) (fst contributions))
               (fl_mul (Fin (omega_e self)) (snd contributions)) in
      Ok payoff
  end.

(** What the inner loop of [compute_system_payoff] collects for one node. *)
Definition tasks_on_node (self : t) (schedule : gmap Z Plain.entry) (node_id : Z)
  : list Task.t * gmap Z R * gmap Z nat :=
  fold_left
    (fun '(assigned_tasks, frequencies, replication_factors) task =>
       match schedule !! Task.task_id task with
       | None => (assigned_tasks, frequencies, replication_factors)
       | Some assignment =>
           let node_ids := default [] (Plain.nodes assignment) in
           if decide (node_id ∈ node_ids) then
             (assigned_tasks ++ [task],
              <[Task.task_id task := default 2 (Plain.frequency assignment)]>
                frequencies,
              <[Task.task_id task := length node_ids]> replication_factors)
           else (assigned_tasks, frequencies, replication_factors)
       end)
    (tasks self) ([], ∅, ∅).

(** The loop of [compute_system_payoff] over the keys [node_ids] of the
    dict of fog nodes, in the order the dict yields them. *)
Definition payoff_over (self : t) (schedule : gmap Z Plain.entry)
    (node_ids : list Z) : result pyfloat :=
  for_each
    (fun total_payoff node_id =>
       let '(assigned_tasks, frequencies, replication_factors) :=
         tasks_on_node self schedule node_id in
       node_payoff <-r
         compute_node_payoff self node_id assigned_tasks frequencies
           replication_factors ;;
       Ok (fl_add total_payoff node_payoff))
    node_ids (Fin 0).

Definition compute_system_payoff (self : t) (schedule : gmap Z Plain.entry)
  : result pyfloat :=
  payoff_over self schedule
    (map fst (map_to_list (FogCloudTopology.fog_nodes (topology self)))).

(** The loop over the fog nodes has the body [pass]. *)
Definition is_epsilon_nash_equilibrium (self : t)
    (schedule : gmap Z Plain.entry) (epsilon : R) : result bool :=
  current_payoff <-r compute_system_payoff self schedule ;;
  Ok true.
End GameTheoreticEngine.

Module BestResponseDynamics.
Record t : Type := mk {
  engine : GameTheoreticEngine.t;
  max_rounds : Z
}.

(** The loop of [compute_best_response]: the tasks taken so far and what is
    left of the capacity. *)
Definition take_tasks (node_id : Z) (tasks : list Task.t)
    (cpu_available : pyfloat) : gmap Z (Z * R) * pyfloat :=
  fold_left
    (fun '(best_response, cpu_available) task =>
       if decide (fl_le (Fin (Task.workload_mi task)) cpu_available)
       then (<[Task.task_id task := (node_id, 2)]> best_response,
             fl_sub cpu_available (Fin (Task.workload_mi task)))
       else (best_response, cpu_available))
    tasks (∅, cpu_available).

(** [other_strategies] is not read. *)
Definition compute_best_response {A : Type} (self : t) (node_id : Z)
    (other_strategies : A) : gmap Z (Z * R) :=
  let host :=
    FogCloudTopology.get_host
      (GameTheoreticEngine.topology (engine self)) node_id in
  let cpu_available :=
    match host with
    | Some h => Fin (host_cpu_mips h)
    | None => PInf
    end in
  fst (take_tasks node_id (GameTheoreticEngine.tasks (engine self)) cpu_available).
End BestResponseDynamics.

(** ** The simulator ([simulation/simulator.py]) *)

(** [max(a, b)]: [b] when [b > a], else [a]. *)
Definition py_max (a b : pyfloat) : pyfloat :=
  if decide (fl_lt a b) then b else a.

Module Simulator.
Record t : Type := mk {
  topology : FogCloudTopology.t;
  tasks : list Task.t;
  current_time : R;
  completed_tasks : list Z;
  failed_tasks : list Z
}.

Definition init (topology : FogCloudTopology.t) (tasks : list Task.t) : t :=
  {| topology := topology; tasks := tasks; current_time := 0;
     completed_tasks := []; failed_tasks := [] |}.

Definition set_completed (l : list Z) (s : t) : t :=
  {| topology := topology s; tasks := tasks s; current_time := current_time s;
     completed_tasks := l; failed_tasks := failed_tasks s |}.

Definition set_failed (l : list Z) (s : t) : t :=
  {| topology := topology s; tasks := tasks s; current_time := current_time s;
     completed_tasks := completed_tasks s; failed_tasks := l |}.

(** The dict [run] returns. *)
Record outcome : Type := mk_outcome {
  completed : nat;
  failed : nat;
  total_time : pyfloat;
  energy : pyfloat
}.

(** The body of the loop of [run] for one task; [draws] counts the calls
    of [random.random()] made so far, and [samples k] is what call [k]
    yields. *)
Definition run_task (samples : nat -> R) (schedule : gmap Z Plain.entry)
    (acc : pyfloat * pyfloat * nat) (task : Task.t)
  : M t (pyfloat * pyfloat * nat) :=
  let '(total_energy, max_time, draws) := acc in
  let fail :=
    mmodify (fun s => set_failed (failed_tasks s ++ [Task.task_id task]) s) in
  let complete :=
    mmodify (fun s => set_completed (completed_tasks s ++ [Task.task_id task]) s) in
  match schedule !! Task.task_id task with
  | None => fail ;;m mret acc
  | Some assignment =>
      node_ids <-m mlift (Plain.get_nodes assignment) ;;
      frequency_ghz <-m mlift (Plain.get_frequency assignment) ;;
      match node_ids with
      | [] => mraise IndexError
      | node_id :: _ =>
          self_topology <-m mgets topology ;;
          match FogCloudTopology.get_host self_topology node_id with
          | None => fail ;;m mret acc
          | Some host =>
              exec_time <-m
                mlift (ReliabilityModel.task_execution_time task host
                         frequency_ghz) ;;
              let device_id := Task.source_device_id task in
              let latency_in :=
                FogCloudTopology.get_latency_ms self_topology device_id node_id in
              let bandwidth_in :=
                FogCloudTopology.get_bandwidth_mbps self_topology device_id
                  node_id in
              transfer_time <-m
                mlift (NetworkModel.total_transfer_time (Task.input_size_mb task)
                         bandwidth_in latency_in) ;;
              let task_time := fl_add transfer_time exec_time in
              let max_time := py_max max_time task_time in
              comp_energy <-m
                mlift (EnergyModel.computation_energy host task frequency_ghz
                         exec_time) ;;
              let comm_energy :=
                EnergyModel.communication_energy task transfer_time
                  EnergyModel.default_tx_power_w EnergyModel.default_rx_power_w in
              let total_energy :=
                fl_add total_energy (fl_add comp_energy comm_energy) in
              p_succ <-m
                mlift (ReliabilityModel.node_success_probability host exec_time) ;;
              (if decide (fl_lt (Fin (samples draws)) p_succ)
               then complete else fail) ;;m
              mret (total_energy, max_time, S draws)
          end
      end
  end.

Definition run (samples : nat -> R) (schedule : gmap Z Plain.entry)
  : M t outcome :=
  mmodify (set_completed []) ;;m
  mmodify (set_failed []) ;;m
  self_tasks <-m mgets tasks ;;
  acc <-m mfold (run_task samples schedule) self_tasks (Fin 0, Fin 0, 0%nat) ;;
  self_completed <-m mgets completed_tasks ;;
  self_failed <-m mgets failed_tasks ;;
  mret {| completed := length self_completed;
          failed := length self_failed;
          total_time := snd (fst acc);
          energy := fst (fst acc) |}.
End Simulator.

(** ** The quantities the further properties speak of *)

Module Notions.
(** The node id resolves to a cloud data center. *)
Definition on_cloud (topology : FogCloudTopology.t) (node_id : Z) : bool :=
  match FogCloudTopology.get_host topology node_id with
  | Some (HCloud _) => true
  | _ => false
  end.

(** Some replica of an assigned task of the task set is on a cloud data
    center. *)
Definition uses_cloud (O : ObjectiveFunction.t) (schedule : Schedule.t) : bool :=
  existsb (fun p => on_cloud (ObjectiveFunction.topology O) (fst p))
          (Spec.placements O schedule).

(** [P(f) * W / cpu + (tx + rx) * 2 * (8 * S_in / bandwidth + latency / 1000)]:
    the energy of one replica of [task] on the fog node [n], reached under
    the id [node_id], over a link of positive bandwidth. *)
Definition replica_energy (topology : FogCloudTopology.t) (task : Task.t)
    (frequency_ghz : R) (node_id : Z) (n : FogNode.t) : R :=
  let device_id := Task.source_device_id task in
  FogNode.get_active_power n frequency_ghz
  * (Task.workload_mi task / FogNode.cpu_mips n)
  + (FogNode.tx_power_w n + FogNode.rx_power_w n)
    * (2 * (Task.input_size_mb task * 8
            / FogCloudTopology.get_bandwidth_mbps topology device_id node_id
            + FogCloudTopology.get_latency_ms topology device_id node_id / 1000)).

(** The energy of the placement [p] of the schedule, 0 for a node id the
    topology does not know as a fog node. *)
Definition placement_energy (O : ObjectiveFunction.t) (schedule : Schedule.t)
    (p : Z * Task.t) : R :=
  let topology := ObjectiveFunction.topology O in
  match FogCloudTopology.get_host topology (fst p),
        Schedule.assignments schedule !! Task.task_id (snd p) with
  | Some (HFog n), Some a =>
      replica_energy topology (snd p) (Schedule.frequency a) (fst p) n
  | _, _ => 0
  end.

(** Every replica that resolves to a host is on a fog node with a positive
    processing rate, reached over a link of positive bandwidth. *)
Definition fog_placements (O : ObjectiveFunction.t) (schedule : Schedule.t)
  : Prop :=
  forall n task host,
    (n, task) ∈ Spec.placements O schedule ->
    FogCloudTopology.get_host (ObjectiveFunction.topology O) n = Some host ->
    (exists node, host = HFog node) /\
    0 < host_cpu_mips host /\
    0 < FogCloudTopology.get_bandwidth_mbps (ObjectiveFunction.topology O)
          (Task.source_device_id task) n.
(** What [energy_consumption] does for one replica. *)
Definition energy_step (O : ObjectiveFunction.t) (schedule : Schedule.t)
    (total_energy : pyfloat) (p : Z * Task.t) : result pyfloat :=
  let topology := ObjectiveFunction.topology O in
  match Schedule.assignments schedule !! Task.task_id (snd p) with
  | None => Ok total_energy
  | Some assignment =>
      match FogCloudTopology.get_host topology (fst p) with
      | None => Ok total_energy
      | Some host =>
          exec_time <-r
            ReliabilityModel.task_execution_time (snd p) host
              (Schedule.frequency assignment) ;;
          comp_energy <-r
            EnergyModel.computation_energy host (snd p)
              (Schedule.frequency assignment) exec_time ;;
          transfer_time_in <-r
            NetworkModel.total_transfer_time (Task.input_size_mb (snd p))
              (FogCloudTopology.get_bandwidth_mbps topology
                 (Task.source_device_id (snd p)) (fst p))
              (FogCloudTopology.get_latency_ms topology
                 (Task.source_device_id (snd p)) (fst p)) ;;
          tx_power_w <-r host_tx_power_w host ;;
          rx_power_w <-r host_rx_power_w host ;;
          Ok (fl_add total_energy
                (fl_add comp_energy
                   (EnergyModel.communication_energy (snd p) transfer_time_in
                      tx_power_w rx_power_w)))
      end
  end.

(** The evaluator [O] with the task list [l] in place of its own. *)
Definition with_tasks (O : ObjectiveFunction.t) (l : list Task.t)
  : ObjectiveFunction.t :=
  ObjectiveFunction.mk (ObjectiveFunction.topology O) l
    (ObjectiveFunction.beta_energy O) (ObjectiveFunction.beta_reliability O)
    (ObjectiveFunction.penalties O).

(** Every penalty coefficient is positive. *)
Definition positive_coefficients (O : ObjectiveFunction.t) : Prop :=
  forall key c, ObjectiveFunction.penalties O !! key = Some c -> 0 < c.

(** The entry [check_cpu_capacity] and [check_memory_capacity] return for a
    host that carries [load]: the ratio for a positive capacity, the load
    itself otherwise. *)
Definition utilization_entry (capacity : Host -> R) (host : Host) (load : R) : R :=
  if decide (0 < capacity host) then load / capacity host else load.

(** No host with a positive capacity is assigned more than it. *)
Definition within_capacity (O : ObjectiveFunction.t) (schedule : Schedule.t)
    (capacity : Host -> R) (amount : Task.t -> R) : Prop :=
  forall h host,
    FogCloudTopology.get_host (ObjectiveFunction.topology O) h = Some host ->
    0 < capacity host ->
    Spec.total_assigned amount (Spec.placements O schedule) h <= capacity host.

(** The task is assigned, its first replica is on a host, and its total
    time there does not exceed its deadline. *)
Definition meets_deadline (topology : FogCloudTopology.t)
    (assignments : gmap Z Plain.entry) (task : Task.t) : bool :=
  match assignments !! Task.task_id task with
  | Some entry =>
      match Plain.nodes entry with
      | Some (node_id :: _) =>
          match NetworkModel.task_total_time task (Task.source_device_id task)
                  (FogCloudTopology.get_host topology node_id)
                  (default 2 (Plain.frequency entry)) topology with
          | Ok total_time =>
              negb (bool_decide (fl_lt (Fin (Task.deadline_s task)) total_time))
          | Raise _ => false
          end
      | _ => false
      end
  | None => false
  end.

(** No element of [l] has a key below that of an element before it. *)
Fixpoint ascending {A : Type} (key : A -> pyfloat) (l : list A) : Prop :=
  match l with
  | [] => True
  | x :: l' => Forall (fun y => fl_le (key x) (key y)) l' /\ ascending key l'
  end.


(** Every coordinate lies in its range: the host coordinates in [0, hi],
    the replication coordinates in [1, 3], the frequency coordinates in
    [0.4, 2]. *)
Definition in_box (hi : R) (position : list R) : Prop :=
  forall i x, position !! i = Some x ->
    if decide (i mod 3 = 0)%nat then 0 <= x <= hi
    else if decide (i mod 3 = 1)%nat then 1 <= x <= 3
    else 4 / 10 <= x <= 2.


(** The hyperparameters of [s'] are those of [s], and its wolves are those
    of [s], place by place, each changed at most as [P] allows. *)
Definition wolfwise (P : Wolf.t -> Wolf.t -> Prop) (s s' : MDGWO.t) : Prop :=
  MDGWO.num_tasks s' = MDGWO.num_tasks s /\
  MDGWO.num_hosts s' = MDGWO.num_hosts s /\
  MDGWO.population_size s' = MDGWO.population_size s /\
  MDGWO.max_iterations s' = MDGWO.max_iterations s /\
  MDGWO.memory_decay s' = MDGWO.memory_decay s /\
  length (MDGWO.wolves s') = length (MDGWO.wolves s) /\
  forall k w, MDGWO.wolves s !! k = Some w ->
    exists w', MDGWO.wolves s' !! k = Some w' /\ P w w'.

(** What a run keeps of a wolf: its sizes, and its personal best fitness
    unless that gets smaller. *)
Definition kept (w w' : Wolf.t) : Prop :=
  Wolf.num_tasks w' = Wolf.num_tasks w /\
  Wolf.num_hosts w' = Wolf.num_hosts w /\
  (Wolf.pbest_fitness w' = Wolf.pbest_fitness w \/
   fl_lt (Wolf.pbest_fitness w') (Wolf.pbest_fitness w)).

(** The personal best fitness is the fitness of the personal best position,
    or still the infinity the wolf was created with. *)
Definition pbest_consistent (f : Wolf.t -> pyfloat) (w : Wolf.t) : Prop :=
  Wolf.pbest_fitness w = PInf \/
  Wolf.pbest_fitness w = f (Wolf.set_position (Wolf.pbest w) w).

(** The wolf at place [a] is the alpha, its fitness is the fitness of its
    position and the last recorded value, and no fitness and no personal
    best fitness in the population is smaller. *)
Definition best_so_far (f : Wolf.t -> pyfloat) (a : nat) (s : MDGWO.t) : Prop :=
  exists wa,
    MDGWO.alpha s = Some a /\
    MDGWO.wolves s !! a = Some wa /\
    Wolf.fitness wa = f wa /\
    last (MDGWO.best_fitness_history s) = Some (Wolf.fitness wa) /\
    forall w, w ∈ MDGWO.wolves s ->
      fl_le (Wolf.fitness wa) (Wolf.fitness w) /\
      fl_le (Wolf.fitness wa) (Wolf.pbest_fitness w).

(** What holds between two generations: a personal best fitness is the
    infinity of a new wolf or at least the last recorded value, and some
    wolf's position is at least as good as that value. *)
Definition between_generations (f : Wolf.t -> pyfloat) (s : MDGWO.t) : Prop :=
  (forall w, w ∈ MDGWO.wolves s ->
     Wolf.pbest_fitness w = PInf \/
     exists x, last (MDGWO.best_fitness_history s) = Some x /\
               fl_le x (Wolf.pbest_fitness w)) /\
  (forall x, last (MDGWO.best_fitness_history s) = Some x ->
     exists k w, MDGWO.wolves s !! k = Some w /\ fl_le (f w) x).

(** The mean of the positions of the three leaders, bounded coordinate by
    coordinate; [None] where a leader is missing or the three positions do
    not combine. *)
Definition leaders_center (s : MDGWO.t) : option (list R) :=
  match MDGWO.alpha s, MDGWO.beta s, MDGWO.delta s with
  | Some a, Some b, Some d =>
      match MDGWO.wolves s !! a, MDGWO.wolves s !! b, MDGWO.wolves s !! d with
      | Some wa, Some wb, Some wd =>
          match np_zip Rplus (Wolf.position wa) (Wolf.position wb) with
          | Ok ab =>
              match np_zip Rplus ab (Wolf.position wd) with
              | Ok abd =>
                  Some (imap (MDGWO.enforce_bound (MDGWO.num_hosts s))
                             (map (fun x => x / 3) abd))
              | Raise _ => None
              end
          | Raise _ => None
          end
      | _, _, _ => None
      end
  | _, _, _ => None
  end.

(** The place [k] is not that of a leader. *)
Definition follower (s : MDGWO.t) (k : nat) : Prop :=
  Some k <> MDGWO.alpha s /\ Some k <> MDGWO.beta s /\ Some k <> MDGWO.delta s.

(** The total workload of the tasks of [tasks] that the best response
    [response] takes. *)
Definition taken_load (response : gmap Z (Z * R)) (tasks : list Task.t) : R :=
  Spec.Rsum
    (map Task.workload_mi
         (filter (fun t => is_Some (response !! Task.task_id t)) tasks)).
End Notions.

(** ** Further scenarios *)

Module Cases.
(** One task of 1500 MI, not critical, on the one fog node (id 1) of 2000
    MIPS. *)
Definition light_tasks : list Task.t := [Scenario.task 0 1500 10 0].

Definition light_objective : ObjectiveFunction.t :=
  ObjectiveFunction.init Scenario.crowded_topology light_tasks
    Objectives.default_beta_energy Objectives.default_beta_reliability None.

Definition light_schedule : Schedule.t :=
  Schedule.assign_task (Schedule.init 1 1) 0 [1%Z] 2.

(** One cloud data center (id 5) and no fog node, with the one task placed
    on the data center. *)
Definition cloud : CloudDataCenter.t :=
  CloudDataCenter.mk 5 100000 65536 1000 1000 (1 / 100000) 200.

Definition cloud_topology : FogCloudTopology.t :=
  FogCloudTopology.init [] [cloud] ∅ ∅.

Definition on_the_cloud : gmap Z Plain.entry :=
  {[ 0%Z := Plain.mk_entry (Some [5%Z]) (Some 2) ]}.
End Cases.

(** * Properties *)

(** ** Tactics *)

(** Settle the comparisons of concrete reals that guard the code. *)
Ltac rdecide :=
  repeat match goal with
    | |- context [decide ?P] =>
        first [ rewrite (decide_True (P := P)) by (simpl; first [lra | tauto])
              | rewrite (decide_False (P := P)) by (simpl; first [lra | tauto]) ]
    end.

(** ** The cost model *)

Lemma py_div_nonzero (x y : R) : y <> 0 -> py_div x y = Ok (x / y).
Proof. intros Hy. unfold py_div. by rewrite decide_False. Qed.

Lemma transfer_times_agree (s bw lat : R) :
  ReliabilityModel.transfer_time_s s bw lat = NetworkModel.total_transfer_time s bw lat.
Proof. reflexivity. Qed.

Lemma task_execution_time_value (task : Task.t) (host : Host) (f : R) :
  ReliabilityModel.task_execution_time task host f =
  Ok (if decide (0 < host_cpu_mips host)
      then Fin (Task.workload_mi task / host_cpu_mips host) else PInf).
Proof.
  unfold ReliabilityModel.task_execution_time.
  destruct (decide (0 < host_cpu_mips host)) as [Hpos|Hneg]; [|done].
  rewrite py_div_nonzero by lra. done.
Qed.

Lemma total_transfer_time_value (s bw lat : R) :
  NetworkModel.total_transfer_time s bw lat =
  Ok (if decide (0 < bw) then Fin (s * 8 / bw + lat / 1000) else PInf).
Proof.
  unfold NetworkModel.total_transfer_time.
  destruct (decide (0 < bw)) as [Hpos|Hneg].
  - rewrite py_div_nonzero by lra. simpl. rewrite py_div_nonzero by lra. done.
  - simpl. rewrite py_div_nonzero by lra. done.
Qed.

(** C6. [task_execution_time] and [transfer_time_s] never raise: the first
    returns workload/rate for a positive processing rate and +infinity
    otherwise, the second returns size*8/bandwidth + latency/1000 for a
    positive bandwidth and +infinity otherwise. *)
Theorem cost_model_total (task : Task.t) (host : Host)
    (frequency_ghz data_size_mb bandwidth_mbps latency_ms : R) :
  (0 < host_cpu_mips host ->
   ReliabilityModel.task_execution_time task host frequency_ghz =
   Ok (Fin (Task.workload_mi task / host_cpu_mips host))) /\
  (host_cpu_mips host <= 0 ->
   ReliabilityModel.task_execution_time task host frequency_ghz = Ok PInf) /\
  (0 < bandwidth_mbps ->
   ReliabilityModel.transfer_time_s data_size_mb bandwidth_mbps latency_ms =
   Ok (Fin (data_size_mb * 8 / bandwidth_mbps + latency_ms / 1000))) /\
  (bandwidth_mbps <= 0 ->
   ReliabilityModel.transfer_time_s data_size_mb bandwidth_mbps latency_ms = Ok PInf) /\
  (exists v, ReliabilityModel.task_execution_time task host frequency_ghz = Ok v) /\
  (exists v, ReliabilityModel.transfer_time_s data_size_mb bandwidth_mbps latency_ms = Ok v).
Proof.
  rewrite task_execution_time_value, transfer_times_agree, total_transfer_time_value.
  repeat split.
  - intros H. by rewrite decide_True.
  - intros H. rewrite decide_False; [done | lra].
  - intros H. by rewrite decide_True.
  - intros H. rewrite decide_False; [done | lra].
  - eauto.
  - eauto.
Qed.

Lemma cost_model_total_witness :
  ReliabilityModel.task_execution_time
    Scenario.long_task (HFog (Scenario.fog 0 2000 2048 0)) 2 = Ok (Fin (1000 / 2000)) /\
  ReliabilityModel.task_execution_time
    Scenario.long_task (HFog (Scenario.fog 0 0 2048 0)) 2 = Ok PInf /\
  ReliabilityModel.transfer_time_s 10 100 50 = Ok (Fin (10 * 8 / 100 + 50 / 1000)) /\
  ReliabilityModel.transfer_time_s 10 0 50 = Ok PInf.
Proof.
  split; [|split; [|split]].
  - apply (cost_model_total Scenario.long_task (HFog (Scenario.fog 0 2000 2048 0)) 2 10 100 50).
    simpl. lra.
  - apply (cost_model_total Scenario.long_task (HFog (Scenario.fog 0 0 2048 0)) 2 10 100 50).
    simpl. lra.
  - apply (cost_model_total Scenario.long_task (HFog (Scenario.fog 0 2000 2048 0)) 2 10 100 50).
    lra.
  - apply (cost_model_total Scenario.long_task (HFog (Scenario.fog 0 2000 2048 0)) 2 10 0 50).
    lra.
Defined.

(** ** The deadline component of the penalty *)

Lemma task_total_time_value (task : Task.t) (device_id : Z) (h : Host)
    (f : R) (topo : FogCloudTopology.t) :
  exists v,
    NetworkModel.task_total_time task device_id (Some h) f topo = Ok v.
Proof.
  unfold NetworkModel.task_total_time.
  rewrite !total_transfer_time_value, task_execution_time_value. simpl. eauto.
Qed.

Lemma penalty_coeff_some (O : ObjectiveFunction.t) (key : string) (c : R) :
  ObjectiveFunction.penalties O !! key = Some c ->
  ObjectiveFunction.penalty_coeff O key = Ok c.
Proof. intros H. unfold ObjectiveFunction.penalty_coeff. by rewrite H. Qed.

Lemma deadline_step (O : ObjectiveFunction.t) (schedule : Schedule.t)
    (c x : R) (task : Task.t) :
  ObjectiveFunction.penalties O !! "deadline" = Some c ->
  (forall a n,
     Schedule.assignments schedule !! Task.task_id task = Some a ->
     head (Schedule.nodes a) = Some n -> n <> 0%Z ->
     is_Some (FogCloudTopology.get_host (ObjectiveFunction.topology O) n)) ->
  match Schedule.assignments schedule !! Task.task_id task with
  | None =>
      c <-r ObjectiveFunction.penalty_coeff O "deadline" ;;
      Ok (fl_add (Fin x) (Fin c))
  | Some assignment =>
      if ObjectiveFunction.truthy (head (Schedule.nodes assignment)) then
        total_time <-r
          NetworkModel.task_total_time task (Task.source_device_id task)
            (FogCloudTopology.get_host (ObjectiveFunction.topology O)
               (default 0%Z (head (Schedule.nodes assignment))))
            (Schedule.frequency assignment) (ObjectiveFunction.topology O) ;;
        if decide (fl_lt (Fin (Task.deadline_s task)) total_time)
        then c <-r ObjectiveFunction.penalty_coeff O "deadline" ;;
             Ok (fl_add (Fin x) (Fin c))
        else Ok (Fin x)
      else Ok (Fin x)
  end
  = Ok (Fin (x + if Spec.deadline_hit O schedule task then c else 0)).
Proof.
  intros Hc Hhost. unfold Spec.deadline_hit.
  rewrite (penalty_coeff_some O "deadline" c Hc).
  destruct (Schedule.assignments schedule !! Task.task_id task) as [a|] eqn:Ha;
    [|done].
  destruct (head (Schedule.nodes a)) as [n|] eqn:Hn; cbn [ObjectiveFunction.truthy].
  - destruct (decide (n = 0%Z)) as [->|Hn0].
    { rewrite bool_decide_false by (intros H; by apply H).
      cbn. by rewrite Rplus_0_r. }
    rewrite bool_decide_true by done. cbn [andb]. simpl (default _ _).
    destruct (Hhost a n) as [h Hh]; [done..|]. rewrite Hh.
    destruct (task_total_time_value task (Task.source_device_id task) h
                (Schedule.frequency a) (ObjectiveFunction.topology O)) as [v Hv].
    rewrite Hv. cbn [rbind].
    destruct (decide (fl_lt (Fin (Task.deadline_s task)) v)) as [Hlt|Hlt].
    + by rewrite bool_decide_true.
    + rewrite bool_decide_false by done. by rewrite Rplus_0_r.
  - cbn. by rewrite Rplus_0_r.
Qed.

(** What the deadline loop adds: the coefficient once per task that
    [deadline_hit] flags, provided the first replica of every assigned task
    is node 0, absent, or a node of the topology. *)
Lemma deadline_violations_counts (O : ObjectiveFunction.t)
    (schedule : Schedule.t) (c : R) :
  ObjectiveFunction.penalties O !! "deadline" = Some c ->
  (forall task a n,
     task ∈ ObjectiveFunction.tasks O ->
     Schedule.assignments schedule !! Task.task_id task = Some a ->
     head (Schedule.nodes a) = Some n -> n <> 0%Z ->
     is_Some (FogCloudTopology.get_host (ObjectiveFunction.topology O) n)) ->
  forall x : R,
    ObjectiveFunction.deadline_violations O schedule (Fin x) =
    Ok (Fin (x + c * INR (length (filter (Spec.deadline_hit O schedule)
                                         (ObjectiveFunction.tasks O))))).
Proof.
  intros Hc. unfold ObjectiveFunction.deadline_violations.
  induction (ObjectiveFunction.tasks O) as [|task tasks IH]; intros Hhost x.
  - simpl. do 2 f_equal. lra.
  - cbn [for_each].
    rewrite (deadline_step O schedule c x task Hc);
      [|intros a n; apply Hhost; by left].
    cbn [rbind]. rewrite IH; [|intros t a n Hin; apply Hhost; by right].
    rewrite filter_cons.
    destruct (Spec.deadline_hit O schedule task).
    + rewrite decide_True by done. cbn [length]. rewrite S_INR.
      do 2 f_equal. lra.
    + rewrite decide_False by (by intros []). do 2 f_equal. lra.
Qed.

(** C1. On the one-node topology whose node has id 0, a task placed on that
    node takes 1001.3 s against a deadline of 10 s, the deadline coefficient
    is 100000, and the deadline loop adds nothing for the task: its first
    replica, node 0, does not pass [if node_id:]. *)
Theorem deadline_check_skips_node_zero :
  Schedule.assignments Scenario.on_node_zero !! 0%Z
    = Some (Schedule.mk_assignment [0%Z] 2) /\
  FogCloudTopology.get_host Scenario.slow_topology 0
    = Some (HFog (Scenario.fog 0 1 2048 (1 / 10000))) /\
  NetworkModel.task_total_time Scenario.long_task 0
      (FogCloudTopology.get_host Scenario.slow_topology 0) 2 Scenario.slow_topology
    = Ok (Fin (10 * 8 / 100 + 50 / 1000 + 1000 / 1 + (5 * 8 / 100 + 50 / 1000))) /\
  Task.deadline_s Scenario.long_task
    < 10 * 8 / 100 + 50 / 1000 + 1000 / 1 + (5 * 8 / 100 + 50 / 1000) /\
  ObjectiveFunction.penalty_coeff Scenario.slow_objective "deadline" = Ok 100000 /\
  ObjectiveFunction.deadline_violations
      Scenario.slow_objective Scenario.on_node_zero (Fin 0) = Ok (Fin 0).
Proof.
  assert (Hhost : FogCloudTopology.get_host Scenario.slow_topology 0
                  = Some (HFog (Scenario.fog 0 1 2048 (1 / 10000)))).
  { unfold FogCloudTopology.get_host. cbn. by rewrite lookup_insert_eq. }
  assert (Hasg : Schedule.assignments Scenario.on_node_zero !! 0%Z
                 = Some (Schedule.mk_assignment [0%Z] 2)).
  { cbn. by rewrite lookup_insert_eq. }
  split; [done|]. split; [done|]. split; [|split; [|split]].
  - rewrite Hhost. unfold NetworkModel.task_total_time.
    rewrite !total_transfer_time_value, task_execution_time_value.
    unfold FogCloudTopology.get_bandwidth_mbps, FogCloudTopology.get_latency_ms.
    cbn. rewrite !lookup_empty. cbn. rdecide. done.
  - cbn. lra.
  - reflexivity.
  - unfold ObjectiveFunction.deadline_violations. cbn [for_each Scenario.slow_objective
      ObjectiveFunction.init ObjectiveFunction.tasks Scenario.long_task Scenario.task
      Task.task_id].
    rewrite Hasg. cbn. done.
Qed.

(** ** The capacity components of the penalty *)

Section LoadDict.
Implicit Types (d : list (Z * R)) (k : Z) (v : R).

Lemma keys_dict_add d k v :
  map fst (ObjectiveFunction.dict_add d k v) =
  if decide (k ∈ map fst d) then map fst d else map fst d ++ [k].
Proof.
  induction d as [|[k' x] d IH]; cbn [ObjectiveFunction.dict_add map fst].
  - rewrite decide_False; [done | apply not_elem_of_nil].
  - destruct (decide (k' = k)) as [->|Hne]; cbn [map fst].
    + rewrite decide_True; [done | left].
    + rewrite IH. destruct (decide (k ∈ map fst d)) as [Hin|Hin].
      * rewrite decide_True; [done | by right].
      * rewrite decide_False; [done |].
        intros [?|?]%elem_of_cons; congruence.
Qed.

Lemma dict_get_dict_add d k v k' :
  Spec.dict_get (ObjectiveFunction.dict_add d k v) k' =
  if decide (k = k') then Spec.dict_get d k + v else Spec.dict_get d k'.
Proof.
  induction d as [|[k0 x] d IH]; cbn [ObjectiveFunction.dict_add Spec.dict_get].
  - destruct (decide (k = k')); done.
  - destruct (decide (k0 = k)) as [->|Hne]; cbn [Spec.dict_get].
    + destruct (decide (k = k')); done.
    + rewrite IH. destruct (decide (k = k')) as [->|Hne'].
      * rewrite decide_False; done.
      * done.
Qed.

Lemma NoDup_dict_add d k v :
  NoDup (map fst d) -> NoDup (map fst (ObjectiveFunction.dict_add d k v)).
Proof.
  intros Hd. rewrite keys_dict_add. case_decide; [done|].
  apply NoDup_app. split; [done|]. split.
  - intros x Hx [->|[]%elem_of_nil]%elem_of_cons. done.
  - apply NoDup_singleton.
Qed.

Lemma dict_get_notin d k : k ∉ map fst d -> Spec.dict_get d k = 0.
Proof.
  induction d as [|[k' x] d IH]; cbn [Spec.dict_get map fst]; [done|].
  intros Hk. rewrite decide_False.
  - apply IH. intros H. apply Hk. by right.
  - intros ->. apply Hk. left.
Qed.

Lemma dict_items d :
  NoDup (map fst d) -> d = map (fun k => (k, Spec.dict_get d k)) (map fst d).
Proof.
  induction d as [|[k x] d IH]; cbn [Spec.dict_get map fst]; [done|].
  intros [Hk Hd]%NoDup_cons. rewrite decide_True by done. f_equal.
  rewrite IH at 1 by done. apply map_ext_in. intros k' Hk'.
  rewrite decide_False; [done|]. intros ->. apply Hk.
  by apply list_elem_of_In.
Qed.
End LoadDict.

Lemma first_occurrences_ext (s1 s2 l : list Z) :
  (forall x, x ∈ s1 <-> x ∈ s2) ->
  Spec.first_occurrences s1 l = Spec.first_occurrences s2 l.
Proof.
  revert s1 s2. induction l as [|k l IH]; intros s1 s2 Hs; simpl; [done|].
  destruct (decide (k ∈ s1)) as [H1|H1].
  - rewrite decide_True by (by apply Hs). by apply IH.
  - rewrite decide_False by (by rewrite <- Hs). f_equal. apply IH.
    intros x. rewrite !elem_of_cons. by rewrite Hs.
Qed.

Lemma total_assigned_cons (amount : Task.t -> R) (p : Z * Task.t)
    (pl : list (Z * Task.t)) (h : Z) :
  Spec.total_assigned amount (p :: pl) h =
  if decide (fst p = h) then amount (snd p) + Spec.total_assigned amount pl h
  else Spec.total_assigned amount pl h.
Proof.
  unfold Spec.total_assigned. rewrite filter_cons.
  destruct (decide (fst p = h)); done.
Qed.

(** The load dict after the placements [pl] have been added to [d]. *)
Lemma fold_dict_add (amount : Task.t -> R) (pl : list (Z * Task.t))
    (d : list (Z * R)) :
  NoDup (map fst d) ->
  fold_left (fun d p => ObjectiveFunction.dict_add d (fst p) (amount (snd p))) pl d =
  map (fun k => (k, Spec.dict_get d k + Spec.total_assigned amount pl k))
      (map fst d ++ Spec.first_occurrences (map fst d) (map fst pl)).
Proof.
  revert d. induction pl as [|[n task] pl IH]; intros d Hd.
  - simpl. rewrite app_nil_r. rewrite (dict_items d Hd) at 1.
    apply map_ext. intros k. f_equal. unfold Spec.total_assigned. simpl. lra.
  - cbn [fold_left fst snd map]. rewrite IH by (by apply NoDup_dict_add).
    rewrite keys_dict_add. cbn [Spec.first_occurrences].
    destruct (decide (n ∈ map fst d)) as [Hin|Hin].
    + apply map_ext. intros k. f_equal.
      rewrite dict_get_dict_add, total_assigned_cons. cbn [fst snd].
      destruct (decide (n = k)) as [->|]; lra.
    + rewrite <- app_assoc. cbn [app].
      rewrite (first_occurrences_ext (map fst d ++ [n]) (n :: map fst d)).
      2:{ intros x. rewrite elem_of_app, !elem_of_cons, elem_of_nil. tauto. }
      apply map_ext. intros k. f_equal.
      rewrite dict_get_dict_add, total_assigned_cons. cbn [fst snd].
      destruct (decide (n = k)) as [->|]; lra.
Qed.

Lemma fold_left_flat_map {A B C : Type} (f : C -> B -> C) (g : A -> list B)
    (l : list A) (c : C) :
  fold_left f (flat_map g l) c = fold_left (fun c x => fold_left f (g x) c) l c.
Proof.
  revert c. induction l as [|x l IH]; intros c; simpl; [done|].
  by rewrite fold_left_app, IH.
Qed.

Lemma load_by_node_placements (O : ObjectiveFunction.t) (schedule : Schedule.t)
    (amount : Task.t -> R) :
  ObjectiveFunction.load_by_node O schedule amount =
  fold_left (fun d p => ObjectiveFunction.dict_add d (fst p) (amount (snd p)))
            (Spec.placements O schedule) [].
Proof.
  unfold ObjectiveFunction.load_by_node, Spec.placements.
  rewrite fold_left_flat_map.
  generalize (@nil (Z * R)).
  induction (ObjectiveFunction.tasks O) as [|task tasks IH]; intros d; simpl; [done|].
  rewrite <- IH. f_equal.
  destruct (Schedule.assignments schedule !! Task.task_id task) as [a|]; [|done].
  generalize d. clear. induction (Schedule.nodes a) as [|n ns IH]; intros d; simpl; [done|].
  by rewrite IH.
Qed.

(** The load dict holds, for each node with any load and in the order of
    first placement, the total amount assigned to it. *)
Lemma load_by_node_value (O : ObjectiveFunction.t) (schedule : Schedule.t)
    (amount : Task.t -> R) :
  ObjectiveFunction.load_by_node O schedule amount =
  map (fun k => (k, Spec.total_assigned amount (Spec.placements O schedule) k))
      (Spec.hosts_with_load (Spec.placements O schedule)).
Proof.
  rewrite load_by_node_placements, fold_dict_add by constructor.
  simpl. apply map_ext. intros k. f_equal. lra.
Qed.

(** The second loop over a load dict whose resolved hosts have a non-zero
    capacity. *)
Lemma Ok_Fin_eq (a b : R) : a = b -> @Ok pyfloat (Fin a) = Ok (Fin b).
Proof. by intros ->. Qed.

Lemma overload_penalty_value (O : ObjectiveFunction.t) (key : string)
    (capacity : Host -> R) (c : R) (load : Z -> R) (ks : list Z) :
  ObjectiveFunction.penalties O !! key = Some c ->
  (forall k host, k ∈ ks ->
     FogCloudTopology.get_host (ObjectiveFunction.topology O) k = Some host ->
     capacity host <> 0) ->
  forall x : R,
    ObjectiveFunction.overload_penalty O key capacity
      (map (fun k => (k, load k)) ks) (Fin x) =
    Ok (Fin (x + c * Spec.Rsum (map (Spec.overload O capacity load) ks))).
Proof.
  intros Hc. unfold ObjectiveFunction.overload_penalty.
  rewrite (penalty_coeff_some O key c Hc). cbn [rbind].
  induction ks as [|k ks IH]; intros Hcap x.
  - simpl. apply Ok_Fin_eq. ring.
  - cbn [map for_each Spec.Rsum fold_right]. unfold Spec.overload at 1.
    destruct (FogCloudTopology.get_host (ObjectiveFunction.topology O) k)
      as [host|] eqn:Hhost.
    + rewrite py_div_nonzero by (apply (Hcap k); [left|done]).
      cbn [rbind].
      destruct (decide (1 < load k / capacity host)) as [Hu|Hu].
      * cbn [rbind fl_add].
        rewrite IH by (intros k' h' Hin; apply Hcap; by right).
        rewrite Rmax_right by lra. apply Ok_Fin_eq. unfold Spec.Rsum. ring.
      * cbn [rbind].
        rewrite IH by (intros k' h' Hin; apply Hcap; by right).
        rewrite Rmax_left by lra. apply Ok_Fin_eq. unfold Spec.Rsum. ring.
    + cbn [rbind]. rewrite IH by (intros k' h' Hin; apply Hcap; by right).
      apply Ok_Fin_eq. unfold Spec.Rsum. ring.
Qed.

Lemma Rsum_nonneg (l : list R) : Forall (fun x => 0 <= x) l -> 0 <= Spec.Rsum l.
Proof. induction 1; simpl; lra. Qed.

Lemma overload_nonneg (O : ObjectiveFunction.t) (capacity : Host -> R)
    (load : Z -> R) (h : Z) :
  0 <= Spec.overload O capacity load h.
Proof.
  unfold Spec.overload. destruct (FogCloudTopology.get_host _ h); [|lra].
  apply Rmax_l.
Qed.

(** A capacity check as a whole. *)
Lemma capacity_violations_value (O : ObjectiveFunction.t) (schedule : Schedule.t)
    (key : string) (capacity : Host -> R) (amount : Task.t -> R) (c x : R) :
  ObjectiveFunction.penalties O !! key = Some c ->
  (forall h host, h ∈ Spec.hosts_with_load (Spec.placements O schedule) ->
     FogCloudTopology.get_host (ObjectiveFunction.topology O) h = Some host ->
     capacity host <> 0) ->
  ObjectiveFunction.overload_penalty O key capacity
    (ObjectiveFunction.load_by_node O schedule amount) (Fin x) =
  Ok (Fin (x + Spec.capacity_component O schedule c capacity amount)).
Proof.
  intros Hc Hcap. rewrite load_by_node_value.
  by rewrite (overload_penalty_value O key capacity c).
Qed.

(** ** Replica success probabilities *)

Lemma node_success_probability_value (host : Host) (t : pyfloat) :
  ReliabilityModel.node_success_probability host t =
  Ok (fl_exp (fl_mul (Fin (- (host_failure_rate host / 3600))) t)).
Proof.
  unfold ReliabilityModel.node_success_probability.
  rewrite py_div_nonzero by lra. done.
Qed.

Lemma replica_success_probs_finite (O : ObjectiveFunction.t) (task : Task.t)
    (a : Schedule.assignment) (missing : list R) :
  (forall n host, n ∈ Schedule.nodes a ->
     FogCloudTopology.get_host (ObjectiveFunction.topology O) n = Some host ->
     0 < host_cpu_mips host) ->
  ObjectiveFunction.replica_success_probs O task a (map Fin missing) =
  Ok (map Fin (Spec.replica_probabilities O task (Schedule.nodes a) missing)).
Proof.
  unfold ObjectiveFunction.replica_success_probs, Spec.replica_probabilities.
  set (body := fun (success_probs : list pyfloat) (node_id : Z) => _).
  set (probs := fun n : Z => _).
  intros Hpos.
  enough (Hgen : forall acc : list R,
            for_each body (Schedule.nodes a) (map Fin acc) =
            Ok (map Fin (acc ++ flat_map probs (Schedule.nodes a)))).
  { apply (Hgen []). }
  induction (Schedule.nodes a) as [|n ns IH]; intros acc.
  - cbn [for_each flat_map]. by rewrite app_nil_r.
  - cbn [for_each flat_map]. unfold body at 1, probs at 1.
    destruct (FogCloudTopology.get_host (ObjectiveFunction.topology O) n)
      as [host|] eqn:Hhost.
    + rewrite task_execution_time_value. cbn [rbind].
      rewrite node_success_probability_value.
      rewrite decide_True by (apply (Hpos n); [left|done]).
      cbn [rbind fl_mul fl_exp].
      change [Fin ?x] with (map Fin [x]). rewrite <- map_app.
      rewrite IH by (intros n' h' Hin; apply Hpos; by right).
      rewrite <- app_assoc. done.
    + cbn [rbind]. rewrite <- map_app.
      rewrite IH by (intros n' h' Hin; apply Hpos; by right).
      rewrite <- app_assoc. done.
Qed.

Lemma failure_product_finite (ps : list R) (x : R) :
  fold_left (fun fp p_succ => fl_mul fp (fl_sub (Fin 1) p_succ)) (map Fin ps) (Fin x)
  = Fin (fold_left (fun fp p => fp * (1 - p)) ps x).
Proof.
  revert x. induction ps as [|p ps IH]; intros x; simpl; [done|].
  by rewrite IH.
Qed.

Lemma task_success_finite (ps : list R) :
  ReliabilityModel.task_success_with_replication (map Fin ps)
  = Fin (Spec.replicated_success ps).
Proof.
  destruct ps as [|p ps]; [done|].
  unfold ReliabilityModel.task_success_with_replication, Spec.replicated_success.
  rewrite failure_product_finite. done.
Qed.

(** The reliability loop adds finite, non-negative amounts when the hosts in
    use have positive processing rates. *)
Lemma reliability_violations_finite (O : ObjectiveFunction.t)
    (schedule : Schedule.t) (c : R) :
  ObjectiveFunction.penalties O !! "reliability" = Some c ->
  0 <= c ->
  Spec.positive_rates O schedule ->
  forall x : R, exists y : R,
    x <= y /\
    ObjectiveFunction.reliability_violations O schedule (Fin x) = Ok (Fin y).
Proof.
  intros Hc Hc0. unfold ObjectiveFunction.reliability_violations, Spec.positive_rates.
  rewrite (penalty_coeff_some O "reliability" c Hc). cbn [rbind].
  set (body := fun (penalty : pyfloat) (task : Task.t) => _).
  induction (ObjectiveFunction.tasks O) as [|task tasks IH]; intros Hpos x.
  - exists x. split; [lra|done].
  - assert (Htl : forall task a n host, task ∈ tasks ->
       Schedule.assignments schedule !! Task.task_id task = Some a ->
       n ∈ Schedule.nodes a ->
       FogCloudTopology.get_host (ObjectiveFunction.topology O) n = Some host ->
       0 < host_cpu_mips host).
    { intros t a n h Hin. apply Hpos. by right. }
    specialize (IH Htl). cbn [for_each]. unfold body at 1.
    destruct (decide (Task.criticality task = 0%Z)) as [Hcrit|Hcrit].
    { cbn [rbind]. apply IH. }
    destruct (Schedule.assignments schedule !! Task.task_id task) as [a|] eqn:Ha.
    + assert (Hr := replica_success_probs_finite O task a []).
      cbn [map] in Hr. rewrite Hr by (intros n h; apply (Hpos task a); [left|done]).
      cbn [rbind]. rewrite task_success_finite.
      destruct (decide (fl_lt _ _)) as [Hlt|Hlt]; cbn [rbind fl_sub fl_neg fl_add fl_mul].
      * destruct (IH (x + c * (ObjectiveFunction.min_reliability +
                     - Spec.replicated_success
                         (Spec.replica_probabilities O task (Schedule.nodes a) []))))
          as (y & Hy & ->).
        exists y. split; [|done]. simpl in Hlt. nra.
      * apply IH.
    + cbn [rbind fl_add]. destruct (IH (x + c)) as (y & Hy & ->).
      exists y. split; [lra|done].
Qed.

(** ** Every task on one host *)

Lemma placements_all_on (O : ObjectiveFunction.t) (schedule : Schedule.t) (h : Z) :
  Spec.all_on O schedule h ->
  Spec.placements O schedule = map (fun t => (h, t)) (ObjectiveFunction.tasks O).
Proof.
  unfold Spec.all_on, Spec.placements.
  induction (ObjectiveFunction.tasks O) as [|task tasks IH]; intros Hall; [done|].
  cbn [flat_map map].
  destruct (Hall task) as (a & -> & ->); [left|].
  rewrite IH; [done|]. intros t Ht. apply Hall. by right.
Qed.

Lemma first_occurrences_seen (h : Z) (l : list Z) :
  Forall (fun k => k = h) l -> Spec.first_occurrences [h] l = [].
Proof.
  induction 1 as [|k l -> _ IH]; [done|].
  cbn [Spec.first_occurrences]. rewrite decide_True; [done | left].
Qed.

Lemma hosts_with_load_single (h : Z) (tasks : list Task.t) :
  tasks <> [] ->
  Spec.hosts_with_load (map (fun t => (h, t)) tasks) = [h].
Proof.
  destruct tasks as [|task tasks]; [done|]. intros _.
  unfold Spec.hosts_with_load. cbn [map fst Spec.first_occurrences].
  rewrite decide_False by apply not_elem_of_nil.
  rewrite first_occurrences_seen; [done|].
  clear. induction tasks as [|t ts IH]; constructor; done.
Qed.

Lemma total_assigned_single (amount : Task.t -> R) (h : Z) (tasks : list Task.t) :
  Spec.total_assigned amount (map (fun t => (h, t)) tasks) h
  = Spec.Rsum (map amount tasks).
Proof.
  induction tasks as [|task tasks IH]; [done|].
  cbn [map]. rewrite total_assigned_cons. cbn [fst snd].
  rewrite decide_True by done. rewrite IH. done.
Qed.

Lemma capacity_component_single (O : ObjectiveFunction.t) (schedule : Schedule.t)
    (c : R) (capacity : Host -> R) (amount : Task.t -> R) (h : Z) (host : Host) :
  Spec.all_on O schedule h ->
  ObjectiveFunction.tasks O <> [] ->
  FogCloudTopology.get_host (ObjectiveFunction.topology O) h = Some host ->
  Spec.capacity_component O schedule c capacity amount =
  c * Rmax 0 (Spec.Rsum (map amount (ObjectiveFunction.tasks O)) / capacity host - 1).
Proof.
  intros Hall Hne Hhost. unfold Spec.capacity_component.
  rewrite (placements_all_on O schedule h Hall).
  rewrite hosts_with_load_single by done.
  cbn [map Spec.Rsum fold_right]. unfold Spec.overload. rewrite Hhost.
  rewrite total_assigned_single. ring.
Qed.

Lemma hosts_with_load_all_on (O : ObjectiveFunction.t) (schedule : Schedule.t)
    (h k : Z) :
  Spec.all_on O schedule h ->
  k ∈ Spec.hosts_with_load (Spec.placements O schedule) -> k = h.
Proof.
  intros Hall. rewrite (placements_all_on O schedule h Hall).
  destruct (ObjectiveFunction.tasks O) as [|t ts] eqn:Hts.
  - intros []%elem_of_nil.
  - rewrite hosts_with_load_single by done.
    by intros [->|[]%elem_of_nil]%elem_of_cons.
Qed.

Lemma Rsum_positive_nonempty (l : list R) : 0 < Spec.Rsum l -> l <> [].
Proof. intros H ->. simpl in H. lra. Qed.

(** Where no loaded host has the capacity 0, the CPU loop of
    [penalty_function] adds the CPU coefficient times the sum, over the
    hosts with any assigned load, of max(0, assigned workload / capacity - 1);
    when every task is on one host whose positive capacity the combined
    workload exceeds, that is coefficient * (total load / capacity - 1) and
    the whole penalty is strictly positive. *)
Lemma cpu_component_formula (O : ObjectiveFunction.t) (schedule : Schedule.t)
    (penalty_cpu : R) :
  ObjectiveFunction.penalties O !! "cpu" = Some penalty_cpu ->
  ((forall h host,
      h ∈ Spec.hosts_with_load (Spec.placements O schedule) ->
      FogCloudTopology.get_host (ObjectiveFunction.topology O) h = Some host ->
      host_cpu_mips host <> 0) ->
   ObjectiveFunction.cpu_violations O schedule (Fin 0)
   = Ok (Fin (Spec.cpu_component O schedule penalty_cpu))) /\
  (forall (h : Z) (host : Host) (penalty_mem penalty_dl penalty_rel : R),
     ObjectiveFunction.penalties O !! "memory" = Some penalty_mem ->
     ObjectiveFunction.penalties O !! "deadline" = Some penalty_dl ->
     ObjectiveFunction.penalties O !! "reliability" = Some penalty_rel ->
     0 < penalty_cpu -> 0 <= penalty_mem -> 0 <= penalty_dl -> 0 <= penalty_rel ->
     FogCloudTopology.get_host (ObjectiveFunction.topology O) h = Some host ->
     Spec.all_on O schedule h ->
     host_memory_mb host <> 0 ->
     0 < host_cpu_mips host ->
     host_cpu_mips host
       < Spec.Rsum (map Task.workload_mi (ObjectiveFunction.tasks O)) ->
     ObjectiveFunction.cpu_violations O schedule (Fin 0)
     = Ok (Fin (penalty_cpu *
                (Spec.Rsum (map Task.workload_mi (ObjectiveFunction.tasks O))
                 / host_cpu_mips host - 1))) /\
     exists p : R,
       ObjectiveFunction.penalty_function O schedule = Ok (Fin p) /\ 0 < p).
Proof.
  intros Hcpu. split.
  - intros Hcap. unfold ObjectiveFunction.cpu_violations.
    rewrite (capacity_violations_value O schedule "cpu" host_cpu_mips
               Task.workload_mi penalty_cpu 0 Hcpu Hcap).
    apply Ok_Fin_eq. unfold Spec.cpu_component. lra.
  - intros h host pm pd pr Hmem Hdl Hrel Hc Hpm Hpd Hpr Hhost Hall Hmb Hrate Hover.
    set (total := Spec.Rsum (map Task.workload_mi (ObjectiveFunction.tasks O))) in *.
    assert (Hne : ObjectiveFunction.tasks O <> []).
    { intros Hnil. unfold total in Hover. rewrite Hnil in Hover. simpl in Hover. lra. }
    assert (Hu : 1 < total / host_cpu_mips host).
    { apply Rmult_lt_reg_r with (host_cpu_mips host); [done|].
      unfold Rdiv. rewrite Rmult_assoc, Rinv_l by lra. lra. }
    assert (Hcomp : ObjectiveFunction.cpu_violations O schedule (Fin 0)
                    = Ok (Fin (penalty_cpu * (total / host_cpu_mips host - 1)))).
    { unfold ObjectiveFunction.cpu_violations.
      rewrite (capacity_violations_value O schedule "cpu" host_cpu_mips
                 Task.workload_mi penalty_cpu 0 Hcpu).
      - rewrite (capacity_component_single O schedule penalty_cpu host_cpu_mips
                   Task.workload_mi h host Hall Hne Hhost).
        fold total. rewrite Rmax_right by lra. apply Ok_Fin_eq. lra.
      - intros k host' Hin Hk.
        apply (hosts_with_load_all_on O schedule h k Hall) in Hin as ->.
        rewrite Hhost in Hk. injection Hk as <-. lra. }
    split; [done|].
    unfold ObjectiveFunction.penalty_function. rewrite Hcomp. cbn [rbind].
    unfold ObjectiveFunction.memory_violations.
    rewrite (capacity_violations_value O schedule "memory" host_memory_mb
               Task.memory_requirement_mb pm _ Hmem).
    2:{ intros k host' Hin Hk.
        apply (hosts_with_load_all_on O schedule h k Hall) in Hin as ->.
        rewrite Hhost in Hk. by injection Hk as <-. }
    cbn [rbind].
    rewrite (deadline_violations_counts O schedule pd Hdl).
    2:{ intros task a n Htask Ha Hn _.
        destruct (Hall task Htask) as (a' & Ha' & Hnodes).
        rewrite Ha in Ha'. injection Ha' as <-. rewrite Hnodes in Hn.
        injection Hn as <-. by rewrite Hhost. }
    cbn [rbind].
    destruct (reliability_violations_finite O schedule pr Hrel Hpr) with
      (x := penalty_cpu * (total / host_cpu_mips host - 1)
            + Spec.capacity_component O schedule pm host_memory_mb
                Task.memory_requirement_mb
            + pd * INR (length (filter (Spec.deadline_hit O schedule)
                                       (ObjectiveFunction.tasks O))))
      as (y & Hy & ->).
    { intros task a n host' Htask Ha Hn Hk.
      destruct (Hall task Htask) as (a' & Ha' & Hnodes).
      rewrite Ha in Ha'. injection Ha' as <-. rewrite Hnodes in Hn.
      apply elem_of_cons in Hn as [->|[]%elem_of_nil].
      rewrite Hhost in Hk. by injection Hk as <-. }
    exists y. split; [done|].
    assert (0 <= Spec.capacity_component O schedule pm host_memory_mb
                   Task.memory_requirement_mb).
    { unfold Spec.capacity_component. apply Rmult_le_pos; [done|].
      apply Rsum_nonneg.
      induction (Spec.hosts_with_load (Spec.placements O schedule));
        constructor; [apply overload_nonneg | done]. }
    assert (0 <= pd * INR (length (filter (Spec.deadline_hit O schedule)
                                          (ObjectiveFunction.tasks O)))).
    { apply Rmult_le_pos; [done | apply pos_INR]. }
    assert (0 < penalty_cpu * (total / host_cpu_mips host - 1)).
    { apply Rmult_lt_0_compat; lra. }
    lra.
Qed.

Lemma crowded_host :
  FogCloudTopology.get_host (ObjectiveFunction.topology Scenario.crowded_objective) 1
  = Some (HFog (Scenario.fog 1 2000 2048 (1 / 10000))).
Proof. unfold FogCloudTopology.get_host. cbn. by rewrite lookup_insert_eq. Qed.

Lemma crowded_all_on :
  Spec.all_on Scenario.crowded_objective Scenario.all_on_node_one 1.
Proof.
  intros task Htask. exists (Schedule.mk_assignment [1%Z] 2). split; [|done].
  cbn in Htask.
  apply elem_of_cons in Htask as [->|Htask];
    [|apply elem_of_cons in Htask as [->|[]%elem_of_nil]]; cbn.
  - rewrite lookup_insert_ne by done. by rewrite lookup_insert_eq.
  - by rewrite lookup_insert_eq.
Qed.

Lemma cpu_component_formula_witness :
  ObjectiveFunction.cpu_violations
    Scenario.crowded_objective Scenario.all_on_node_one (Fin 0)
  = Ok (Fin (Spec.cpu_component
               Scenario.crowded_objective Scenario.all_on_node_one 10000)) /\
  ObjectiveFunction.cpu_violations
    Scenario.crowded_objective Scenario.all_on_node_one (Fin 0)
  = Ok (Fin (10000 * ((1500 + (1500 + 0)) / 2000 - 1))) /\
  exists p : R,
    ObjectiveFunction.penalty_function
      Scenario.crowded_objective Scenario.all_on_node_one = Ok (Fin p) /\ 0 < p.
Proof.
  destruct (cpu_component_formula
              Scenario.crowded_objective Scenario.all_on_node_one 10000)
    as [Hgen Hpart]; [reflexivity|].
  split.
  - apply Hgen. intros h host Hin Hhost.
    apply (hosts_with_load_all_on _ _ 1 h crowded_all_on) in Hin as ->.
    rewrite crowded_host in Hhost. injection Hhost as <-. cbn. lra.
  - apply (Hpart 1%Z (HFog (Scenario.fog 1 2000 2048 (1 / 10000)))
                 10000 100000 100000).
    + reflexivity.
    + reflexivity.
    + reflexivity.
    + lra.
    + lra.
    + lra.
    + lra.
    + apply crowded_host.
    + apply crowded_all_on.
    + cbn. lra.
    + cbn. lra.
    + cbn. lra.
Defined.

(** C5. On a fog node of capacity 0 that carries the one task, the CPU
    loop of [penalty_function] divides the load by the capacity without a
    guard and raises [ZeroDivisionError]: no penalty is returned, where the
    claim gives a strictly positive one for a host whose capacity the
    workload exceeds.  [check_cpu_capacity] guards the same division and
    returns on this input. *)
Theorem cpu_component_raises_on_zero_capacity :
  Spec.all_on Scenario.stalled_objective Scenario.on_node_zero 0 /\
  FogCloudTopology.get_host Scenario.stalled_topology 0
  = Some (HFog (Scenario.fog 0 0 2048 0)) /\
  host_cpu_mips (HFog (Scenario.fog 0 0 2048 0))
  < Spec.Rsum (map Task.workload_mi
                   (ObjectiveFunction.tasks Scenario.stalled_objective)) /\
  ObjectiveFunction.cpu_violations
    Scenario.stalled_objective Scenario.on_node_zero (Fin 0)
  = Raise ZeroDivisionError /\
  ObjectiveFunction.penalty_function
    Scenario.stalled_objective Scenario.on_node_zero
  = Raise ZeroDivisionError /\
  ConstraintHandler.check_cpu_capacity Scenario.stalled_topology
    (Plain.of_schedule Scenario.on_node_zero)
    (ObjectiveFunction.tasks Scenario.stalled_objective)
  = Ok (true, [(0%Z, 0 + 1000)]).
Proof.
  assert (Hhost : FogCloudTopology.get_host Scenario.stalled_topology 0
                  = Some (HFog (Scenario.fog 0 0 2048 0))).
  { unfold FogCloudTopology.get_host. cbn. by rewrite lookup_insert_eq. }
  assert (Hentry : Schedule.assignments Scenario.on_node_zero !! 0%Z
                   = Some (Schedule.mk_assignment [0%Z] 2)).
  { cbn. by rewrite lookup_insert_eq. }
  assert (Hcpu : ObjectiveFunction.cpu_violations
                   Scenario.stalled_objective Scenario.on_node_zero (Fin 0)
                 = Raise ZeroDivisionError).
  { unfold ObjectiveFunction.cpu_violations, ObjectiveFunction.load_by_node.
    cbn [Scenario.stalled_objective ObjectiveFunction.init ObjectiveFunction.tasks
         fold_left Scenario.long_task Scenario.task Task.task_id].
    rewrite Hentry.
    cbn [Schedule.nodes fold_left ObjectiveFunction.dict_add Task.workload_mi].
    unfold ObjectiveFunction.overload_penalty. cbn [for_each].
    change (ObjectiveFunction.topology Scenario.stalled_objective)
      with Scenario.stalled_topology.
    rewrite Hhost.
    cbn [host_cpu_mips Scenario.fog FogNode.cpu_mips]. unfold py_div.
    by rewrite decide_True by done. }
  split; [|split; [done|split; [|split; [done|split]]]].
  - intros task [->|[]%elem_of_nil]%elem_of_cons.
    exists (Schedule.mk_assignment [0%Z] 2). by split.
  - cbn. lra.
  - unfold ObjectiveFunction.penalty_function. by rewrite Hcpu.
  - unfold ConstraintHandler.check_cpu_capacity,
      ConstraintHandler.utilization_by_node.
    cbn [Scenario.stalled_objective ObjectiveFunction.init ObjectiveFunction.tasks
         for_each Scenario.long_task Scenario.task Task.task_id].
    unfold Plain.of_schedule. rewrite lookup_fmap, Hentry.
    cbn [fmap option_fmap option_map Plain.of_assignment Plain.get_nodes
         Plain.nodes Schedule.nodes rbind fold_left].
    rewrite Hhost.
    cbn [ObjectiveFunction.dict_add Task.workload_mi rbind].
    unfold ConstraintHandler.utilization_ratios. cbn [for_each].
    rewrite Hhost. cbn [host_cpu_mips Scenario.fog FogNode.cpu_mips].
    by rewrite decide_False by lra.
Qed.

(** ** System reliability *)

Lemma exp_nonpos_le_1 (x : R) : x <= 0 -> 0 < exp x <= 1.
Proof.
  intros Hx. split; [apply exp_pos|].
  destruct (Req_dec x 0) as [->|Hne].
  - rewrite exp_0. lra.
  - rewrite <- exp_0. left. apply exp_increasing. lra.
Qed.

Lemma success_probability_bounds (host : Host) (task : Task.t) :
  0 <= host_failure_rate host -> 0 <= Task.workload_mi task ->
  0 < host_cpu_mips host ->
  0 <= Spec.success_probability host task <= 1.
Proof.
  intros Hl Hw Hc. unfold Spec.success_probability.
  assert (0 <= Task.workload_mi task / host_cpu_mips host).
  { apply Rmult_le_pos; [done|]. left. by apply Rinv_0_lt_compat. }
  destruct (exp_nonpos_le_1
              (- (host_failure_rate host / 3600)
               * (Task.workload_mi task / host_cpu_mips host))); [nra | lra].
Qed.

Lemma failure_product_bounds (ps : list R) (x : R) :
  Forall (fun p => 0 <= p <= 1) ps -> 0 <= x <= 1 ->
  0 <= fold_left (fun fp p => fp * (1 - p)) ps x <= 1.
Proof.
  intros Hps. revert x. induction Hps as [|p ps Hp _ IH]; intros x Hx; [done|].
  cbn [fold_left]. apply IH. nra.
Qed.

Lemma replicated_success_bounds (ps : list R) :
  Forall (fun p => 0 <= p <= 1) ps -> 0 <= Spec.replicated_success ps <= 1.
Proof.
  intros Hps. unfold Spec.replicated_success. destruct ps as [|p ps]; [lra|].
  destruct (failure_product_bounds (p :: ps) 1 Hps); lra.
Qed.

Lemma replica_probabilities_bounds (O : ObjectiveFunction.t) (task : Task.t)
    (node_ids : list Z) :
  0 <= Task.workload_mi task ->
  (forall n host, n ∈ node_ids ->
     FogCloudTopology.get_host (ObjectiveFunction.topology O) n = Some host ->
     0 <= host_failure_rate host /\ 0 < host_cpu_mips host) ->
  Forall (fun p => 0 <= p <= 1) (Spec.replica_probabilities O task node_ids [0]).
Proof.
  intros Hw. unfold Spec.replica_probabilities.
  induction node_ids as [|n ns IH]; intros Hhosts; [constructor|].
  cbn [flat_map]. apply Forall_app. split.
  - destruct (FogCloudTopology.get_host (ObjectiveFunction.topology O) n)
      as [host|] eqn:Hhost.
    + constructor; [|constructor].
      destruct (Hhosts n host) as [Hl Hc]; [left|done|].
      by apply success_probability_bounds.
    + constructor; [lra|constructor].
  - apply IH. intros n' h' Hin. apply Hhosts. by right.
Qed.

(** The value [system_reliability] returns lies in [0, 1] when every host in
    use has a positive processing rate and a non-negative failure rate and
    no workload is negative. *)
Lemma system_reliability_bounds (O : ObjectiveFunction.t) (schedule : Schedule.t) :
  Spec.positive_rates O schedule ->
  (forall n host,
     FogCloudTopology.get_host (ObjectiveFunction.topology O) n = Some host ->
     0 <= host_failure_rate host) ->
  (forall task, task ∈ ObjectiveFunction.tasks O -> 0 <= Task.workload_mi task) ->
  exists r : R,
    ObjectiveFunction.system_reliability O schedule = Ok (Fin r) /\ 0 <= r <= 1.
Proof.
  intros Hrate Hfail Hwork. unfold ObjectiveFunction.system_reliability.
  destruct (ObjectiveFunction.tasks O) as [|t0 ts] eqn:Hts.
  { exists 0. split; [done|lra]. }
  rewrite <- Hts in Hwork |- *. unfold Spec.positive_rates in Hrate.
  set (body := fun (total : pyfloat) (task : Task.t) => _).
  assert (Hloop : forall tasks (x : R),
            (forall task, task ∈ tasks -> task ∈ ObjectiveFunction.tasks O) ->
            exists y : R, for_each body tasks (Fin x) = Ok (Fin y) /\
                          x <= y <= x + INR (length tasks)).
  { induction tasks as [|task tasks IH]; intros x Hsub.
    - exists x. split; [done|]. simpl. lra.
    - cbn [for_each]. unfold body at 1.
      assert (Htask : task ∈ ObjectiveFunction.tasks O) by (apply Hsub; left).
      assert (Htl : forall t, t ∈ tasks -> t ∈ ObjectiveFunction.tasks O).
      { intros t Ht. apply Hsub. by right. }
      cbn [length]. rewrite S_INR.
      destruct (Schedule.assignments schedule !! Task.task_id task) as [a|] eqn:Ha.
      + assert (Hr := replica_success_probs_finite O task a [0]).
        cbn [map] in Hr. rewrite Hr by (intros n h; by apply (Hrate task a)).
        cbn [rbind]. rewrite task_success_finite. cbn [fl_add].
        destruct (replicated_success_bounds
                    (Spec.replica_probabilities O task (Schedule.nodes a) [0])).
        { apply replica_probabilities_bounds; [by apply Hwork|].
          intros n h Hn Hh. split; [by apply (Hfail n)|by apply (Hrate task a n)]. }
        destruct (IH (x + Spec.replicated_success
                            (Spec.replica_probabilities O task (Schedule.nodes a) [0]))
                     Htl) as (y & -> & Hy).
        exists y. split; [done|lra].
      + cbn [rbind fl_add]. destruct (IH (x + 0) Htl) as (y & -> & Hy).
        exists y. split; [done|lra]. }
  destruct (Hloop (ObjectiveFunction.tasks O) 0) as (y & -> & Hy); [done|].
  cbn [rbind fl_div].
  assert (Hn : 0 < INR (length (ObjectiveFunction.tasks O))).
  { rewrite Hts. cbn [length]. rewrite S_INR. pose proof (pos_INR (length ts)). lra. }
  rewrite decide_False by lra.
  exists (y / INR (length (ObjectiveFunction.tasks O))). split; [done|].
  split.
  - apply Rmult_le_pos; [lra|]. left. by apply Rinv_0_lt_compat.
  - apply Rmult_le_reg_r with (INR (length (ObjectiveFunction.tasks O))); [done|].
    unfold Rdiv. rewrite Rmult_assoc, Rinv_l by lra. lra.
Qed.

(** C4. On a fog node whose failure rate and processing rate are both 0 the
    execution time is infinite, the exponent [-0 * inf] is NaN, and
    [system_reliability] returns NaN, which is not in [0, 1]; the failure
    rates and workloads of this input are non-negative and its task set is
    not empty. *)
Theorem system_reliability_nan_on_stalled_host :
  (forall n host,
     FogCloudTopology.get_host Scenario.stalled_topology n = Some host ->
     0 <= host_failure_rate host) /\
  (forall task, task ∈ ObjectiveFunction.tasks Scenario.stalled_objective ->
     0 <= Task.workload_mi task) /\
  ObjectiveFunction.tasks Scenario.stalled_objective <> [] /\
  ObjectiveFunction.system_reliability Scenario.stalled_objective Scenario.on_node_zero
  = Ok NaN /\
  ~ (fl_le (Fin 0) NaN /\ fl_le NaN (Fin 1)).
Proof.
  assert (Hhost : FogCloudTopology.get_host Scenario.stalled_topology 0
                  = Some (HFog (Scenario.fog 0 0 2048 0))).
  { unfold FogCloudTopology.get_host. cbn. by rewrite lookup_insert_eq. }
  split; [|split; [|split; [|split]]].
  - intros n host. unfold FogCloudTopology.get_host. cbn.
    destruct (decide (n = 0%Z)) as [->|Hn].
    + rewrite lookup_insert_eq. intros [= <-]. cbn. lra.
    + rewrite lookup_insert_ne by done. rewrite !lookup_empty. done.
  - intros task [->|[]%elem_of_nil]%elem_of_cons. cbn. lra.
  - done.
  - unfold ObjectiveFunction.system_reliability.
    cbn [Scenario.stalled_objective ObjectiveFunction.init ObjectiveFunction.tasks
         for_each Scenario.long_task Scenario.task Task.task_id length].
    replace (Schedule.assignments Scenario.on_node_zero !! 0%Z)
      with (Some (Schedule.mk_assignment [0%Z] 2))
      by (cbn; by rewrite lookup_insert_eq).
    unfold ObjectiveFunction.replica_success_probs.
    cbn [Schedule.nodes for_each].
    change (ObjectiveFunction.topology Scenario.stalled_objective)
      with Scenario.stalled_topology.
    rewrite Hhost.
    rewrite task_execution_time_value. cbn [rbind].
    rewrite node_success_probability_value.
    cbn [host_cpu_mips host_failure_rate Scenario.fog FogNode.cpu_mips
         FogNode.failure_rate].
    rewrite (decide_False (P := 0 < 0)) by lra.
    cbn [fl_mul]. unfold fl_scale_inf. rdecide.
    cbn [fl_exp rbind app ReliabilityModel.task_success_with_replication fold_left
         fl_sub fl_neg fl_mul fl_add fl_div INR].
    by rewrite decide_False by lra.
  - intros [[] _].
Qed.

(** ** Computations on an object's state *)

Lemma mbind_ok {S A B : Type} (m : M S A) (k : A -> M S B) (s s' : S) (a : A) :
  m s = (Ok a, s') -> mbind m k s = k a s'.
Proof. intros H. unfold mbind. by rewrite H. Qed.

Lemma mbind_raise {S A B : Type} (m : M S A) (k : A -> M S B) (s s' : S) (e : exn) :
  m s = (Raise e, s') -> mbind m k s = (Raise e, s').
Proof. intros H. unfold mbind. by rewrite H. Qed.

Lemma readonly_mret {S A : Type} (a : A) : readonly (@mret S A a).
Proof. done. Qed.

Lemma readonly_mgets {S A : Type} (f : S -> A) : readonly (mgets f).
Proof. done. Qed.

Lemma readonly_mlift {S A : Type} (r : result A) : readonly (@mlift S A r).
Proof. done. Qed.

Lemma readonly_mbind {S A B : Type} (m : M S A) (k : A -> M S B) :
  readonly m -> (forall a, readonly (k a)) -> readonly (mbind m k).
Proof.
  intros Hm Hk s. unfold mbind. specialize (Hm s).
  destruct (m s) as [[a|e] s']; simpl in *; subst; [apply Hk | done].
Qed.

Lemma readonly_mfold {S A B : Type} (body : B -> A -> M S B) (l : list A) (b : B) :
  (forall b x, readonly (body b x)) -> readonly (mfold body l b).
Proof.
  intros Hbody. revert b. induction l as [|x l IH]; intros b; cbn [mfold].
  - apply readonly_mret.
  - apply readonly_mbind; [apply Hbody | apply IH].
Qed.

Create HintDb readonly.
#[local] Hint Resolve readonly_mret readonly_mgets readonly_mlift : readonly.

Ltac readonly_tac :=
  repeat first
    [ apply readonly_mret | apply readonly_mgets | apply readonly_mlift
    | apply readonly_mfold; intros
    | apply readonly_mbind; [|intros] ].

(** ** Decoding a position *)

Lemma readonly_decode_task (schedule : gmap nat (list Z * R)) (j : nat) :
  readonly (Wolf.decode_task schedule j).
Proof. unfold Wolf.decode_task, Wolf.coordinate. readonly_tac. Qed.

Lemma readonly_decode_position : readonly Wolf.decode_position.
Proof.
  unfold Wolf.decode_position. readonly_tac.
Qed.

(** C7. [decode_position] leaves the wolf as it found it, and a second call
    right after the first returns the same outcome (the same schedule, or
    the same exception). *)
Theorem decode_position_pure (w : Wolf.t) :
  let '(r1, w1) := Wolf.decode_position w in
  let '(r2, w2) := Wolf.decode_position w1 in
  r1 = r2 /\ w1 = w /\ w2 = w.
Proof.
  pose proof (readonly_decode_position w) as H1.
  destruct (Wolf.decode_position w) as [r1 w1] eqn:E1. simpl in H1. subst w1.
  rewrite E1. done.
Qed.

Lemma py_mod_nonzero (a b : Z) : b <> 0%Z -> py_mod a b = Ok (a mod b)%Z.
Proof. intros Hb. unfold py_mod. by rewrite decide_False. Qed.

Lemma decode_replicas (w : Wolf.t) (node_id : Z) (rs : list Z) (acc : list Z) :
  Wolf.num_hosts w <> 0%Z ->
  mfold (fun node_ids r =>
           self_num_hosts <-m mgets Wolf.num_hosts ;;
           alt_node <-m mlift (py_mod (node_id + r) self_num_hosts) ;;
           mret (node_ids ++ [alt_node]))
        rs acc w
  = (Ok (acc ++ map (fun r => ((node_id + r) mod Wolf.num_hosts w)%Z) rs), w).
Proof.
  intros Hnh. revert acc. induction rs as [|r rs IH]; intros acc; cbn [mfold map].
  - by rewrite app_nil_r.
  - unfold mbind at 1. unfold mbind at 1. cbn [mgets]. unfold mbind at 1.
    cbn [mlift]. rewrite py_mod_nonzero by done. cbn [mret].
    rewrite IH. by rewrite <- app_assoc.
Qed.

Lemma coordinate_value (w : Wolf.t) (idx : nat) (dflt : R) :
  Wolf.coordinate idx dflt w = (Ok (default dflt (Wolf.position w !! idx)), w).
Proof. reflexivity. Qed.

Lemma decode_task_value (w : Wolf.t) (schedule : gmap nat (list Z * R)) (j : nat) :
  Wolf.num_hosts w <> 0%Z ->
  Wolf.decode_task schedule j w = (Ok (<[j := Spec.decoded_entry w j]> schedule), w).
Proof.
  intros Hnh. unfold Wolf.decode_task. cbv zeta.
  erewrite mbind_ok by apply coordinate_value.
  erewrite mbind_ok by reflexivity.
  erewrite mbind_ok by (unfold mlift; rewrite py_mod_nonzero by done; reflexivity).
  erewrite mbind_ok by apply coordinate_value.
  erewrite mbind_ok by apply coordinate_value.
  erewrite mbind_ok by (by apply decode_replicas).
  reflexivity.
Qed.

Lemma decode_tasks_value (w : Wolf.t) (js : list nat)
    (schedule : gmap nat (list Z * R)) :
  Wolf.num_hosts w <> 0%Z ->
  mfold Wolf.decode_task js schedule w
  = (Ok (fold_left (fun s j => <[j := Spec.decoded_entry w j]> s) js schedule), w).
Proof.
  intros Hnh. revert schedule. induction js as [|j js IH]; intros schedule; [done|].
  cbn [mfold fold_left].
  rewrite (mbind_ok _ _ _ _ _ (decode_task_value w schedule j Hnh)). apply IH.
Qed.

Lemma lookup_fold_insert {V : Type} (e : nat -> V) (js : list nat)
    (s : gmap nat V) (j : nat) :
  fold_left (fun s j => <[j := e j]> s) js s !! j
  = if decide (j ∈ js) then Some (e j) else s !! j.
Proof.
  revert s. induction js as [|k js IH]; intros s; cbn [fold_left].
  - rewrite decide_False; [done | apply not_elem_of_nil].
  - rewrite IH. destruct (decide (j ∈ js)) as [Hin|Hin].
    + rewrite decide_True; [done | by right].
    + destruct (decide (k = j)) as [->|Hne].
      * rewrite lookup_insert_eq. rewrite decide_True; [done | left].
      * rewrite lookup_insert_ne by done. rewrite decide_False; [done|].
        intros [?|?]%elem_of_cons; congruence.
Qed.

(** What [decode_position] returns when [num_hosts] is not zero. *)
Lemma decode_position_value (w : Wolf.t) :
  Wolf.num_hosts w <> 0%Z ->
  exists schedule,
    Wolf.decode_position w = (Ok schedule, w) /\
    forall j : nat,
      schedule !! j =
      if decide (j < Z.to_nat (Wolf.num_tasks w))%nat
      then Some (Spec.decoded_entry w j) else None.
Proof.
  intros Hnh. eexists. split.
  - unfold Wolf.decode_position. unfold mbind at 1. cbn [mgets].
    apply decode_tasks_value, Hnh.
  - intros j. rewrite lookup_fold_insert, lookup_empty.
    destruct (decide (j < Z.to_nat (Wolf.num_tasks w))%nat) as [Hj|Hj].
    + rewrite decide_True; [done|]. apply elem_of_seq. lia.
    + rewrite decide_False; [done|]. rewrite elem_of_seq. lia.
Qed.

(** [np.round] returns a nearest integer. *)
Lemma np_round_nearest (x : R) : Rabs (x - IZR (np_round x)) <= 1 / 2.
Proof.
  unfold np_round. pose proof (Zfloor_bound x) as [Hlo Hhi].
  repeat case_decide; try destruct (Z.even _);
    rewrite ?plus_IZR; apply Rabs_le; lra.
Qed.

Example np_round_tie_down : np_round (5 / 2) = 2%Z.
Proof.
  unfold np_round. rewrite (Zfloor_eq 2) by lra. by rdecide.
Qed.

Example np_round_tie_up : np_round (7 / 2) = 4%Z.
Proof.
  unfold np_round. rewrite (Zfloor_eq 3) by lra. by rdecide.
Qed.

Example np_round_negative : np_round (- (17 / 10)) = (-2)%Z.
Proof.
  unfold np_round. rewrite (Zfloor_eq (-2)) by lra. by rdecide.
Qed.

Lemma clip_bounds (x lo hi : R) : lo <= hi -> lo <= clip x lo hi <= hi.
Proof.
  intros H. unfold clip, Rmin, Rmax.
  repeat destruct (Rle_dec _ _); lra.
Qed.

(** C8. With [num_hosts > 0] and a position of at least [3 * num_tasks]
    coordinates, [decode_position] returns a schedule that maps every task
    index below [num_tasks] to a replica list of
    clamp(round(position[3j+1]), 1, 3) hosts, all in [0, num_hosts), and to
    the frequency clamp(position[3j+2], 0.4, 2.0), which is in [0.4, 2.0]. *)
Theorem decode_position_schedule (w : Wolf.t) :
  (0 < Wolf.num_hosts w)%Z ->
  (3 * Wolf.num_tasks w <= Z.of_nat (length (Wolf.position w)))%Z ->
  exists schedule : gmap nat (list Z * R),
    Wolf.decode_position w = (Ok schedule, w) /\
    forall j : nat, (Z.of_nat j < Wolf.num_tasks w)%Z ->
      exists (node_ids : list Z) (frequency_ghz x_repl x_freq : R),
        schedule !! j = Some (node_ids, frequency_ghz) /\
        Wolf.position w !! (3 * j + 1)%nat = Some x_repl /\
        Wolf.position w !! (3 * j + 2)%nat = Some x_freq /\
        node_ids <> [] /\
        Z.of_nat (length node_ids) = Z.max 1 (Z.min 3 (np_round x_repl)) /\
        (1 <= length node_ids <= 3)%nat /\
        Forall (fun h => (0 <= h < Wolf.num_hosts w)%Z) node_ids /\
        frequency_ghz = clip x_freq (4 / 10) 2 /\
        4 / 10 <= frequency_ghz <= 2.
Proof.
  intros Hnh Hlen.
  destruct (decode_position_value w) as (schedule & Hdec & Hlook); [lia|].
  exists schedule. split; [done|]. intros j Hj.
  destruct (lookup_lt_is_Some_2 (Wolf.position w) (3 * j + 1)) as [x_repl Hr]; [lia|].
  destruct (lookup_lt_is_Some_2 (Wolf.position w) (3 * j + 2)) as [x_freq Hf]; [lia|].
  exists (fst (Spec.decoded_entry w j)), (snd (Spec.decoded_entry w j)), x_repl, x_freq.
  split.
  { rewrite Hlook. rewrite decide_True by lia. by destruct (Spec.decoded_entry w j). }
  unfold Spec.decoded_entry, Spec.decoded_replication. rewrite Hr, Hf.
  cbn [fst snd]. change (default 1 (Some x_repl)) with x_repl.
  change (default 2 (Some x_freq)) with x_freq.
  set (repl := Z.max 1 (Z.min 3 (np_round x_repl))).
  assert (Hrepl : (1 <= repl <= 3)%Z) by (unfold repl; lia).
  assert (Hlength : length (Spec.decoded_node w j ::
            map (fun r => ((Spec.decoded_node w j + r) mod Wolf.num_hosts w)%Z)
                (seqZ 1 (repl - 1))) = Z.to_nat repl).
  { cbn [length]. rewrite length_map, length_seqZ. lia. }
  repeat split; try done.
  - rewrite Hlength. lia.
  - rewrite Hlength. lia.
  - rewrite Hlength. lia.
  - constructor.
    + unfold Spec.decoded_node. apply Z.mod_pos_bound. lia.
    + apply Forall_forall. intros h (r & -> & _)%list_elem_of_fmap.
      apply Z.mod_pos_bound. lia.
  - apply clip_bounds. lra.
  - apply clip_bounds. lra.
Qed.

Lemma decode_position_schedule_witness :
  exists schedule : gmap nat (list Z * R),
    Wolf.decode_position Scenario.sample_wolf = (Ok schedule, Scenario.sample_wolf) /\
    forall j : nat, (Z.of_nat j < Wolf.num_tasks Scenario.sample_wolf)%Z ->
      exists (node_ids : list Z) (frequency_ghz x_repl x_freq : R),
        schedule !! j = Some (node_ids, frequency_ghz) /\
        Wolf.position Scenario.sample_wolf !! (3 * j + 1)%nat = Some x_repl /\
        Wolf.position Scenario.sample_wolf !! (3 * j + 2)%nat = Some x_freq /\
        node_ids <> [] /\
        Z.of_nat (length node_ids) = Z.max 1 (Z.min 3 (np_round x_repl)) /\
        (1 <= length node_ids <= 3)%nat /\
        Forall (fun h => (0 <= h < Wolf.num_hosts Scenario.sample_wolf)%Z) node_ids /\
        frequency_ghz = clip x_freq (4 / 10) 2 /\
        4 / 10 <= frequency_ghz <= 2.
Proof.
  apply (decode_position_schedule Scenario.sample_wolf); simpl; lia.
Defined.

(** The host coordinate -1.7 rounds to -2, which wraps to host 1 of 3; the
    replication coordinate 2.6 gives three replicas; the frequency 3.0 is
    clamped to 2.0. *)
Example decode_sample_wolf :
  Spec.decoded_entry Scenario.sample_wolf 0 = ([1; 2; 0]%Z, 2).
Proof.
  unfold Spec.decoded_entry, Spec.decoded_replication, Spec.decoded_node.
  cbn [Scenario.sample_wolf Wolf.init Wolf.position Wolf.num_hosts lookup
       list_lookup Nat.mul Nat.add].
  change (default 0 (Some (- (17 / 10)))) with (- (17 / 10)).
  change (default 1 (Some (26 / 10))) with (26 / 10).
  change (default 2 (Some 3)) with 3.
  rewrite np_round_negative.
  assert (np_round (26 / 10) = 3%Z) as ->.
  { unfold np_round. rewrite (Zfloor_eq 2) by lra. by rdecide. }
  f_equal. unfold clip, Rmin, Rmax. repeat destruct (Rle_dec _ _); lra.
Qed.

(** ** The memory coefficient *)

Lemma memory_coefficient_linear (s : MDGWO.t) (t : Z) :
  MDGWO.memory_decay s <> "exponential" ->
  MDGWO._memory_coefficient t s
  = (Ok (1 - IZR t / IZR (Z.max 1 (MDGWO.max_iterations s))), s).
Proof.
  intros Hd. unfold MDGWO._memory_coefficient.
  erewrite mbind_ok by reflexivity. erewrite mbind_ok by reflexivity.
  assert (Hne : IZR (Z.max 1 (MDGWO.max_iterations s)) <> 0).
  { apply not_0_IZR. lia. }
  destruct (decide (MDGWO.memory_decay s = "linear")).
  - erewrite mbind_ok by (unfold mlift; rewrite py_div_nonzero by done; reflexivity).
    done.
  - rewrite decide_False by done.
    erewrite mbind_ok by (unfold mlift; rewrite py_div_nonzero by done; reflexivity).
    done.
Qed.

Lemma memory_coefficient_exponential (s : MDGWO.t) (t : Z) :
  MDGWO.memory_decay s = "exponential" ->
  MDGWO.max_iterations s <> 0%Z ->
  MDGWO._memory_coefficient t s
  = (Ok (exp (- (2 / IZR (MDGWO.max_iterations s)) * IZR t)), s).
Proof.
  intros Hd Hm. unfold MDGWO._memory_coefficient.
  erewrite mbind_ok by reflexivity. erewrite mbind_ok by reflexivity.
  rewrite Hd. rewrite decide_False by done. rewrite decide_True by done.
  erewrite mbind_ok
    by (unfold mlift; rewrite py_div_nonzero by (by apply not_0_IZR); reflexivity).
  done.
Qed.

(** C9. With [max_iterations >= 1] the linear scheme gives eta(0) = 1 and
    eta(max_iterations) = 0, and the exponential scheme gives eta(0) = 1 and
    eta(t) = exp(-(2/max_iterations) * t), strictly decreasing in t. *)
Theorem memory_coefficient_schedule (s : MDGWO.t) :
  (1 <= MDGWO.max_iterations s)%Z ->
  (MDGWO.memory_decay s = "linear" ->
   MDGWO._memory_coefficient 0 s = (Ok 1, s) /\
   MDGWO._memory_coefficient (MDGWO.max_iterations s) s = (Ok 0, s)) /\
  (MDGWO.memory_decay s = "exponential" ->
   MDGWO._memory_coefficient 0 s = (Ok 1, s) /\
   (forall t : Z,
      MDGWO._memory_coefficient t s
      = (Ok (exp (- (2 / IZR (MDGWO.max_iterations s)) * IZR t)), s)) /\
   (forall (t1 t2 : Z) (eta1 eta2 : R),
      (t1 < t2)%Z ->
      MDGWO._memory_coefficient t1 s = (Ok eta1, s) ->
      MDGWO._memory_coefficient t2 s = (Ok eta2, s) ->
      eta2 < eta1)).
Proof.
  intros HM.
  assert (HMpos : 0 < IZR (MDGWO.max_iterations s)) by (apply IZR_lt; lia).
  split.
  - intros Hd. rewrite !memory_coefficient_linear by (by rewrite Hd).
    rewrite Z.max_r by lia. split; do 2 f_equal; field; lra.
  - intros Hd.
    assert (Heta := fun t => memory_coefficient_exponential s t Hd ltac:(lia)).
    split; [|split].
    + rewrite Heta. do 2 f_equal. rewrite Rmult_0_r. apply exp_0.
    + done.
    + intros t1 t2 eta1 eta2 Hlt. rewrite !Heta. intros [= <-] [= <-].
      apply exp_increasing.
      assert (0 < 2 / IZR (MDGWO.max_iterations s)).
      { apply Rdiv_lt_0_compat; lra. }
      apply IZR_lt in Hlt. nra.
Qed.

Lemma memory_coefficient_schedule_witness :
  (MDGWO._memory_coefficient 0 Scenario.linear_optimizer
   = (Ok 1, Scenario.linear_optimizer) /\
   MDGWO._memory_coefficient 200 Scenario.linear_optimizer
   = (Ok 0, Scenario.linear_optimizer)) /\
  MDGWO._memory_coefficient 0 Scenario.exponential_optimizer
  = (Ok 1, Scenario.exponential_optimizer) /\
  exp (- (2 / 200) * 2) < exp (- (2 / 200) * 1).
Proof.
  split; [|split].
  - apply (memory_coefficient_schedule Scenario.linear_optimizer);
      [simpl; lia | reflexivity].
  - apply (memory_coefficient_schedule Scenario.exponential_optimizer);
      [simpl; lia | reflexivity].
  - destruct (memory_coefficient_schedule Scenario.exponential_optimizer)
      as [_ Hexp]; [simpl; lia|].
    destruct Hexp as (_ & Heta & Hdec); [reflexivity|].
    apply (Hdec 1%Z 2%Z); [lia | apply Heta | apply Heta].
Defined.

(** ** Frames of the optimizer's methods *)

Lemma np_zip_same_length (f : R -> R -> R) (a b : list R) :
  length a = length b -> np_zip f a b = Ok (zip_with f a b).
Proof. intros H. unfold np_zip. by rewrite decide_True. Qed.

Lemma readonly_mraise {S A : Type} (e : exn) : readonly (@mraise S A e).
Proof. done. Qed.

Lemma preserves_readonly {S A : Type} (R : S -> S -> Prop) (m : M S A) :
  (forall s, R s s) -> readonly m -> preserves R m.
Proof. intros Hrefl Hm s. rewrite Hm. apply Hrefl. Qed.

Lemma preserves_mbind {S A B : Type} (R : S -> S -> Prop) (m : M S A)
    (k : A -> M S B) :
  (forall x y z, R x y -> R y z -> R x z) ->
  preserves R m -> (forall a, preserves R (k a)) -> preserves R (mbind m k).
Proof.
  intros Htrans Hm Hk s. unfold mbind. specialize (Hm s).
  destruct (m s) as [[a|e] s']; simpl in *; [|done].
  eapply Htrans; [apply Hm | apply Hk].
Qed.

Lemma preserves_mfor {S A : Type} (R : S -> S -> Prop) (l : list A)
    (body : A -> M S unit) :
  (forall s, R s s) -> (forall x y z, R x y -> R y z -> R x z) ->
  (forall x, preserves R (body x)) -> preserves R (mfor l body).
Proof.
  intros Hrefl Htrans Hbody. induction l as [|x l IH]; cbn [mfor].
  - intros s. apply Hrefl.
  - apply preserves_mbind; [done | apply Hbody | intros _; apply IH].
Qed.

(** Break a computation into its reads. *)
Ltac readonly_step :=
  first
    [ apply readonly_mret | apply readonly_mgets | apply readonly_mlift
    | apply readonly_mraise
    | apply readonly_mfold; intros
    | apply readonly_mbind; [|intros]
    | match goal with
      | |- readonly (match ?x with _ => _ end) => destruct x
      | |- readonly (if ?x then _ else _) => destruct x
      end ].

Lemma readonly_deref (k : nat) : readonly (MDGWO.deref k).
Proof. unfold MDGWO.deref. repeat readonly_step. Qed.

Lemma readonly_memory_coefficient (iteration : Z) :
  readonly (MDGWO._memory_coefficient iteration).
Proof. unfold MDGWO._memory_coefficient. repeat readonly_step. Qed.

Lemma same_but_position_refl (w : Wolf.t) : Frame.same_but_position w w.
Proof. by repeat split. Qed.

Lemma same_but_position_trans (w1 w2 w3 : Wolf.t) :
  Frame.same_but_position w1 w2 -> Frame.same_but_position w2 w3 ->
  Frame.same_but_position w1 w3.
Proof.
  unfold Frame.same_but_position. intros (?&?&?&?&?) (?&?&?&?&?).
  repeat split; congruence.
Qed.

Lemma same_but_wolves_refl (s : MDGWO.t) : Frame.same_but_wolves s s.
Proof. by repeat split. Qed.

Lemma same_but_wolves_trans (s1 s2 s3 : MDGWO.t) :
  Frame.same_but_wolves s1 s2 -> Frame.same_but_wolves s2 s3 ->
  Frame.same_but_wolves s1 s3.
Proof.
  unfold Frame.same_but_wolves.
  intros (?&?&?&?&?&?&?&?&?&?) (?&?&?&?&?&?&?&?&?&?).
  repeat split; congruence.
Qed.

Lemma update_frame_refl (k : nat) (s : MDGWO.t) : Frame.update_frame k s s.
Proof.
  split; [apply same_but_wolves_refl|]. split; [done|]. split; [done|].
  intros w Hw. exists w. split; [done | apply same_but_position_refl].
Qed.

Lemma update_frame_trans (k : nat) (s1 s2 s3 : MDGWO.t) :
  Frame.update_frame k s1 s2 -> Frame.update_frame k s2 s3 ->
  Frame.update_frame k s1 s3.
Proof.
  intros (Hs & Hl & Ho & Hk) (Hs' & Hl' & Ho' & Hk').
  split; [by eapply same_but_wolves_trans|]. split; [congruence|]. split.
  - intros j Hj. rewrite Ho' by done. by apply Ho.
  - intros w Hw. destruct (Hk w Hw) as (w2 & Hw2 & Hp).
    destruct (Hk' w2 Hw2) as (w3 & Hw3 & Hp').
    exists w3. split; [done | by eapply same_but_position_trans].
Qed.

(** A method of the wolf at place [k] that changes at most its position. *)
Lemma on_wolf_frame {A : Type} (k : nat) (m : M Wolf.t A) :
  (forall w, Frame.same_but_position w (snd (m w))) ->
  preserves (Frame.update_frame k) (MDGWO.on_wolf k m).
Proof.
  intros Hm s. unfold MDGWO.on_wolf, MDGWO.deref, mbind, mgets, mret, mraise.
  destruct (MDGWO.wolves s !! k) as [w|] eqn:Hw; cbn [snd].
  2:{ apply update_frame_refl. }
  specialize (Hm w). destruct (m w) as [r w']. cbn [snd] in Hm.
  unfold mmodify, mlift. cbn [snd].
  split; [by repeat split|]. cbn [MDGWO.set_wolves MDGWO.wolves].
  split; [apply length_insert|]. split.
  - intros j Hj. by apply list_lookup_insert_ne.
  - intros w0 Hw0. rewrite Hw in Hw0. injection Hw0 as <-.
    exists w'. split; [|done].
    apply list_lookup_insert_eq. by eapply lookup_lt_Some.
Qed.

Lemma update_wolf_preserves (wolf : nat) (iteration : Z) :
  preserves (Frame.update_frame wolf) (MDGWO.update_wolf wolf iteration).
Proof.
  unfold MDGWO.update_wolf.
  assert (Hrefl := update_frame_refl wolf).
  assert (Htrans := update_frame_trans wolf).
  do 3 (apply preserves_mbind;
        [done | apply preserves_readonly; [done | apply readonly_mgets] | intros ?]).
  destruct a as [a|]; [|by apply preserves_readonly].
  destruct a0 as [b|]; [|by apply preserves_readonly].
  destruct a1 as [d|]; [|by apply preserves_readonly].
  apply preserves_mbind;
    [done | apply preserves_readonly; [done | apply readonly_memory_coefficient] |
     intros eta].
  do 3 (apply preserves_mbind;
        [done | apply preserves_readonly; [done | apply readonly_deref] | intros ?]).
  do 2 (apply preserves_mbind;
        [done | apply preserves_readonly; [done | apply readonly_mlift] | intros ?]).
  apply preserves_mbind;
    [done | apply preserves_readonly; [done | apply readonly_deref] | intros ?].
  do 2 (apply preserves_mbind;
        [done | apply preserves_readonly; [done | apply readonly_mlift] | intros ?]).
  apply preserves_mbind;
    [done | apply preserves_readonly; [done | apply readonly_mgets] | intros ?].
  apply on_wolf_frame. intros w. by repeat split.
Qed.

(** C10. [update_wolf] changes nothing but the position of the wolf it is
    given: that wolf keeps its fitness, pbest, pbest_fitness, num_tasks and
    num_hosts, every other wolf (the leaders among them) is left as it was,
    and the leader references stay. *)
Theorem update_wolf_frame (wolf : nat) (iteration : Z) (s : MDGWO.t) :
  let s' := snd (MDGWO.update_wolf wolf iteration s) in
  (forall w, MDGWO.wolves s !! wolf = Some w ->
     exists w', MDGWO.wolves s' !! wolf = Some w' /\
                Wolf.fitness w' = Wolf.fitness w /\
                Wolf.pbest w' = Wolf.pbest w /\
                Wolf.pbest_fitness w' = Wolf.pbest_fitness w /\
                Wolf.num_tasks w' = Wolf.num_tasks w /\
                Wolf.num_hosts w' = Wolf.num_hosts w) /\
  (forall leader,
     MDGWO.alpha s = Some leader \/ MDGWO.beta s = Some leader \/
     MDGWO.delta s = Some leader ->
     leader <> wolf ->
     MDGWO.wolves s' !! leader = MDGWO.wolves s !! leader) /\
  (forall other, other <> wolf ->
     MDGWO.wolves s' !! other = MDGWO.wolves s !! other) /\
  MDGWO.alpha s' = MDGWO.alpha s /\
  MDGWO.beta s' = MDGWO.beta s /\
  MDGWO.delta s' = MDGWO.delta s /\
  Frame.same_but_wolves s s'.
Proof.
  intros s'. destruct (update_wolf_preserves wolf iteration s)
    as (Hs & Hl & Ho & Hk). fold s' in Hs, Hl, Ho, Hk.
  split; [|split; [|split]].
  - intros w Hw. destruct (Hk w Hw) as (w' & Hw' & Ht & Hh & Hf & Hp & Hpf).
    exists w'. by repeat split.
  - intros leader _ Hne. by apply Ho.
  - done.
  - destruct Hs as (?&?&?&?&?&?&?&?&?&?). by repeat split.
Qed.

(** ** Construction *)




(** ** Sorting by fitness *)

Lemma fl_le_trans (a b c : pyfloat) : fl_le a b -> fl_le b c -> fl_le a c.
Proof. destruct a, b, c; simpl; try done; lra. Qed.

Lemma fl_le_refl (a : pyfloat) : ~ is_nan a -> fl_le a a.
Proof. destruct a; simpl; try done; lra. Qed.

Lemma fl_lt_le (a b : pyfloat) : fl_lt a b -> fl_le a b.
Proof. destruct a, b; simpl; try done; lra. Qed.

Lemma fl_not_lt_le (a b : pyfloat) :
  ~ is_nan a -> ~ is_nan b -> ~ fl_lt a b -> fl_le b a.
Proof. destruct a, b; simpl; try done; try tauto; lra. Qed.

Lemma insert_by_elem {A : Type} (key : A -> pyfloat) (x y : A) (l : list A) :
  y ∈ insert_by key x l <-> y = x \/ y ∈ l.
Proof.
  induction l as [|z l IH]; cbn [insert_by].
  - rewrite elem_of_cons, elem_of_nil. tauto.
  - case_decide; rewrite !elem_of_cons; [rewrite IH|]; tauto.
Qed.

Lemma py_sorted_elem {A : Type} (key : A -> pyfloat) (y : A) (l : list A) :
  y ∈ py_sorted key l <-> y ∈ l.
Proof.
  induction l as [|x l IH]; [done|].
  cbn [py_sorted foldr]. fold (py_sorted key l).
  rewrite insert_by_elem, elem_of_cons, IH. tauto.
Qed.

Lemma insert_by_length {A : Type} (key : A -> pyfloat) (x : A) (l : list A) :
  length (insert_by key x l) = S (length l).
Proof.
  induction l as [|z l IH]; cbn [insert_by]; [done|].
  case_decide; cbn [length]; by rewrite ?IH.
Qed.

Lemma py_sorted_length {A : Type} (key : A -> pyfloat) (l : list A) :
  length (py_sorted key l) = length l.
Proof.
  induction l as [|x l IH]; [done|].
  cbn [py_sorted foldr]. fold (py_sorted key l).
  by rewrite insert_by_length, IH.
Qed.

(** On keys without NaN the first element of the sorted list is a least one. *)
Lemma py_sorted_head_min {A : Type} (key : A -> pyfloat) (l : list A)
    (a : A) (rest : list A) :
  (forall x, x ∈ l -> ~ is_nan (key x)) ->
  py_sorted key l = a :: rest ->
  forall y, y ∈ l -> fl_le (key a) (key y).
Proof.
  revert a rest. induction l as [|x l IH]; intros a rest Hnan Hs y Hy.
  { by apply elem_of_nil in Hy. }
  cbn [py_sorted foldr] in Hs. fold (py_sorted key l) in Hs.
  assert (Hnan' : forall z, z ∈ l -> ~ is_nan (key z)).
  { intros z Hz. apply Hnan. by right. }
  destruct (py_sorted key l) as [|b rest'] eqn:Hl.
  - assert (l = []) as ->.
    { apply nil_length_inv. by rewrite <- (py_sorted_length key), Hl. }
    cbn in Hs. injection Hs as <- <-.
    apply elem_of_cons in Hy as [->|[]%elem_of_nil].
    apply fl_le_refl, Hnan. left.
  - specialize (IH b rest' Hnan' eq_refl).
    assert (Hb : b ∈ l). { apply (py_sorted_elem key). rewrite Hl. left. }
    cbn [insert_by] in Hs.
    destruct (decide (fl_lt (key b) (key x))) as [Hlt|Hlt]; injection Hs as <- _.
    + apply elem_of_cons in Hy as [->|Hy]; [by apply fl_lt_le | by apply IH].
    + assert (Hxb : fl_le (key x) (key b)).
      { apply fl_not_lt_le; [apply Hnan'; done | apply Hnan; left | done]. }
      apply elem_of_cons in Hy as [->|Hy].
      * apply fl_le_refl, Hnan. left.
      * eapply fl_le_trans; [done | by apply IH].
Qed.

(** A list in which no element is smaller than its predecessor is returned
    as it is. *)
Lemma py_sorted_run {A : Type} (key : A -> pyfloat) (l : list A) :
  (forall i x y, l !! i = Some x -> l !! S i = Some y -> ~ fl_lt (key y) (key x)) ->
  py_sorted key l = l.
Proof.
  induction l as [|x l IH]; intros Hrun; [done|].
  cbn [py_sorted foldr]. fold (py_sorted key l). rewrite IH.
  - destruct l as [|y l]; [done|]. cbn [insert_by].
    rewrite decide_False; [done|]. by apply (Hrun 0%nat).
  - intros i. apply (Hrun (S i)).
Qed.

(** ** One generation *)

Lemma evaluate_run (f : Wolf.t -> pyfloat) (w : Wolf.t) :
  (w0 <-m mget ;;
   mmodify (Wolf.set_fitness (f w0)) ;;m
   fitness <-m mgets Wolf.fitness ;;
   Wolf.update_pbest fitness) w
  = (Ok tt, Spec.evaluate f w).
Proof.
  unfold Spec.evaluate, Wolf.update_pbest, mbind, mget, mmodify, mgets, mret.
  cbn. destruct (decide (fl_lt (f w) (Wolf.pbest_fitness w))); done.
Qed.

Lemma evaluate_position (f : Wolf.t -> pyfloat) (w : Wolf.t) :
  Wolf.position (Spec.evaluate f w) = Wolf.position w.
Proof. unfold Spec.evaluate. by case_decide. Qed.

Lemma evaluate_fitness (f : Wolf.t -> pyfloat) (w : Wolf.t) :
  Wolf.fitness (Spec.evaluate f w) = f w.
Proof. unfold Spec.evaluate. by case_decide. Qed.

Lemma set_wolves_same (s : MDGWO.t) : MDGWO.set_wolves (MDGWO.wolves s) s = s.
Proof. by destruct s. Qed.

Lemma deref_value (k : nat) (s : MDGWO.t) (w : Wolf.t) :
  MDGWO.wolves s !! k = Some w -> MDGWO.deref k s = (Ok w, s).
Proof. intros H. unfold MDGWO.deref, mbind, mgets. by rewrite H. Qed.

Lemma on_wolf_value (g : Wolf.t -> Wolf.t) (m : M Wolf.t unit) (k : nat)
    (s : MDGWO.t) (w : Wolf.t) :
  m w = (Ok tt, g w) ->
  MDGWO.wolves s !! k = Some w ->
  MDGWO.on_wolf k m s = (Ok tt, MDGWO.set_wolves (<[k := g w]> (MDGWO.wolves s)) s).
Proof.
  intros Hm Hk. unfold MDGWO.on_wolf.
  rewrite (mbind_ok _ _ _ _ _ (deref_value k s w Hk)). rewrite Hm. done.
Qed.

(** A loop that runs a method on each wolf in turn. *)
Lemma mfor_on_wolf (g : Wolf.t -> Wolf.t) (m : M Wolf.t unit) (s : MDGWO.t) :
  (forall w, m w = (Ok tt, g w)) ->
  mfor (seq 0 (length (MDGWO.wolves s))) (fun k => MDGWO.on_wolf k m) s
  = (Ok tt, MDGWO.set_wolves (map g (MDGWO.wolves s)) s).
Proof.
  intros Hm.
  enough (Hgen : forall post pre s,
            MDGWO.wolves s = pre ++ post ->
            mfor (seq (length pre) (length post)) (fun k => MDGWO.on_wolf k m) s
            = (Ok tt, MDGWO.set_wolves (pre ++ map g post) s)).
  { apply (Hgen (MDGWO.wolves s) [] s). done. }
  clear s. induction post as [|w post IH]; intros pre s Hs.
  - cbn [length seq mfor map]. rewrite app_nil_r in *. rewrite <- Hs.
    by rewrite set_wolves_same.
  - cbn [length seq mfor map].
    assert (Hk : MDGWO.wolves s !! length pre = Some w).
    { rewrite Hs. by apply list_lookup_middle. }
    rewrite (mbind_ok _ _ _ _ _ (on_wolf_value g m _ s w (Hm w) Hk)).
    replace (S (length pre)) with (length (pre ++ [g w]))
      by (rewrite length_app; simpl; lia).
    rewrite (IH (pre ++ [g w])).
    + rewrite <- app_assoc. done.
    + cbn [MDGWO.set_wolves MDGWO.wolves]. rewrite Hs.
      rewrite insert_app_r_alt by lia. rewrite Nat.sub_diag.
      cbn [insert list_insert]. by rewrite <- app_assoc.
Qed.

Lemma update_leaders_empty (s : MDGWO.t) :
  MDGWO.wolves s = [] -> MDGWO._update_leaders s = (Raise IndexError, s).
Proof.
  intros H. unfold MDGWO._update_leaders, mbind, mgets. by rewrite H.
Qed.

(** The leaders after ranking: places of the population, the first of them
    with a least fitness when no fitness is NaN. *)
Lemma update_leaders_value (s : MDGWO.t) :
  MDGWO.wolves s <> [] ->
  exists a b d : nat,
    MDGWO._update_leaders s
    = (Ok tt, MDGWO.set_leaders (Some a) (Some b) (Some d) s) /\
    (a < length (MDGWO.wolves s))%nat /\
    ((forall w, w ∈ MDGWO.wolves s -> ~ is_nan (Wolf.fitness w)) ->
     forall wa w, MDGWO.wolves s !! a = Some wa -> w ∈ MDGWO.wolves s ->
                  fl_le (Wolf.fitness wa) (Wolf.fitness w)).
Proof.
  intros Hne. unfold MDGWO._update_leaders.
  set (key := fun k : nat => default NaN (Wolf.fitness <$> MDGWO.wolves s !! k)).
  destruct (py_sorted key (seq 0 (length (MDGWO.wolves s)))) as [|a rest] eqn:Hsorted.
  { exfalso. apply Hne, nil_length_inv.
    pose proof (py_sorted_length key (seq 0 (length (MDGWO.wolves s)))) as Hlen.
    rewrite Hsorted, length_seq in Hlen. done. }
  exists a, (default a ((a :: rest) !! 1%nat)), (default a ((a :: rest) !! 2%nat)).
  assert (Ha : a ∈ seq 0 (length (MDGWO.wolves s))).
  { apply (py_sorted_elem key). rewrite Hsorted. left. }
  apply elem_of_seq in Ha.
  split; [|split; [lia|]].
  - unfold mbind, mgets. fold key. by rewrite Hsorted.
  - intros Hnan wa w Hwa Hw.
    apply list_elem_of_lookup in Hw as [j Hj].
    assert (Hkey : forall k x, MDGWO.wolves s !! k = Some x -> key k = Wolf.fitness x).
    { intros k x Hk. unfold key. by rewrite Hk. }
    rewrite <- (Hkey a wa Hwa), <- (Hkey j w Hj).
    apply (py_sorted_head_min key (seq 0 (length (MDGWO.wolves s))) a rest);
      [|done|].
    + intros k [_ Hk]%elem_of_seq.
      destruct (lookup_lt_is_Some_2 (MDGWO.wolves s) k) as [x Hx]; [lia|].
      rewrite (Hkey k x Hx). apply Hnan. by eapply list_elem_of_lookup_2.
    + apply elem_of_seq. apply lookup_lt_Some in Hj. lia.
Qed.

Lemma keeps_leader_refl (a : nat) (s : MDGWO.t) : Frame.keeps_leader a s s.
Proof. intros _. split; [apply same_but_wolves_refl | done]. Qed.

Lemma keeps_leader_trans (a : nat) (s1 s2 s3 : MDGWO.t) :
  Frame.keeps_leader a s1 s2 -> Frame.keeps_leader a s2 s3 ->
  Frame.keeps_leader a s1 s3.
Proof.
  intros H12 H23 Ha. destruct (H12 Ha) as (Hs & Hl & Hw).
  assert (Ha2 : MDGWO.alpha s2 = Some a).
  { destruct Hs as (_&_&_&_&_&->&_). done. }
  destruct (H23 Ha2) as (Hs' & Hl' & Hw').
  split; [by eapply same_but_wolves_trans|]. split; congruence.
Qed.

(** The loop that moves the wolves leaves the alpha wolf alone. *)
Lemma move_wolves_keeps_leader (a : nat) (iteration : Z) :
  preserves (Frame.keeps_leader a) (MDGWO.move_wolves iteration).
Proof.
  unfold MDGWO.move_wolves.
  apply preserves_mbind;
    [apply keeps_leader_trans
    | apply preserves_readonly; [apply keeps_leader_refl | apply readonly_mgets]
    | intros ws].
  apply preserves_mfor;
    [apply keeps_leader_refl | apply keeps_leader_trans |].
  intros k s. unfold mbind at 1 2 3. cbn [mgets].
  destruct (decide (Some k <> MDGWO.alpha s /\ Some k <> MDGWO.beta s /\
                    Some k <> MDGWO.delta s)) as [(Hka & _)|_].
  - intros Ha. destruct (update_wolf_preserves k iteration s) as (Hs & Hl & Ho & _).
    split; [done|]. split; [done|]. apply Ho. congruence.
  - apply keeps_leader_refl.
Qed.

Lemma evaluate_all_value (f : Wolf.t -> pyfloat) (s : MDGWO.t) :
  MDGWO.evaluate_all f s
  = (Ok tt, MDGWO.set_wolves (map (Spec.evaluate f) (MDGWO.wolves s)) s).
Proof.
  unfold MDGWO.evaluate_all. erewrite mbind_ok by reflexivity.
  apply (mfor_on_wolf (Spec.evaluate f)). intros w. apply evaluate_run.
Qed.

Lemma record_best_value (s : MDGWO.t) (a : nat) (w : Wolf.t) :
  MDGWO.alpha s = Some a -> MDGWO.wolves s !! a = Some w ->
  MDGWO.record_best s
  = (Ok tt, MDGWO.set_history (MDGWO.best_fitness_history s ++ [Wolf.fitness w]) s).
Proof.
  intros Ha Hw. unfold MDGWO.record_best.
  erewrite mbind_ok by reflexivity. rewrite Ha.
  erewrite mbind_ok
    by (erewrite mbind_ok by (apply deref_value; exact Hw); reflexivity).
  reflexivity.
Qed.

Lemma lookup_map {A B : Type} (g : A -> B) (l : list A) (i : nat) :
  map g l !! i = g <$> l !! i.
Proof. exact (list_lookup_fmap g l i). Qed.

Lemma non_increasing_snoc (h : list pyfloat) (b : pyfloat) :
  Spec.non_increasing h ->
  (forall x, last h = Some x -> fl_le b x) ->
  Spec.non_increasing (h ++ [b]).
Proof.
  intros Hh Hb i x y Hx Hy.
  assert (Hi : (S i < length (h ++ [b]))%nat) by (by eapply lookup_lt_Some).
  rewrite length_app in Hi. cbn in Hi.
  destruct (decide (S i < length h)%nat) as [Hlt|Hge].
  - rewrite lookup_app_l in Hx, Hy by lia. by eapply Hh.
  - assert (S i = length h) as Heq by lia.
    rewrite lookup_app_l in Hx by lia.
    rewrite lookup_app_r in Hy by lia.
    replace (S i - length h)%nat with 0%nat in Hy by lia. injection Hy as <-.
    apply Hb. rewrite last_lookup. rewrite <- Heq. done.
Qed.

Lemma last_snoc_some (h : list pyfloat) (b x : pyfloat) :
  last (h ++ [b]) = Some x -> x = b.
Proof. rewrite last_snoc. by intros [= ->]. Qed.

(** One generation extends a non-increasing record by a value that is not
    larger, and again leaves a wolf that achieves the last recorded value. *)
Lemma generation_step (f : Wolf.t -> pyfloat) (iteration : Z) (s : MDGWO.t) :
  Spec.position_pure f -> Spec.never_nan f ->
  Spec.history_invariant f s ->
  exists r s',
    MDGWO.generation f iteration s = (r, s') /\
    Spec.non_increasing (MDGWO.best_fitness_history s') /\
    (r = Ok tt -> Spec.history_invariant f s').
Proof.
  intros Hpure Hnan [Hmono Hlast]. unfold MDGWO.generation.
  rewrite (mbind_ok _ _ _ _ _ (evaluate_all_value f s)).
  set (s1 := MDGWO.set_wolves (map (Spec.evaluate f) (MDGWO.wolves s)) s).
  destruct (decide (MDGWO.wolves s = [])) as [Hempty|Hne].
  { erewrite mbind_raise
      by (apply update_leaders_empty; unfold s1; cbn; by rewrite Hempty).
    eexists _, _. split; [reflexivity|]. split; [done | discriminate]. }
  destruct (update_leaders_value s1) as (a & b & d & Hl & Halt & Hmin).
  { unfold s1. cbn. by destruct (MDGWO.wolves s). }
  erewrite mbind_ok by exact Hl.
  set (s2 := MDGWO.set_leaders (Some a) (Some b) (Some d) s1).
  assert (Hwolves1 : MDGWO.wolves s1 = map (Spec.evaluate f) (MDGWO.wolves s))
    by reflexivity.
  rewrite Hwolves1, length_map in Halt.
  destruct (lookup_lt_is_Some_2 (MDGWO.wolves s) a Halt) as [w0 Hw0].
  assert (Hwa : MDGWO.wolves s2 !! a = Some (Spec.evaluate f w0)).
  { change (MDGWO.wolves s2) with (map (Spec.evaluate f) (MDGWO.wolves s)).
    by rewrite lookup_map, Hw0. }
  rewrite (mbind_ok _ _ _ _ _ (record_best_value s2 a _ eq_refl Hwa)).
  rewrite evaluate_fitness.
  set (s3 := MDGWO.set_history (MDGWO.best_fitness_history s2 ++ [f w0]) s2).
  pose proof (move_wolves_keeps_leader a iteration s3) as Hkeep.
  unfold mbind at 1.
  destruct (MDGWO.move_wolves iteration s3) as [r4 s4] eqn:E4.
  cbn [snd] in Hkeep.
  destruct (Hkeep eq_refl) as (Hsame & Hlen & Hkept).
  assert (Hhist4 : MDGWO.best_fitness_history s4
                   = MDGWO.best_fitness_history s ++ [f w0]).
  { destruct Hsame as (_&_&_&_&_&_&_&_&_&->). done. }
  assert (Hmono' : Spec.non_increasing (MDGWO.best_fitness_history s ++ [f w0])).
  { apply non_increasing_snoc; [done|]. intros x Hx.
    destruct (Hlast x Hx) as (a0 & w1 & Hw1 & Hle).
    eapply fl_le_trans; [|exact Hle].
    rewrite <- (evaluate_fitness f w0), <- (evaluate_fitness f w1).
    apply Hmin.
    - intros w Hw. rewrite Hwolves1 in Hw.
      apply list_elem_of_lookup in Hw as [j Hj].
      rewrite lookup_map in Hj.
      destruct (MDGWO.wolves s !! j) as [w'|]; [|done].
      injection Hj as <-. rewrite evaluate_fitness. apply Hnan.
    - rewrite Hwolves1. by rewrite lookup_map, Hw0.
    - rewrite Hwolves1. apply list_elem_of_lookup. exists a0.
      by rewrite lookup_map, Hw1. }
  assert (Hinv4 : exists a' w, MDGWO.wolves s4 !! a' = Some w /\ fl_le (f w) (f w0)).
  { exists a, (Spec.evaluate f w0). split.
    - rewrite Hkept. exact Hwa.
    - rewrite (Hpure (Spec.evaluate f w0) w0) by apply evaluate_position.
      apply fl_le_refl, Hnan. }
  destruct r4 as [[]|e]; eexists _, _; (split; [reflexivity|]).
  - unfold Spec.history_invariant.
    change (MDGWO.best_fitness_history (MDGWO.set_iteration iteration s4))
      with (MDGWO.best_fitness_history s4).
    change (MDGWO.wolves (MDGWO.set_iteration iteration s4))
      with (MDGWO.wolves s4).
    rewrite Hhist4. split; [done|]. intros _. split; [done|].
    intros x ->%last_snoc_some. done.
  - split; [by rewrite Hhist4 | discriminate].
Qed.

(** The loop of [optimize]. *)
Lemma generations_monotone (f : Wolf.t -> pyfloat) (its : list Z) (s : MDGWO.t) :
  Spec.position_pure f -> Spec.never_nan f ->
  Spec.history_invariant f s ->
  Spec.non_increasing
    (MDGWO.best_fitness_history (snd (mfor its (MDGWO.generation f) s))).
Proof.
  intros Hpure Hnan. revert s. induction its as [|it its IH]; intros s Hinv.
  - apply Hinv.
  - cbn [mfor]. unfold mbind.
    destruct (generation_step f it s Hpure Hnan Hinv) as (r & s' & -> & Hmono & Hnext).
    destruct r as [[]|e]; cbn [snd].
    + apply IH. by apply Hnext.
    + done.
Qed.

(** ** A run over a uniform population returns *)

Lemma memory_coefficient_returns (s : MDGWO.t) (t : Z) :
  MDGWO.max_iterations s <> 0%Z ->
  exists eta, MDGWO._memory_coefficient t s = (Ok eta, s).
Proof.
  intros HM. destruct (decide (MDGWO.memory_decay s = "exponential")) as [Hd|Hd].
  - eexists. by apply memory_coefficient_exponential.
  - eexists. by apply memory_coefficient_linear.
Qed.

Lemma update_wolf_returns (n : nat) (k : nat) (iteration : Z) (s : MDGWO.t) :
  Spec.uniform_population n s ->
  Spec.leaders_in_population s ->
  (k < length (MDGWO.wolves s))%nat ->
  MDGWO.max_iterations s <> 0%Z ->
  exists s', MDGWO.update_wolf k iteration s = (Ok tt, s') /\
             Spec.uniform_population n s'.
Proof.
  intros [Hne Hall] (a & b & d & Ha & Hb & Hd & Hla & Hlb & Hld) Hk HM.
  unfold MDGWO.update_wolf.
  do 3 erewrite mbind_ok by reflexivity. rewrite Ha, Hb, Hd.
  destruct (memory_coefficient_returns s iteration HM) as [eta Heta].
  rewrite (mbind_ok _ _ _ _ _ Heta).
  destruct (lookup_lt_is_Some_2 _ _ Hla) as [wa Hwa].
  destruct (lookup_lt_is_Some_2 _ _ Hlb) as [wb Hwb].
  destruct (lookup_lt_is_Some_2 _ _ Hld) as [wd Hwd].
  destruct (lookup_lt_is_Some_2 _ _ Hk) as [w Hw].
  rewrite Forall_lookup in Hall.
  destruct (Hall _ _ Hwa) as [Hpa _]. destruct (Hall _ _ Hwb) as [Hpb _].
  destruct (Hall _ _ Hwd) as [Hpd _]. destruct (Hall _ _ Hw) as [Hpw Hbw].
  rewrite (mbind_ok _ _ _ _ _ (deref_value a s wa Hwa)).
  rewrite (mbind_ok _ _ _ _ _ (deref_value b s wb Hwb)).
  rewrite (mbind_ok _ _ _ _ _ (deref_value d s wd Hwd)).
  erewrite mbind_ok
    by (unfold mlift; rewrite np_zip_same_length by congruence; reflexivity).
  erewrite mbind_ok
    by (unfold mlift; rewrite np_zip_same_length
          by (rewrite length_zip_with; lia); reflexivity).
  rewrite (mbind_ok _ _ _ _ _ (deref_value k s w Hw)).
  erewrite mbind_ok
    by (unfold mlift; rewrite np_zip_same_length by congruence; reflexivity).
  erewrite mbind_ok
    by (unfold mlift; rewrite np_zip_same_length
          by (rewrite !length_map, !length_zip_with; lia); reflexivity).
  erewrite mbind_ok by reflexivity.
  unfold MDGWO.on_wolf. rewrite (mbind_ok _ _ _ _ _ (deref_value k s w Hw)).
  unfold mbind, mmodify, mlift. eexists. split; [reflexivity|].
  split.
  - cbn [MDGWO.set_wolves MDGWO.wolves]. intros Hnil.
    apply (f_equal length) in Hnil. rewrite length_insert in Hnil.
    destruct (MDGWO.wolves s); [done | discriminate].
  - cbn [MDGWO.set_wolves MDGWO.wolves]. apply Forall_insert.
    + by apply Forall_lookup.
    + cbn [Wolf.set_position Wolf.position Wolf.pbest]. split; [|done].
      rewrite length_imap, length_zip_with, !length_map, !length_zip_with. lia.
Qed.

Lemma leaders_in_population_same (s s' : MDGWO.t) :
  Frame.same_but_wolves s s' ->
  length (MDGWO.wolves s') = length (MDGWO.wolves s) ->
  Spec.leaders_in_population s -> Spec.leaders_in_population s'.
Proof.
  intros (_&_&_&_&_&Ha&Hb&Hd&_) Hlen (a & b & d & ? & ? & ? & ? & ? & ?).
  exists a, b, d. rewrite Ha, Hb, Hd, Hlen. done.
Qed.

Lemma move_wolves_returns (n : nat) (iteration : Z) (s : MDGWO.t) :
  Spec.uniform_population n s ->
  Spec.leaders_in_population s ->
  MDGWO.max_iterations s <> 0%Z ->
  exists s', MDGWO.move_wolves iteration s = (Ok tt, s') /\
             Spec.uniform_population n s' /\
             Frame.same_but_wolves s s' /\
             length (MDGWO.wolves s') = length (MDGWO.wolves s).
Proof.
  intros Hu Hl HM. unfold MDGWO.move_wolves. erewrite mbind_ok by reflexivity.
  assert (Hks : Forall (fun k => k < length (MDGWO.wolves s))%nat
                       (seq 0 (length (MDGWO.wolves s)))).
  { apply Forall_forall. intros k Hk%elem_of_seq. lia. }
  revert Hks. generalize (seq 0 (length (MDGWO.wolves s))) as ks.
  intros ks. revert s Hu Hl HM. induction ks as [|k ks IH]; intros s Hu Hl HM Hks.
  - exists s. split; [done|]. split; [done|]. split; [apply same_but_wolves_refl|done].
  - apply Forall_cons in Hks as [Hk Hks]. cbn [mfor].
    assert (Hbody : exists s1,
              (a <-m mgets MDGWO.alpha ;;
               b <-m mgets MDGWO.beta ;;
               d <-m mgets MDGWO.delta ;;
               if decide (Some k <> a /\ Some k <> b /\ Some k <> d)
               then MDGWO.update_wolf k iteration
               else mret tt) s = (Ok tt, s1) /\
              Spec.uniform_population n s1 /\
              Frame.same_but_wolves s s1 /\
              length (MDGWO.wolves s1) = length (MDGWO.wolves s)).
    { unfold mbind at 1 2 3. cbn [mgets]. case_decide.
      - destruct (update_wolf_returns n k iteration s Hu Hl Hk HM) as (s1 & Hs1 & Hu1).
        destruct (update_wolf_preserves k iteration s) as (Hsame & Hlen & _).
        rewrite Hs1 in Hsame, Hlen. exists s1. done.
      - exists s. split; [done|]. split; [done|].
        split; [apply same_but_wolves_refl|done]. }
    destruct Hbody as (s1 & Hs1 & Hu1 & Hsame1 & Hlen1).
    rewrite (mbind_ok _ _ _ _ _ Hs1).
    destruct (IH s1) as (s' & Hs' & Hu' & Hsame' & Hlen').
    + done.
    + by eapply leaders_in_population_same.
    + destruct Hsame1 as (_&_&_&->&_). done.
    + by rewrite Hlen1.
    + exists s'. split; [done|]. split; [done|].
      split; [by eapply same_but_wolves_trans | congruence].
Qed.

Lemma evaluate_lengths (f : Wolf.t -> pyfloat) (n : nat) (w : Wolf.t) :
  length (Wolf.position w) = n /\ length (Wolf.pbest w) = n ->
  length (Wolf.position (Spec.evaluate f w)) = n /\
  length (Wolf.pbest (Spec.evaluate f w)) = n.
Proof. intros [Hp Hb]. unfold Spec.evaluate. by case_decide. Qed.

(** The three leaders after ranking are places of the population. *)
Lemma update_leaders_in_population (s : MDGWO.t) :
  MDGWO.wolves s <> [] ->
  exists s', MDGWO._update_leaders s = (Ok tt, s') /\
             MDGWO.wolves s' = MDGWO.wolves s /\
             MDGWO.max_iterations s' = MDGWO.max_iterations s /\
             MDGWO.best_fitness_history s' = MDGWO.best_fitness_history s /\
             Spec.leaders_in_population s'.
Proof.
  intros Hne. unfold MDGWO._update_leaders.
  set (key := fun k : nat => default NaN (Wolf.fitness <$> MDGWO.wolves s !! k)).
  erewrite mbind_ok by reflexivity. fold key.
  destruct (py_sorted key (seq 0 (length (MDGWO.wolves s)))) as [|a rest] eqn:Hsorted.
  { exfalso. apply Hne, nil_length_inv.
    pose proof (py_sorted_length key (seq 0 (length (MDGWO.wolves s)))) as Hlen.
    rewrite Hsorted, length_seq in Hlen. done. }
  assert (Hin : forall x, x ∈ a :: rest -> (x < length (MDGWO.wolves s))%nat).
  { intros x Hx. rewrite <- Hsorted in Hx. apply py_sorted_elem, elem_of_seq in Hx. lia. }
  assert (Hdef : forall i, (default a ((a :: rest) !! i) < length (MDGWO.wolves s))%nat).
  { intros i. destruct ((a :: rest) !! i) as [x|] eqn:Hx.
    - apply Hin. by eapply list_elem_of_lookup_2.
    - apply Hin. left. }
  eexists. split; [reflexivity|]. repeat split.
  eexists _, _, _. repeat split; [apply Hin; left | apply Hdef | apply Hdef].
Qed.

Lemma generation_returns (f : Wolf.t -> pyfloat) (n : nat) (iteration : Z)
    (s : MDGWO.t) :
  Spec.uniform_population n s ->
  MDGWO.max_iterations s <> 0%Z ->
  exists s', MDGWO.generation f iteration s = (Ok tt, s') /\
             Spec.uniform_population n s' /\
             Spec.leaders_in_population s' /\
             MDGWO.max_iterations s' = MDGWO.max_iterations s /\
             length (MDGWO.best_fitness_history s')
             = S (length (MDGWO.best_fitness_history s)).
Proof.
  intros [Hne Hall] HM. unfold MDGWO.generation.
  rewrite (mbind_ok _ _ _ _ _ (evaluate_all_value f s)).
  set (s1 := MDGWO.set_wolves (map (Spec.evaluate f) (MDGWO.wolves s)) s).
  assert (Hu1 : Spec.uniform_population n s1).
  { split.
    - unfold s1. cbn. by destruct (MDGWO.wolves s).
    - unfold s1. cbn [MDGWO.set_wolves MDGWO.wolves].
      change (map ?g ?l) with (g <$> l). apply Forall_fmap.
      eapply Forall_impl; [exact Hall|]. intros w Hw. by apply evaluate_lengths. }
  destruct (update_leaders_in_population s1 (proj1 Hu1))
    as (s2 & Hs2 & Hw2 & HM2 & Hh2 & Hl2).
  rewrite (mbind_ok _ _ _ _ _ Hs2).
  assert (Hu2 : Spec.uniform_population n s2).
  { destruct Hu1. split; by rewrite Hw2. }
  destruct Hl2 as (a & b & d & Ha & Hb & Hd & Hla & Hlb & Hld).
  destruct (lookup_lt_is_Some_2 _ _ Hla) as [wa Hwa].
  rewrite (mbind_ok _ _ _ _ _ (record_best_value s2 a wa Ha Hwa)).
  set (s3 := MDGWO.set_history _ s2).
  destruct (move_wolves_returns n iteration s3) as (s4 & Hs4 & Hu4 & Hsame & Hlen).
  - done.
  - exists a, b, d. done.
  - change (MDGWO.max_iterations s3) with (MDGWO.max_iterations s2). by rewrite HM2.
  - rewrite (mbind_ok _ _ _ _ _ Hs4). eexists. split; [reflexivity|].
    assert (Hl4 : Spec.leaders_in_population s4).
    { apply (leaders_in_population_same s3); [done..|]. exists a, b, d. done. }
    destruct Hsame as (_&_&_&HM4&_&_&_&_&_&Hh4).
    split; [done|]. split; [done|].
    cbn [MDGWO.set_iteration MDGWO.max_iterations MDGWO.best_fitness_history].
    split.
    + rewrite HM4. change (MDGWO.max_iterations s3) with (MDGWO.max_iterations s2).
      by rewrite HM2.
    + rewrite Hh4. unfold s3. cbn [MDGWO.set_history MDGWO.best_fitness_history].
      rewrite length_app, Hh2. cbn. lia.
Qed.

(** With at least one generation to run and a uniform population,
    [optimize] returns a leader and records one value per generation. *)
Lemma optimize_completes (f : Wolf.t -> pyfloat) (n : nat) (s : MDGWO.t) :
  Spec.uniform_population n s ->
  (1 <= MDGWO.max_iterations s)%Z ->
  exists a s', MDGWO.optimize f s = (Ok a, s') /\
               length (MDGWO.best_fitness_history s')
               = Z.to_nat (MDGWO.max_iterations s).
Proof.
  intros Hu HM. unfold MDGWO.optimize.
  erewrite mbind_ok by reflexivity. erewrite mbind_ok by reflexivity.
  set (s0 := MDGWO.set_history [] s).
  change (MDGWO.max_iterations s0) with (MDGWO.max_iterations s).
  assert (Hloop : forall its s1,
            Spec.uniform_population n s1 ->
            MDGWO.max_iterations s1 = MDGWO.max_iterations s ->
            exists s2, mfor its (MDGWO.generation f) s1 = (Ok tt, s2) /\
                       Spec.uniform_population n s2 /\
                       (its <> [] \/ Spec.leaders_in_population s1 ->
                        Spec.leaders_in_population s2) /\
                       MDGWO.max_iterations s2 = MDGWO.max_iterations s /\
                       length (MDGWO.best_fitness_history s2)
                       = (length its + length (MDGWO.best_fitness_history s1))%nat).
  { induction its as [|it its IH]; intros s1 Hu1 HM1.
    - exists s1. split; [done|]. split; [done|]. split; [|done].
      by intros [?|?].
    - cbn [mfor].
      destruct (generation_returns f n it s1 Hu1)
        as (s2 & Hs2 & Hu2 & Hl2 & HM2 & Hh2); [lia|].
      rewrite (mbind_ok _ _ _ _ _ Hs2).
      destruct (IH s2 Hu2) as (s3 & Hs3 & Hu3 & Hl3 & HM3 & Hh3); [congruence|].
      exists s3. split; [done|]. split; [done|]. split; [intros _; by apply Hl3; right|].
      split; [done|]. rewrite Hh3, Hh2. cbn. lia. }
  destruct (Hloop (seqZ 0 (MDGWO.max_iterations s)) s0)
    as (s2 & Hs2 & Hu2 & Hl2 & HM2 & Hh2); [done | done |].
  rewrite (mbind_ok _ _ _ _ _ Hs2). erewrite mbind_ok by reflexivity.
  rewrite length_seqZ in Hh2. cbn in Hh2.
  destruct Hl2 as (a & b & d & Ha & _).
  { left. intros Hnil. apply (f_equal length) in Hnil.
    rewrite length_seqZ in Hnil. cbn in Hnil. lia. }
  rewrite Ha. exists a, s2. split; [done|]. lia.
Qed.

(** C3 (as amended). When the fitness function looks at the position of
    the wolf only and never returns NaN, the record [best_fitness_history]
    that a call of [optimize] leaves behind, whether it returns or raises,
    is non-increasing; over a uniform population and with a budget of at
    least one generation the call returns and the record has one entry per
    generation. *)
Theorem best_fitness_history_monotone (f : Wolf.t -> pyfloat) (s : MDGWO.t) :
  Spec.position_pure f ->
  Spec.never_nan f ->
  Spec.non_increasing
    (MDGWO.best_fitness_history (snd (MDGWO.optimize f s))) /\
  (forall n : nat,
     Spec.uniform_population n s -> (1 <= MDGWO.max_iterations s)%Z ->
     exists a s', MDGWO.optimize f s = (Ok a, s') /\
                  length (MDGWO.best_fitness_history s')
                  = Z.to_nat (MDGWO.max_iterations s)).
Proof.
  intros Hpure Hnan. split; [|intros n; apply optimize_completes].
  unfold MDGWO.optimize.
  erewrite mbind_ok by reflexivity. erewrite mbind_ok by reflexivity.
  set (s0 := MDGWO.set_history [] s).
  assert (Hinv : Spec.history_invariant f s0).
  { split; [by intros i x y [=]|]. by intros x [=]. }
  pose proof (generations_monotone f (seqZ 0 (MDGWO.max_iterations s0)) s0
                Hpure Hnan Hinv) as Hmono.
  unfold mbind at 1.
  destruct (mfor (seqZ 0 (MDGWO.max_iterations s0)) (MDGWO.generation f) s0)
    as [[[]|e] s'] eqn:E; cbn [snd] in *; [|done].
  unfold mbind, mgets. destruct (MDGWO.alpha s'); done.
Qed.

Lemma pack_uniform : Spec.uniform_population 3 Scenario.pack.
Proof.
  split; [done|]. cbn [Scenario.pack MDGWO.wolves].
  repeat (constructor; [done|]). constructor.
Qed.

Lemma best_fitness_history_monotone_witness :
  Spec.non_increasing
    (MDGWO.best_fitness_history
       (snd (MDGWO.optimize Scenario.sum_fitness Scenario.pack))) /\
  exists a s', MDGWO.optimize Scenario.sum_fitness Scenario.pack = (Ok a, s') /\
               length (MDGWO.best_fitness_history s') = 2%nat.
Proof.
  destruct (best_fitness_history_monotone Scenario.sum_fitness Scenario.pack)
    as [Hmono Hret].
  - intros w w' H. unfold Scenario.sum_fitness. by rewrite H.
  - intros w. unfold Scenario.sum_fitness. simpl. tauto.
  - split; [exact Hmono|]. apply (Hret 3%nat); [apply pack_uniform | simpl; lia].
Defined.

(** ** A run in which the recorded best fitness gets worse *)

Lemma pack_position (i : nat) (x : R) :
  3 * INR i = x ->
  MDGWO.random_position 1 10 (Scenario.pack_samples i) = [x; 1; 1].
Proof.
  intros <-. unfold MDGWO.random_position.
  change (seq 0 (Z.to_nat 1)) with [0%nat]. cbn [flat_map app Nat.mul Nat.add].
  unfold MDGWO.uniform, Scenario.pack_samples.
  f_equal; [field | f_equal; [lra | f_equal; lra]].
Qed.

Lemma pack_is_initial :
  exists s0,
    MDGWO.init 1 10 4 2 "linear" = Ok s0 /\
    MDGWO.initialize_population Scenario.pack_samples s0 = (Ok tt, Scenario.pack).
Proof.
  eexists. split; [reflexivity|].
  unfold MDGWO.initialize_population.
  erewrite mbind_ok by reflexivity. erewrite mbind_ok by reflexivity.
  cbn [MDGWO.population_size MDGWO.set_wolves].
  change (seq 0 (Z.to_nat 4)) with [0; 1; 2; 3]%nat. cbn [mfor].
  assert (Hbody : forall (i : nat) (x : R) (s : MDGWO.t),
            MDGWO.num_tasks s = 1%Z -> MDGWO.num_hosts s = 10%Z ->
            3 * INR i = x ->
            (self_num_tasks <-m mgets MDGWO.num_tasks ;;
             self_num_hosts <-m mgets MDGWO.num_hosts ;;
             (if decide (self_num_tasks < 0)%Z then mraise ValueError else mret tt) ;;m
             let position :=
               MDGWO.random_position self_num_tasks self_num_hosts
                 (Scenario.pack_samples i) in
             let wolf := Wolf.init position self_num_tasks self_num_hosts in
             mmodify (fun s => MDGWO.set_wolves (MDGWO.wolves s ++ [wolf]) s)) s
            = (Ok tt, MDGWO.set_wolves (MDGWO.wolves s ++ [Scenario.pack_wolf x]) s)).
  { intros i x s Ht Hh Hx. unfold mbind, mgets, mmodify. rewrite Ht, Hh.
    rewrite decide_False by lia. cbn [mret].
    by rewrite (pack_position i x Hx). }
  erewrite mbind_ok by (erewrite mbind_ok by (apply (Hbody 0%nat 0); [done..|simpl; lra]);
                        erewrite mbind_ok by (apply (Hbody 1%nat 3); [done..|simpl; lra]);
                        erewrite mbind_ok by (apply (Hbody 2%nat 6); [done..|simpl; lra]);
                        erewrite mbind_ok by (apply (Hbody 3%nat 9); [done..|simpl; lra]);
                        reflexivity).
  unfold MDGWO._update_leaders, mbind, mgets. cbn [MDGWO.wolves MDGWO.set_wolves app length seq].
  rewrite py_sorted_run; [done|].
  intros i x y Hx Hy.
  assert (Hkey : forall k, (k < 4)%nat ->
            default NaN (Wolf.fitness <$>
              [Scenario.pack_wolf 0; Scenario.pack_wolf 3;
               Scenario.pack_wolf 6; Scenario.pack_wolf 9] !! k) = PInf).
  { intros k Hk. by do 4 (destruct k as [|k]; [done|]); lia. }
  assert (Hx4 : (x < 4)%nat).
  { apply list_elem_of_lookup_2 in Hx.
    repeat (apply elem_of_cons in Hx as [->|Hx]; [lia|]). by apply elem_of_nil in Hx. }
  assert (Hy4 : (y < 4)%nat).
  { apply list_elem_of_lookup_2 in Hy.
    repeat (apply elem_of_cons in Hy as [->|Hy]; [lia|]). by apply elem_of_nil in Hy. }
  rewrite !Hkey by done. simpl. tauto.
Qed.

Lemma spiky_fitness_pure : Spec.position_pure Scenario.spiky_fitness.
Proof. intros w w' H. unfold Scenario.spiky_fitness. by rewrite H. Qed.

Lemma spiky_fitness_value (w : Wolf.t) (x : R) (rest : list R) :
  Wolf.position w = x :: rest ->
  Scenario.spiky_fitness w =
  if decide (x = 4) then NaN
  else if decide (x = 9) then Fin (1 / 2)
  else if decide (x = 0) then Fin 1
  else if decide (x = 3) then Fin 2
  else Fin 3.
Proof. intros H. unfold Scenario.spiky_fitness. by rewrite H. Qed.

Lemma evaluate_init (f : Wolf.t -> pyfloat) (p : list R) (nt nh : Z) (v : R) :
  f (Wolf.init p nt nh) = Fin v ->
  Spec.evaluate f (Wolf.init p nt nh) = Wolf.mk p nt nh (Fin v) p (Fin v).
Proof.
  intros Hf. unfold Spec.evaluate. rewrite Hf. cbn [Wolf.init Wolf.pbest_fitness].
  rewrite decide_True by done. done.
Qed.

Lemma clip_inside (x lo hi : R) : lo <= x <= hi -> clip x lo hi = x.
Proof.
  intros H. unfold clip, Rmin, Rmax. repeat destruct (Rle_dec _ _); lra.
Qed.

(** The history a generation leaves: one more entry, the fitness of the
    wolf ranked first. *)
Lemma generation_history (f : Wolf.t -> pyfloat) (iteration : Z) (s : MDGWO.t)
    (a : nat) (rest : list nat) (w : Wolf.t) :
  py_sorted (fun k => default NaN (Wolf.fitness <$>
                        map (Spec.evaluate f) (MDGWO.wolves s) !! k))
            (seq 0 (length (MDGWO.wolves s))) = a :: rest ->
  MDGWO.wolves s !! a = Some w ->
  MDGWO.best_fitness_history (snd (MDGWO.generation f iteration s))
  = MDGWO.best_fitness_history s ++ [f w].
Proof.
  intros Hsorted Hw. unfold MDGWO.generation.
  rewrite (mbind_ok _ _ _ _ _ (evaluate_all_value f s)).
  set (s1 := MDGWO.set_wolves (map (Spec.evaluate f) (MDGWO.wolves s)) s).
  set (b := default a ((a :: rest) !! 1%nat)).
  set (d := default a ((a :: rest) !! 2%nat)).
  assert (Hl : MDGWO._update_leaders s1
               = (Ok tt, MDGWO.set_leaders (Some a) (Some b) (Some d) s1)).
  { unfold MDGWO._update_leaders, mbind, mgets.
    change (MDGWO.wolves s1) with (map (Spec.evaluate f) (MDGWO.wolves s)).
    rewrite length_map, Hsorted. done. }
  rewrite (mbind_ok _ _ _ _ _ Hl).
  set (s2 := MDGWO.set_leaders (Some a) (Some b) (Some d) s1).
  assert (Hwa : MDGWO.wolves s2 !! a = Some (Spec.evaluate f w)).
  { change (MDGWO.wolves s2) with (map (Spec.evaluate f) (MDGWO.wolves s)).
    by rewrite lookup_map, Hw. }
  rewrite (mbind_ok _ _ _ _ _ (record_best_value s2 a _ eq_refl Hwa)).
  rewrite evaluate_fitness.
  set (s3 := MDGWO.set_history (MDGWO.best_fitness_history s2 ++ [f w]) s2).
  destruct (move_wolves_keeps_leader a iteration s3 eq_refl) as (Hsame & _).
  unfold mbind at 1.
  destruct (MDGWO.move_wolves iteration s3) as [r4 s4]. cbn [snd] in Hsame.
  destruct Hsame as (_&_&_&_&_&_&_&_&_&Hh).
  destruct r4 as [[]|e]; cbn [snd mmodify MDGWO.set_iteration
                               MDGWO.best_fitness_history]; by rewrite Hh.
Qed.

Lemma pack_evaluated :
  map (Spec.evaluate Scenario.spiky_fitness) (MDGWO.wolves Scenario.pack)
  = [Scenario.evaluated_wolf 0 1; Scenario.evaluated_wolf 3 2;
     Scenario.evaluated_wolf 6 3; Scenario.evaluated_wolf 9 (1 / 2)].
Proof.
  cbn [Scenario.pack MDGWO.wolves map]. unfold Scenario.pack_wolf.
  rewrite (evaluate_init _ [0; 1; 1] 1 10 1)
    by (erewrite spiky_fitness_value by reflexivity; by rdecide).
  rewrite (evaluate_init _ [3; 1; 1] 1 10 2)
    by (erewrite spiky_fitness_value by reflexivity; by rdecide).
  rewrite (evaluate_init _ [6; 1; 1] 1 10 3)
    by (erewrite spiky_fitness_value by reflexivity; by rdecide).
  rewrite (evaluate_init _ [9; 1; 1] 1 10 (1 / 2))
    by (erewrite spiky_fitness_value by reflexivity; by rdecide).
  done.
Qed.

Lemma pack_ranked :
  py_sorted
    (fun k => default NaN (Wolf.fitness <$>
       [Scenario.evaluated_wolf 0 1; Scenario.evaluated_wolf 3 2;
        Scenario.evaluated_wolf 6 3; Scenario.evaluated_wolf 9 (1 / 2)] !! k))
    [0; 1; 2; 3]%nat
  = [3; 0; 1; 2]%nat.
Proof.
  unfold py_sorted. cbn [foldr insert_by].
  change (default NaN (Wolf.fitness <$> _ !! 0%nat)) with (Fin 1).
  change (default NaN (Wolf.fitness <$> _ !! 1%nat)) with (Fin 2).
  change (default NaN (Wolf.fitness <$> _ !! 2%nat)) with (Fin 3).
  change (default NaN (Wolf.fitness <$> _ !! 3%nat)) with (Fin (1 / 2)).
  rdecide. cbn [insert_by]. rdecide. cbn [insert_by]. rdecide. cbn [insert_by].
  rdecide. done.
Qed.

Lemma move_third_wolf :
  MDGWO.update_wolf 2 0 Scenario.pack_before_move = (Ok tt, Scenario.pack_after_one).
Proof.
  unfold MDGWO.update_wolf.
  do 3 erewrite mbind_ok by reflexivity.
  cbn [Scenario.pack_before_move MDGWO.alpha MDGWO.beta MDGWO.delta].
  erewrite mbind_ok by (apply memory_coefficient_linear; done).
  do 3 erewrite mbind_ok by (apply deref_value; reflexivity).
  erewrite mbind_ok by (unfold mlift; rewrite np_zip_same_length by done; reflexivity).
  erewrite mbind_ok by (unfold mlift; rewrite np_zip_same_length by done; reflexivity).
  erewrite mbind_ok by (apply deref_value; reflexivity).
  erewrite mbind_ok by (unfold mlift; rewrite np_zip_same_length by done; reflexivity).
  erewrite mbind_ok by (unfold mlift; rewrite np_zip_same_length by done; reflexivity).
  erewrite mbind_ok by reflexivity.
  unfold MDGWO.on_wolf.
  erewrite mbind_ok by (apply deref_value; reflexivity).
  unfold mbind, mmodify, mlift. f_equal.
  unfold Scenario.pack_after_one, Scenario.pack_before_move, MDGWO.set_wolves.
  cbn [MDGWO.num_tasks MDGWO.num_hosts MDGWO.population_size MDGWO.max_iterations
       MDGWO.memory_decay MDGWO.wolves MDGWO.alpha MDGWO.beta MDGWO.delta
       MDGWO.iteration MDGWO.best_fitness_history insert list_insert].
  f_equal. do 2 f_equal.
  unfold Scenario.moved_wolf, Scenario.evaluated_wolf, Wolf.set_position.
  cbn [Wolf.position Wolf.num_tasks Wolf.num_hosts Wolf.fitness Wolf.pbest
       Wolf.pbest_fitness zip_with map imap].
  change (IZR (1 `max` 2)) with 2.
  assert (H0 : MDGWO.enforce_bound 10 0 ((9 + 0 + 3) / 3 + (1 - 0 / 2) * (6 - 6)) = 4).
  { unfold MDGWO.enforce_bound. rewrite decide_True by done.
    change (IZR (10 - 1)) with 9. rewrite clip_inside; lra. }
  assert (H1 : MDGWO.enforce_bound 10 1 ((1 + 1 + 1) / 3 + (1 - 0 / 2) * (1 - 1)) = 1).
  { unfold MDGWO.enforce_bound. rewrite decide_False by done.
    rewrite decide_True by done. rewrite clip_inside; lra. }
  assert (H2 : MDGWO.enforce_bound 10 2 ((1 + 1 + 1) / 3 + (1 - 0 / 2) * (1 - 1)) = 1).
  { unfold MDGWO.enforce_bound. rewrite decide_False by done.
    rewrite decide_False by done. rewrite clip_inside; lra. }
  unfold compose. rewrite H0, H1, H2. done.
Qed.

Lemma first_generation :
  MDGWO.generation Scenario.spiky_fitness 0 Scenario.pack
  = (Ok tt, Scenario.pack_after_one).
Proof.
  unfold MDGWO.generation.
  rewrite (mbind_ok _ _ _ _ _ (evaluate_all_value _ Scenario.pack)).
  rewrite pack_evaluated.
  erewrite mbind_ok.
  2:{ unfold MDGWO._update_leaders, mbind, mgets.
      cbn [MDGWO.wolves MDGWO.set_wolves length seq]. rewrite pack_ranked.
      reflexivity. }
  erewrite mbind_ok by (apply (record_best_value _ 3); reflexivity).
  change (MDGWO.set_history _ _) with Scenario.pack_before_move.
  assert (Hskip : forall (k : nat) (s : MDGWO.t),
            (Some k = MDGWO.alpha s \/ Some k = MDGWO.beta s \/
             Some k = MDGWO.delta s) ->
            (a <-m mgets MDGWO.alpha ;;
             b <-m mgets MDGWO.beta ;;
             d <-m mgets MDGWO.delta ;;
             if decide (Some k <> a /\ Some k <> b /\ Some k <> d)
             then MDGWO.update_wolf k 0
             else mret tt) s = (Ok tt, s)).
  { intros k s Hk. unfold mbind, mgets. rewrite decide_False; [done | tauto]. }
  assert (Hmove : MDGWO.move_wolves 0 Scenario.pack_before_move
                  = (Ok tt, Scenario.pack_after_one)).
  { unfold MDGWO.move_wolves. erewrite mbind_ok by reflexivity.
    cbn [Scenario.pack_before_move MDGWO.wolves length seq mfor].
    fold Scenario.pack_before_move.
    rewrite (mbind_ok _ _ _ _ _ (Hskip 0%nat Scenario.pack_before_move
                                   ltac:(right; left; reflexivity))).
    rewrite (mbind_ok _ _ _ _ _ (Hskip 1%nat Scenario.pack_before_move
                                   ltac:(right; right; reflexivity))).
    assert (Hthird :
              (a <-m mgets MDGWO.alpha ;;
               b <-m mgets MDGWO.beta ;;
               d <-m mgets MDGWO.delta ;;
               if decide (Some 2%nat <> a /\ Some 2%nat <> b /\ Some 2%nat <> d)
               then MDGWO.update_wolf 2 0
               else mret tt) Scenario.pack_before_move
              = (Ok tt, Scenario.pack_after_one)).
    { unfold mbind at 1 2 3. cbn [mgets Scenario.pack_before_move MDGWO.alpha
                                   MDGWO.beta MDGWO.delta].
      rewrite decide_True by (repeat split; discriminate).
      fold Scenario.pack_before_move. apply move_third_wolf. }
    rewrite (mbind_ok _ _ _ _ _ Hthird).
    rewrite (mbind_ok _ _ _ _ _ (Hskip 3%nat Scenario.pack_after_one
                                   ltac:(left; reflexivity))).
    reflexivity. }
  rewrite (mbind_ok _ _ _ _ _ Hmove). reflexivity.
Qed.

Lemma py_sorted_ext {A : Type} (key key' : A -> pyfloat) (l : list A) :
  (forall x, key x = key' x) -> py_sorted key l = py_sorted key' l.
Proof.
  intros H. induction l as [|x l IH]; [done|].
  cbn [py_sorted foldr]. fold (py_sorted key l) (py_sorted key' l). rewrite IH.
  generalize (py_sorted key' l). intros s. induction s as [|y s IHs]; [done|].
  cbn [insert_by]. rewrite !H, IHs. done.
Qed.

Lemma second_ranking :
  py_sorted
    (fun k => default NaN (Wolf.fitness <$>
       map (Spec.evaluate Scenario.spiky_fitness)
           (MDGWO.wolves Scenario.pack_after_one) !! k))
    (seq 0 (length (MDGWO.wolves Scenario.pack_after_one)))
  = [0; 1; 2; 3]%nat.
Proof.
  rewrite (py_sorted_ext _
             (fun k => default NaN (Scenario.spiky_fitness <$>
                         MDGWO.wolves Scenario.pack_after_one !! k))).
  2:{ intros k. rewrite lookup_map.
      destruct (MDGWO.wolves Scenario.pack_after_one !! k); [|done].
      apply evaluate_fitness. }
  apply py_sorted_run. intros i x y Hx Hy.
  assert (H0 : Scenario.spiky_fitness (Scenario.evaluated_wolf 0 1) = Fin 1)
    by (erewrite spiky_fitness_value by reflexivity; by rdecide).
  assert (H1 : Scenario.spiky_fitness (Scenario.evaluated_wolf 3 2) = Fin 2)
    by (erewrite spiky_fitness_value by reflexivity; by rdecide).
  assert (H2 : Scenario.spiky_fitness Scenario.moved_wolf = NaN)
    by (erewrite spiky_fitness_value by reflexivity; by rdecide).
  assert (H3 : Scenario.spiky_fitness (Scenario.evaluated_wolf 9 (1 / 2)) = Fin (1 / 2))
    by (erewrite spiky_fitness_value by reflexivity; by rdecide).
  destruct i as [|[|[|i]]]; cbn in Hx, Hy; simplify_eq; cbn [lookup list_lookup
    Scenario.pack_after_one MDGWO.wolves fmap option_fmap option_map default
    from_option id];
    rewrite ?H0, ?H1, ?H2, ?H3; simpl; first [lra | tauto].
Qed.

(** Under [spiky_fitness] the pack records 1/2 in the first generation and
    1 in the second. *)
Lemma spiky_history :
  MDGWO.best_fitness_history
    (snd (MDGWO.optimize Scenario.spiky_fitness Scenario.pack))
  = [Fin (1 / 2); Fin 1].
Proof.
  unfold MDGWO.optimize.
  erewrite mbind_ok by reflexivity. erewrite mbind_ok by reflexivity.
  change (MDGWO.set_history [] Scenario.pack) with Scenario.pack.
  change (seqZ 0 (MDGWO.max_iterations Scenario.pack)) with [0%Z; 1%Z].
  cbn [mfor]. unfold mbind at 1. rewrite (mbind_ok _ _ _ _ _ first_generation).
  pose proof (generation_history Scenario.spiky_fitness 1 Scenario.pack_after_one
                0 [1; 2; 3]%nat (Scenario.evaluated_wolf 0 1)
                second_ranking eq_refl) as Hh.
  rewrite (spiky_fitness_value _ 0 [1; 1]) in Hh by reflexivity.
  revert Hh. rdecide. intros Hh.
  unfold mbind.
  destruct (MDGWO.generation Scenario.spiky_fitness 1 Scenario.pack_after_one)
    as [[[]|e] s']; cbn [snd mret mgets] in *; [|done].
  destruct (MDGWO.alpha s'); done.
Qed.

Lemma spiky_history_increases : ~ Spec.non_increasing [Fin (1 / 2); Fin 1].
Proof.
  intros H. specialize (H 0%nat (Fin (1 / 2)) (Fin 1) eq_refl eq_refl).
  simpl in H. lra.
Qed.

(** The claim C3 as it is worded, for every fitness function that is a
    function of the position, fails: [spiky_fitness] returns NaN at the
    position the third wolf of [pack] moves to, [sorted] then leaves the
    population in its order, and the recorded best fitness goes from 1/2
    to 1. *)
Lemma best_fitness_history_regresses :
  ~ (forall (f : Wolf.t -> pyfloat) (s : MDGWO.t),
       Spec.position_pure f ->
       Spec.non_increasing
         (MDGWO.best_fitness_history (snd (MDGWO.optimize f s)))).
Proof.
  intros H. specialize (H Scenario.spiky_fitness Scenario.pack spiky_fitness_pure).
  rewrite spiky_history in H. by apply spiky_history_increases.
Qed.


(** * Further properties of the code *)

(** ** The topology *)

(** X1. A link lookup falls back on the reverse direction and then on a
    default, so it is symmetric exactly when the two directions, where both
    are stored, hold the same value. *)
Theorem link_lookup_symmetric (topology : FogCloudTopology.t) (a b : Z) :
  (FogCloudTopology.get_latency_ms topology a b
   = FogCloudTopology.get_latency_ms topology b a
   <-> forall x y,
         FogCloudTopology.network_latency_ms topology !! (a, b) = Some x ->
         FogCloudTopology.network_latency_ms topology !! (b, a) = Some y ->
         x = y) /\
  (FogCloudTopology.get_bandwidth_mbps topology a b
   = FogCloudTopology.get_bandwidth_mbps topology b a
   <-> forall x y,
         FogCloudTopology.network_bandwidth_mbps topology !! (a, b) = Some x ->
         FogCloudTopology.network_bandwidth_mbps topology !! (b, a) = Some y ->
         x = y).
Proof.
  unfold FogCloudTopology.get_latency_ms, FogCloudTopology.get_bandwidth_mbps.
  split.
  - destruct (FogCloudTopology.network_latency_ms topology !! (a, b)) as [x|] eqn:Hab,
             (FogCloudTopology.network_latency_ms topology !! (b, a)) as [y|] eqn:Hba;
      simpl; split; try done.
    + intros -> x' y' [= <-] [= <-]. reflexivity.
    + intros H. apply (H x y); reflexivity.
  - destruct (FogCloudTopology.network_bandwidth_mbps topology !! (a, b)) as [x|] eqn:Hab,
             (FogCloudTopology.network_bandwidth_mbps topology !! (b, a)) as [y|] eqn:Hba;
      simpl; split; try done.
    + intros -> x' y' [= <-] [= <-]. reflexivity.
    + intros H. apply (H x y); reflexivity.
Qed.

Lemma dict_of_snoc {A : Type} (key : A -> Z) (l : list A) (x : A) :
  FogCloudTopology.dict_of key (l ++ [x])
  = <[key x := x]> (FogCloudTopology.dict_of key l).
Proof. unfold FogCloudTopology.dict_of. by rewrite fold_left_app. Qed.

Lemma dict_of_lookup {A : Type} (key : A -> Z) (l : list A) (k : Z) :
  FogCloudTopology.dict_of key l !! k = last (filter (fun x => key x = k) l).
Proof.
  induction l as [|x l IH] using rev_ind; [done|].
  rewrite dict_of_snoc, filter_app, filter_cons, filter_nil.
  destruct (decide (key x = k)) as [->|Hne].
  - by rewrite lookup_insert_eq, last_snoc.
  - by rewrite lookup_insert_ne, app_nil_r.
Qed.

Lemma dict_of_is_Some {A : Type} (key : A -> Z) (l : list A) (k : Z) :
  is_Some (FogCloudTopology.dict_of key l !! k) <-> k ∈ map key l.
Proof.
  induction l as [|x l IH] using rev_ind.
  - unfold FogCloudTopology.dict_of. simpl. rewrite lookup_empty.
    split; [by intros [? ?]|]. by intros ?%elem_of_nil.
  - rewrite dict_of_snoc, map_app, elem_of_app. simpl.
    rewrite elem_of_cons, elem_of_nil.
    destruct (decide (key x = k)) as [->|Hne].
    + rewrite lookup_insert_eq. split; [intros _; right; by left | by eauto].
    + rewrite lookup_insert_ne by done. rewrite IH.
      split; [by left | intros [?|[?|[]]]; [done | congruence]].
Qed.

Lemma dict_of_size {A : Type} (key : A -> Z) (l : list A) :
  (size (FogCloudTopology.dict_of key l) <= length l)%nat /\
  (size (FogCloudTopology.dict_of key l) = length l <-> NoDup (map key l)).
Proof.
  induction l as [|x l [IHle IHeq]] using rev_ind.
  - unfold FogCloudTopology.dict_of. simpl. rewrite map_size_empty.
    split; [lia|]. split; [intros _; constructor | done].
  - rewrite dict_of_snoc, length_app, map_app. simpl.
    rewrite NoDup_app.
    destruct (FogCloudTopology.dict_of key l !! key x) as [y|] eqn:Hx.
    + rewrite map_size_insert_Some by eauto. split; [lia|].
      split; [lia|]. intros (_ & Hdis & _). exfalso.
      apply (Hdis (key x)); [|by left].
      apply dict_of_is_Some. by eexists.
    + rewrite map_size_insert_None by done. split; [lia|].
      rewrite <- IHeq. split.
      * intros Hs. split; [lia|]. split; [|apply NoDup_singleton].
        intros k Hk [->|[]%elem_of_nil]%elem_of_cons.
        apply dict_of_is_Some in Hk. rewrite Hx in Hk. by destruct Hk.
      * intros (Hs & _ & _). lia.
Qed.

(** X2. A topology finds a host by the id it was listed under: a fog node
    before a cloud data center of the same id, and of two hosts of one
    class with the same id the one listed later; an id that was not listed
    finds nothing. *)
Theorem get_host_of_listed (fogs : list FogNode.t) (clouds : list CloudDataCenter.t)
    (latency bandwidth : gmap (Z * Z) R) (id : Z) :
  FogCloudTopology.get_host (FogCloudTopology.init fogs clouds latency bandwidth) id
  = match last (filter (fun n => FogNode.node_id n = id) fogs) with
    | Some n => Some (HFog n)
    | None =>
        HCloud <$> last (filter (fun c => CloudDataCenter.center_id c = id) clouds)
    end.
Proof.
  unfold FogCloudTopology.get_host, FogCloudTopology.init. simpl.
  rewrite !dict_of_lookup.
  destruct (last (filter _ fogs)); [done|].
  by destruct (last (filter _ clouds)).
Qed.

(** X3. [num_fog] and [num_cloud] count the lists the topology was built
    from, not the hosts it stores: they are never smaller than the number
    of stored hosts and equal it exactly when the ids are distinct. *)
Theorem host_counts_of_listed (fogs : list FogNode.t)
    (clouds : list CloudDataCenter.t) (latency bandwidth : gmap (Z * Z) R) :
  let topology := FogCloudTopology.init fogs clouds latency bandwidth in
  (size (FogCloudTopology.fog_nodes topology)
   <= FogCloudTopology.num_fog topology)%nat /\
  (size (FogCloudTopology.fog_nodes topology) = FogCloudTopology.num_fog topology
   <-> NoDup (map FogNode.node_id fogs)) /\
  (size (FogCloudTopology.cloud_datacenters topology)
   <= FogCloudTopology.num_cloud topology)%nat /\
  (size (FogCloudTopology.cloud_datacenters topology)
   = FogCloudTopology.num_cloud topology
   <-> NoDup (map CloudDataCenter.center_id clouds)).
Proof.
  simpl.
  destruct (dict_of_size FogNode.node_id fogs) as [Hf1 Hf2].
  destruct (dict_of_size CloudDataCenter.center_id clouds) as [Hc1 Hc2].
  by repeat split; try apply Hf2; try apply Hc2.
Qed.

(** ** Replication *)

Lemma failure_product_scale (ps : list R) (x : R) :
  fold_left (fun fp p => fp * (1 - p)) ps x
  = x * fold_left (fun fp p => fp * (1 - p)) ps 1.
Proof.
  revert x. induction ps as [|p ps IH]; intros x; simpl; [lra|].
  rewrite (IH (x * (1 - p))), (IH (1 * (1 - p))). ring.
Qed.

Lemma failure_product_below (ps : list R) (p : R) :
  Forall (fun p => 0 <= p <= 1) ps -> p ∈ ps ->
  fold_left (fun fp p => fp * (1 - p)) ps 1 <= 1 - p.
Proof.
  induction ps as [|p0 ps IH]; intros Hall Hin; [by apply elem_of_nil in Hin|].
  apply Forall_cons in Hall as [Hp0 Hall]. simpl.
  rewrite failure_product_scale.
  pose proof (failure_product_bounds ps 1 Hall ltac:(lra)) as Hb.
  apply elem_of_cons in Hin as [->|Hin].
  - nra.
  - specialize (IH Hall Hin). nra.
Qed.

Lemma replicated_success_above (ps : list R) (p : R) :
  Forall (fun p => 0 <= p <= 1) ps -> p ∈ ps -> p <= Spec.replicated_success ps.
Proof.
  intros Hall Hp. unfold Spec.replicated_success.
  destruct ps as [|p0 ps]; [by apply elem_of_nil in Hp|].
  pose proof (failure_product_below _ p Hall Hp). lra.
Qed.

Lemma replicated_success_snoc (ps : list R) (q : R) :
  Forall (fun p => 0 <= p <= 1) ps -> 0 <= q <= 1 ->
  Spec.replicated_success ps <= Spec.replicated_success (ps ++ [q]).
Proof.
  intros Hall Hq. unfold Spec.replicated_success.
  destruct ps as [|p0 ps]; [simpl; lra|].
  rewrite <- app_comm_cons. cbn [fold_left]. rewrite fold_left_app.
  cbn [fold_left].
  pose proof (failure_product_bounds (p0 :: ps) 1 Hall ltac:(lra)) as Hb.
  cbn [fold_left] in Hb. nra.
Qed.

(** X4. For replica success probabilities in [0, 1] the success
    probability of the task is at least that of every replica and at most
    1, and one more replica never lowers it. *)
Theorem replication_never_hurts (ps : list R) (q : R) :
  Forall (fun p => 0 <= p <= 1) ps -> 0 <= q <= 1 ->
  exists v v' : R,
    ReliabilityModel.task_success_with_replication (map Fin ps) = Fin v /\
    ReliabilityModel.task_success_with_replication (map Fin (ps ++ [q])) = Fin v' /\
    (forall p, p ∈ ps -> p <= v) /\
    v <= v' /\ q <= v' /\ v' <= 1.
Proof.
  intros Hall Hq.
  assert (Hall' : Forall (fun p => 0 <= p <= 1) (ps ++ [q])).
  { apply Forall_app. split; [done|]. by apply Forall_singleton. }
  exists (Spec.replicated_success ps), (Spec.replicated_success (ps ++ [q])).
  rewrite !task_success_finite.
  split; [done|]. split; [done|].
  split; [intros p Hp; by apply replicated_success_above|].
  split; [by apply replicated_success_snoc|].
  split; [|apply (replicated_success_bounds _ Hall')].
  apply replicated_success_above; [done|].
  apply elem_of_app. right. by left.
Qed.

Lemma replication_never_hurts_witness :
  exists v v' : R,
    ReliabilityModel.task_success_with_replication (map Fin [1 / 2]) = Fin v /\
    ReliabilityModel.task_success_with_replication (map Fin ([1 / 2] ++ [1 / 2]))
    = Fin v' /\
    (forall p, p ∈ [1 / 2] -> p <= v) /\
    v <= v' /\ 1 / 2 <= v' /\ v' <= 1.
Proof.
  apply (replication_never_hurts [1 / 2] (1 / 2)).
  - apply Forall_singleton. lra.
  - lra.
Defined.

(** ** Energy *)

Lemma for_each_app {A S : Type} (body : S -> A -> result S) (l1 l2 : list A)
    (s : S) :
  for_each body (l1 ++ l2) s = (s' <-r for_each body l1 s ;; for_each body l2 s').
Proof.
  revert s. induction l1 as [|x l1 IH]; intros s; simpl; [done|].
  destruct (body s x); simpl; [apply IH | done].
Qed.

(** A loop nested in a loop is a loop over the pairs. *)
Lemma for_each_flat_map {A B S : Type} (body : S -> B -> result S)
    (g : A -> list B) (l : list A) (s : S) :
  for_each (fun s x => for_each body (g x) s) l s
  = for_each body (flat_map g l) s.
Proof.
  revert s. induction l as [|x l IH]; intros s; simpl; [done|].
  rewrite for_each_app.
  destruct (for_each body (g x) s); simpl; [apply IH | done].
Qed.

Lemma for_each_ext {A S : Type} (body body' : S -> A -> result S) (l : list A)
    (s : S) :
  (forall s x, x ∈ l -> body s x = body' s x) ->
  for_each body l s = for_each body' l s.
Proof.
  revert s. induction l as [|x l IH]; intros s H; simpl; [done|].
  rewrite H by (by left).
  destruct (body' s x); simpl; [|done].
  apply IH. intros s' y Hy. apply H. by right.
Qed.

Lemma energy_consumption_placements (O : ObjectiveFunction.t)
    (schedule : Schedule.t) :
  Objectives.energy_consumption O schedule
  = for_each (Notions.energy_step O schedule) (Spec.placements O schedule) (Fin 0).
Proof.
  unfold Objectives.energy_consumption, Spec.placements.
  rewrite <- for_each_flat_map.
  apply for_each_ext. intros s task _.
  destruct (Schedule.assignments schedule !! Task.task_id task) as [a|] eqn:Ha;
    [|done].
  generalize (Schedule.nodes a). intros ns. revert s.
  induction ns as [|n ns IH]; intros s; [done|].
  cbn [map for_each].
  match goal with
  | |- rbind ?m _ = _ =>
      assert (Hstep : m = Notions.energy_step O schedule s (n, task))
  end.
  { unfold Notions.energy_step. cbn [fst snd]. by rewrite Ha. }
  rewrite Hstep.
  destruct (Notions.energy_step O schedule s (n, task)); simpl; [apply IH | done].
Qed.

Lemma placements_elem (O : ObjectiveFunction.t) (schedule : Schedule.t)
    (n : Z) (task : Task.t) :
  (n, task) ∈ Spec.placements O schedule
  <-> task ∈ ObjectiveFunction.tasks O /\
      exists a, Schedule.assignments schedule !! Task.task_id task = Some a /\
                n ∈ Schedule.nodes a.
Proof.
  unfold Spec.placements. rewrite list_elem_of_In, in_flat_map. split.
  - intros (task' & Ht & Hin).
    destruct (Schedule.assignments schedule !! Task.task_id task') as [a|] eqn:Ha;
      [|done].
    apply in_map_iff in Hin as (n' & [= -> ->] & Hn).
    split; [by apply list_elem_of_In|].
    exists a. split; [done | by apply list_elem_of_In].
  - intros (Ht & a & Ha & Hn). exists task.
    split; [by apply list_elem_of_In|]. rewrite Ha.
    apply in_map_iff. exists n. split; [done | by apply list_elem_of_In].
Qed.

Lemma energy_step_cases (O : ObjectiveFunction.t) (schedule : Schedule.t)
    (total : pyfloat) (p : Z * Task.t) :
  p ∈ Spec.placements O schedule ->
  if Notions.on_cloud (ObjectiveFunction.topology O) (fst p)
  then Notions.energy_step O schedule total p = Raise AttributeError
  else exists v, Notions.energy_step O schedule total p = Ok v.
Proof.
  destruct p as [n task]. intros (_ & a & Ha & _)%placements_elem.
  unfold Notions.energy_step, Notions.on_cloud. cbn [fst snd]. rewrite Ha.
  destruct (FogCloudTopology.get_host _ n) as [[node|c]|]; [| |by eexists].
  - rewrite task_execution_time_value, total_transfer_time_value.
    cbn [rbind EnergyModel.computation_energy host_tx_power_w host_rx_power_w].
    by eexists.
  - by rewrite task_execution_time_value.
Qed.

(** X5. [energy_consumption] raises [AttributeError] when a replica of an
    assigned task is on a cloud data center, which has no power model, and
    returns for every other schedule. *)
Theorem energy_consumption_needs_fog (O : ObjectiveFunction.t)
    (schedule : Schedule.t) :
  if Notions.uses_cloud O schedule
  then Objectives.energy_consumption O schedule = Raise AttributeError
  else exists v, Objectives.energy_consumption O schedule = Ok v.
Proof.
  rewrite energy_consumption_placements. unfold Notions.uses_cloud.
  pose proof (energy_step_cases O schedule) as Hstep.
  revert Hstep. generalize (Fin 0).
  induction (Spec.placements O schedule) as [|p pl IH]; intros total Hstep.
  - simpl. by eexists.
  - cbn [existsb for_each].
    pose proof (Hstep total p ltac:(by left)) as Hp.
    destruct (Notions.on_cloud _ (fst p)).
    + by rewrite Hp.
    + destruct Hp as [v ->]. cbn [orb rbind]. apply IH.
      intros total' p' Hp'. apply Hstep. by right.
Qed.

Lemma energy_step_fog (O : ObjectiveFunction.t) (schedule : Schedule.t)
    (x : R) (p : Z * Task.t) :
  Notions.fog_placements O schedule ->
  p ∈ Spec.placements O schedule ->
  Notions.energy_step O schedule (Fin x) p
  = Ok (Fin (x + Notions.placement_energy O schedule p)).
Proof.
  destruct p as [n task]. intros Hfog Hp.
  pose proof Hp as (_ & a & Ha & _)%placements_elem.
  unfold Notions.energy_step, Notions.placement_energy. cbn [fst snd]. rewrite Ha.
  destruct (FogCloudTopology.get_host _ n) as [host|] eqn:Hhost;
    [|apply Ok_Fin_eq; lra].
  destruct (Hfog n task host Hp Hhost) as ([node ->] & Hcpu & Hbw).
  rewrite task_execution_time_value, total_transfer_time_value.
  rewrite !decide_True by done.
  cbn [rbind EnergyModel.computation_energy host_tx_power_w host_rx_power_w
       EnergyModel.communication_energy fl_mul fl_add host_cpu_mips].
  apply Ok_Fin_eq. unfold Notions.replica_energy. lra.
Qed.

(** X6. When every replica that resolves to a host is on a fog node with a
    positive processing rate, reached over a link of positive bandwidth,
    the total energy is the sum over the replicas of
    [P(f) * W / cpu + (tx + rx) * 2 * T_in]; a replica on a node id the
    topology does not know adds nothing. *)
Theorem energy_consumption_formula (O : ObjectiveFunction.t)
    (schedule : Schedule.t) :
  Notions.fog_placements O schedule ->
  Objectives.energy_consumption O schedule
  = Ok (Fin (Spec.Rsum (map (Notions.placement_energy O schedule)
                            (Spec.placements O schedule)))).
Proof.
  intros Hfog. rewrite energy_consumption_placements.
  enough (H : forall l x,
             (forall p, p ∈ l -> p ∈ Spec.placements O schedule) ->
             for_each (Notions.energy_step O schedule) l (Fin x)
             = Ok (Fin (x + Spec.Rsum (map (Notions.placement_energy O schedule) l)))).
  { rewrite (H _ 0) by done. apply Ok_Fin_eq. lra. }
  induction l as [|p l IH]; intros x Hl.
  - simpl. apply Ok_Fin_eq. lra.
  - cbn [for_each map]. rewrite energy_step_fog by (done || apply Hl; by left).
    cbn [rbind]. rewrite IH by (intros p' Hp'; apply Hl; by right).
    apply Ok_Fin_eq. unfold Spec.Rsum. simpl. lra.
Qed.

Lemma crowded_fog_placements :
  Notions.fog_placements Scenario.crowded_objective Scenario.all_on_node_one.
Proof.
  intros n task host Hp Hhost.
  apply placements_elem in Hp as (Htask & a & Ha & Hn).
  destruct (crowded_all_on task Htask) as (a' & Ha' & Hnodes).
  rewrite Ha in Ha'. injection Ha' as <-. rewrite Hnodes in Hn.
  apply elem_of_cons in Hn as [->|[]%elem_of_nil].
  rewrite crowded_host in Hhost. injection Hhost as <-.
  split; [by eexists|]. split; [cbn; lra|].
  unfold FogCloudTopology.get_bandwidth_mbps. cbn. rewrite !lookup_empty.
  cbn. lra.
Qed.

Lemma energy_consumption_formula_witness :
  Objectives.energy_consumption Scenario.crowded_objective Scenario.all_on_node_one
  = Ok (Fin (Spec.Rsum
               (map (Notions.placement_energy Scenario.crowded_objective
                       Scenario.all_on_node_one)
                    (Spec.placements Scenario.crowded_objective
                       Scenario.all_on_node_one)))).
Proof.
  apply (energy_consumption_formula Scenario.crowded_objective
           Scenario.all_on_node_one).
  apply crowded_fog_placements.
Defined.

(** ** The schedule that assigns nothing *)

Lemma filter_all {A : Type} (P : A -> Prop) `{!forall x, Decision (P x)}
    (l : list A) :
  (forall x, x ∈ l -> P x) -> filter P l = l.
Proof.
  induction l as [|x l IH]; intros Hall; [done|].
  rewrite filter_cons_True by (apply Hall; by left).
  f_equal. apply IH. intros y Hy. apply Hall. by right.
Qed.

Lemma placements_unassigned (O : ObjectiveFunction.t) (schedule : Schedule.t) :
  (forall task, task ∈ ObjectiveFunction.tasks O ->
     Schedule.assignments schedule !! Task.task_id task = None) ->
  Spec.placements O schedule = [].
Proof.
  intros Hnone. destruct (Spec.placements O schedule) as [|[n task] pl] eqn:E;
    [done|].
  assert (Hin : (n, task) ∈ Spec.placements O schedule) by (rewrite E; by left).
  apply placements_elem in Hin as (Ht & a & Ha & _).
  rewrite (Hnone task Ht) in Ha. done.
Qed.

Lemma reliability_violations_unassigned (O : ObjectiveFunction.t)
    (schedule : Schedule.t) (c : R) (l : list Task.t) (x : R) :
  ObjectiveFunction.penalties O !! "reliability" = Some c ->
  (forall task, task ∈ l ->
     Schedule.assignments schedule !! Task.task_id task = None) ->
  for_each
    (fun penalty task =>
       if decide (Task.criticality task = 0%Z) then Ok penalty
       else
         match Schedule.assignments schedule !! Task.task_id task with
         | None =>
             c <-r ObjectiveFunction.penalty_coeff O "reliability" ;;
             Ok (fl_add penalty (Fin c))
         | Some assignment =>
             success_probs <-r
               ObjectiveFunction.replica_success_probs O task assignment [] ;;
             let task_success :=
               ReliabilityModel.task_success_with_replication success_probs in
             if decide (fl_lt task_success (Fin ObjectiveFunction.min_reliability))
             then c <-r ObjectiveFunction.penalty_coeff O "reliability" ;;
                  Ok (fl_add penalty
                        (fl_mul (Fin c)
                           (fl_sub (Fin ObjectiveFunction.min_reliability)
                                   task_success)))
             else Ok penalty
         end)
    l (Fin x)
  = Ok (Fin (x + c * INR (length (filter (fun t => Task.criticality t <> 0%Z) l)))).
Proof.
  intros Hc. rewrite (penalty_coeff_some _ _ _ Hc). cbn [rbind].
  revert x. induction l as [|task l IH]; intros x Hnone.
  - simpl. apply Ok_Fin_eq. lra.
  - cbn [for_each]. rewrite (Hnone task) by (by left).
    assert (Hl : forall t, t ∈ l ->
                   Schedule.assignments schedule !! Task.task_id t = None).
    { intros t Ht. apply Hnone. by right. }
    destruct (decide (Task.criticality task = 0%Z)) as [Hz|Hnz]; cbn [rbind fl_add].
    + rewrite IH by done. rewrite filter_cons_False by (intros H; by apply H).
      done.
    + rewrite IH by done. rewrite filter_cons_True by done.
      apply Ok_Fin_eq. cbn [length]. rewrite S_INR. lra.
Qed.

Lemma system_reliability_unassigned (O : ObjectiveFunction.t)
    (schedule : Schedule.t) :
  (forall task, task ∈ ObjectiveFunction.tasks O ->
     Schedule.assignments schedule !! Task.task_id task = None) ->
  ObjectiveFunction.system_reliability O schedule = Ok (Fin 0).
Proof.
  intros Hnone. unfold ObjectiveFunction.system_reliability.
  destruct (ObjectiveFunction.tasks O) as [|t ts] eqn:E; [done|].
  cbv iota. rewrite <- E in Hnone |- *.
  assert (Hloop : forall l x,
            (forall task, task ∈ l ->
               Schedule.assignments schedule !! Task.task_id task = None) ->
            for_each
              (fun total task =>
                 match Schedule.assignments schedule !! Task.task_id task with
                 | None => Ok (fl_add total (Fin 0))
                 | Some assignment =>
                     success_probs <-r
                       ObjectiveFunction.replica_success_probs O task assignment
                         [Fin 0] ;;
                     Ok (fl_add total
                           (ReliabilityModel.task_success_with_replication
                              success_probs))
                 end) l (Fin x) = Ok (Fin x)).
  { induction l as [|task l IH]; intros x Hl; [done|].
    cbn [for_each]. rewrite (Hl task) by (by left). cbn [rbind fl_add].
    replace (x + 0) with x by lra. apply IH. intros t' Ht'. apply Hl. by right. }
  rewrite Hloop by done. cbn [rbind fl_div].
  rewrite decide_False.
  - apply Ok_Fin_eq. unfold Rdiv. lra.
  - rewrite E. cbn [length]. rewrite S_INR. pose proof (pos_INR (length ts)). lra.
Qed.

Lemma penalty_function_unassigned (O : ObjectiveFunction.t)
    (schedule : Schedule.t) (c_deadline c_reliability : R) :
  (forall task, task ∈ ObjectiveFunction.tasks O ->
     Schedule.assignments schedule !! Task.task_id task = None) ->
  ObjectiveFunction.penalties O !! "deadline" = Some c_deadline ->
  ObjectiveFunction.penalties O !! "reliability" = Some c_reliability ->
  ObjectiveFunction.penalty_function O schedule
  = Ok (Fin (c_deadline * INR (length (ObjectiveFunction.tasks O))
             + c_reliability
               * INR (length (filter (fun t => Task.criticality t <> 0%Z)
                                     (ObjectiveFunction.tasks O))))).
Proof.
  intros Hnone Hdl Hrel.
  unfold ObjectiveFunction.penalty_function, ObjectiveFunction.cpu_violations,
    ObjectiveFunction.memory_violations.
  rewrite !load_by_node_placements, (placements_unassigned _ _ Hnone).
  cbn [fold_left ObjectiveFunction.overload_penalty for_each rbind].
  rewrite (deadline_violations_counts O schedule c_deadline Hdl).
  2:{ intros task a n Ht Ha. rewrite (Hnone task Ht) in Ha. done. }
  cbn [rbind]. unfold ObjectiveFunction.reliability_violations.
  rewrite (reliability_violations_unassigned O schedule c_reliability) by done.
  apply Ok_Fin_eq.
  rewrite filter_all; [lra|].
  intros task Ht. unfold Spec.deadline_hit. by rewrite (Hnone task Ht).
Qed.

(** X7. For a schedule that assigns none of the tasks, the energy and the
    reliability are 0, and the penalty and the fitness are the deadline
    coefficient once per task plus the reliability coefficient once per
    critical task. *)
Theorem objectives_of_unassigned (O : ObjectiveFunction.t) (schedule : Schedule.t)
    (c_deadline c_reliability : R) :
  (forall task, task ∈ ObjectiveFunction.tasks O ->
     Schedule.assignments schedule !! Task.task_id task = None) ->
  ObjectiveFunction.penalties O !! "deadline" = Some c_deadline ->
  ObjectiveFunction.penalties O !! "reliability" = Some c_reliability ->
  let missed :=
    c_deadline * INR (length (ObjectiveFunction.tasks O))
    + c_reliability
      * INR (length (filter (fun t => Task.criticality t <> 0%Z)
                            (ObjectiveFunction.tasks O))) in
  Objectives.energy_consumption O schedule = Ok (Fin 0) /\
  ObjectiveFunction.system_reliability O schedule = Ok (Fin 0) /\
  ObjectiveFunction.penalty_function O schedule = Ok (Fin missed) /\
  Objectives.fitness O schedule = Ok (Fin missed).
Proof.
  intros Hnone Hdl Hrel missed.
  assert (Henergy : Objectives.energy_consumption O schedule = Ok (Fin 0)).
  { rewrite energy_consumption_placements.
    by rewrite (placements_unassigned _ _ Hnone). }
  pose proof (penalty_function_unassigned O schedule _ _ Hnone Hdl Hrel)
    as Hpenalty.
  split; [done|]. split; [by apply system_reliability_unassigned|].
  split; [done|].
  unfold Objectives.fitness.
  rewrite Henergy, (system_reliability_unassigned _ _ Hnone), Hpenalty.
  cbn [rbind fl_mul fl_sub fl_add fl_neg]. apply Ok_Fin_eq. unfold missed. lra.
Qed.

Lemma objectives_of_unassigned_witness :
  let missed :=
    100000 * INR (length (ObjectiveFunction.tasks Scenario.slow_objective))
    + 100000
      * INR (length (filter (fun t => Task.criticality t <> 0%Z)
                            (ObjectiveFunction.tasks Scenario.slow_objective))) in
  Objectives.energy_consumption Scenario.slow_objective (Schedule.init 1 1)
  = Ok (Fin 0) /\
  ObjectiveFunction.system_reliability Scenario.slow_objective (Schedule.init 1 1)
  = Ok (Fin 0) /\
  ObjectiveFunction.penalty_function Scenario.slow_objective (Schedule.init 1 1)
  = Ok (Fin missed) /\
  Objectives.fitness Scenario.slow_objective (Schedule.init 1 1) = Ok (Fin missed).
Proof.
  apply (objectives_of_unassigned Scenario.slow_objective (Schedule.init 1 1)
           100000 100000).
  - intros task _. apply lookup_empty.
  - reflexivity.
  - reflexivity.
Defined.

(** ** The penalty is never negative *)

Lemma for_each_invariant {A S : Type} (I : S -> Prop) (body : S -> A -> result S)
    (l : list A) (s s' : S) :
  (forall s x s', x ∈ l -> I s -> body s x = Ok s' -> I s') ->
  I s -> for_each body l s = Ok s' -> I s'.
Proof.
  revert s. induction l as [|x l IH]; intros s Hbody Hs Hrun.
  - simpl in Hrun. by injection Hrun as <-.
  - cbn [for_each] in Hrun. destruct (body s x) as [s1|e] eqn:Hx; [|done].
    cbn [rbind] in Hrun. apply (IH s1); [|by eapply Hbody; [left|..]|done].
    intros s2 y s3 Hy. apply Hbody. by right.
Qed.

Lemma fl_le_add (x y : R) (p q : pyfloat) :
  fl_le (Fin x) p -> fl_le (Fin y) q -> fl_le (Fin (x + y)) (fl_add p q).
Proof. destruct p, q; simpl; try done; lra. Qed.

Lemma fl_le_add_nonneg (x : R) (p q : pyfloat) :
  fl_le (Fin x) p -> fl_le (Fin 0) q -> fl_le (Fin x) (fl_add p q).
Proof. destruct p, q; simpl; try done; lra. Qed.

Lemma with_tasks_same (O : ObjectiveFunction.t) :
  Notions.with_tasks O (ObjectiveFunction.tasks O) = O.
Proof. by destruct O. Qed.

Lemma penalty_coeff_positive (O : ObjectiveFunction.t) (key : string) (c : R) :
  Notions.positive_coefficients O ->
  ObjectiveFunction.penalty_coeff O key = Ok c -> 0 < c.
Proof.
  intros Hpos. unfold ObjectiveFunction.penalty_coeff.
  destruct (ObjectiveFunction.penalties O !! key) as [c'|] eqn:Hk; [|done].
  intros [= <-]. by eapply Hpos.
Qed.

Lemma overload_penalty_bound (O : ObjectiveFunction.t) (key : string)
    (capacity : Host -> R) (load : list (Z * R)) (x : R) (p p' : pyfloat) :
  Notions.positive_coefficients O ->
  fl_le (Fin x) p ->
  ObjectiveFunction.overload_penalty O key capacity load p = Ok p' ->
  fl_le (Fin x) p'.
Proof.
  intros Hpos Hp. unfold ObjectiveFunction.overload_penalty.
  apply (for_each_invariant (fl_le (Fin x))); [|done].
  intros s [node_id load_x] s' _ Hs.
  destruct (FogCloudTopology.get_host _ node_id) as [host|]; [|by intros [= <-]].
  unfold py_div. destruct (decide (capacity host = 0)); [done|]. cbn [rbind].
  destruct (decide (1 < load_x / capacity host)) as [Hu|_]; [|by intros [= <-]].
  destruct (ObjectiveFunction.penalty_coeff O key) as [c|] eqn:Hc; [|done].
  cbn [rbind]. intros [= <-].
  apply penalty_coeff_positive in Hc; [|done].
  apply fl_le_add_nonneg; [done|]. simpl. nra.
Qed.

Lemma deadline_violations_bound (O : ObjectiveFunction.t) (schedule : Schedule.t)
    (l : list Task.t) (x : R) (p p' : pyfloat) :
  Notions.positive_coefficients O ->
  fl_le (Fin x) p ->
  ObjectiveFunction.deadline_violations (Notions.with_tasks O l) schedule p
  = Ok p' ->
  fl_le (Fin x) p'.
Proof.
  intros Hpos Hp. unfold ObjectiveFunction.deadline_violations.
  cbn [Notions.with_tasks ObjectiveFunction.tasks ObjectiveFunction.topology].
  apply (for_each_invariant (fl_le (Fin x))); [|done].
  intros s task s' _ Hs.
  assert (Hadd : forall r,
            (c <-r ObjectiveFunction.penalty_coeff
                     (ObjectiveFunction.mk (ObjectiveFunction.topology O) l
                        (ObjectiveFunction.beta_energy O)
                        (ObjectiveFunction.beta_reliability O)
                        (ObjectiveFunction.penalties O)) "deadline" ;;
             Ok (fl_add s (Fin c))) = Ok r -> fl_le (Fin x) r).
  { intros r.
    destruct (ObjectiveFunction.penalty_coeff _ "deadline") as [c|] eqn:Hc; [|done].
    cbn [rbind]. intros [= <-].
    apply (penalty_coeff_positive (Notions.with_tasks O l)) in Hc; [|done].
    apply fl_le_add_nonneg; [done|]. simpl. lra. }
  destruct (Schedule.assignments schedule !! Task.task_id task) as [a|];
    [|apply Hadd].
  destruct (ObjectiveFunction.truthy _); [|by intros [= <-]].
  destruct (NetworkModel.task_total_time _ _ _ _ _) as [total|]; [|done].
  cbn [rbind]. destruct (decide _); [apply Hadd | by intros [= <-]].
Qed.

Lemma deadline_violations_app (O : ObjectiveFunction.t) (schedule : Schedule.t)
    (l1 l2 : list Task.t) (p : pyfloat) :
  ObjectiveFunction.deadline_violations (Notions.with_tasks O (l1 ++ l2)) schedule p
  = (p1 <-r ObjectiveFunction.deadline_violations (Notions.with_tasks O l1)
              schedule p ;;
     ObjectiveFunction.deadline_violations (Notions.with_tasks O l2) schedule p1).
Proof.
  unfold ObjectiveFunction.deadline_violations.
  cbn [Notions.with_tasks ObjectiveFunction.tasks ObjectiveFunction.topology].
  apply for_each_app.
Qed.

Lemma deadline_violations_missing (O : ObjectiveFunction.t)
    (schedule : Schedule.t) (task : Task.t) (c x : R) (p p' : pyfloat) :
  Notions.positive_coefficients O ->
  ObjectiveFunction.penalties O !! "deadline" = Some c ->
  task ∈ ObjectiveFunction.tasks O ->
  Schedule.assignments schedule !! Task.task_id task = None ->
  fl_le (Fin x) p ->
  ObjectiveFunction.deadline_violations O schedule p = Ok p' ->
  fl_le (Fin (x + c)) p'.
Proof.
  intros Hpos Hc Hin Hnone Hp.
  rewrite <- (with_tasks_same O) at 1.
  apply list_elem_of_split in Hin as (l1 & l2 & ->).
  rewrite deadline_violations_app.
  destruct (ObjectiveFunction.deadline_violations (Notions.with_tasks O l1)
              schedule p) as [p1|] eqn:H1; [|done].
  cbn [rbind].
  apply deadline_violations_bound with (x := x) in H1; [|done..].
  change (task :: l2) with ([task] ++ l2). rewrite deadline_violations_app.
  unfold ObjectiveFunction.deadline_violations at 1.
  cbn [Notions.with_tasks ObjectiveFunction.tasks for_each]. rewrite Hnone.
  unfold ObjectiveFunction.penalty_coeff.
  cbn [Notions.with_tasks ObjectiveFunction.penalties]. rewrite Hc.
  cbn [rbind]. intros H2. eapply deadline_violations_bound; [done| |exact H2].
  apply fl_le_add; [done|]. simpl. lra.
Qed.

Lemma reliability_shortfall_nonneg (c m : R) (task_success : pyfloat) :
  0 < c -> fl_lt task_success (Fin m) ->
  fl_le (Fin 0) (fl_mul (Fin c) (fl_sub (Fin m) task_success)).
Proof.
  intros Hc. destruct task_success as [t| | |]; simpl; try done.
  - intros Ht. nra.
  - intros _. unfold fl_scale_inf. by rewrite decide_True.
Qed.

Lemma reliability_violations_bound (O : ObjectiveFunction.t)
    (schedule : Schedule.t) (x : R) (p p' : pyfloat) :
  Notions.positive_coefficients O ->
  fl_le (Fin x) p ->
  ObjectiveFunction.reliability_violations O schedule p = Ok p' ->
  fl_le (Fin x) p'.
Proof.
  intros Hpos Hp. unfold ObjectiveFunction.reliability_violations.
  apply (for_each_invariant (fl_le (Fin x))); [|done].
  intros s task s' _ Hs.
  destruct (decide (Task.criticality task = 0%Z)); [by intros [= <-]|].
  destruct (Schedule.assignments schedule !! Task.task_id task) as [a|].
  - destruct (ObjectiveFunction.replica_success_probs O task a []) as [ps|];
      [|done].
    cbn [rbind]. destruct (decide _) as [Hlt|_]; [|by intros [= <-]].
    destruct (ObjectiveFunction.penalty_coeff O "reliability") as [c|] eqn:Hc;
      [|done].
    cbn [rbind]. intros [= <-].
    apply penalty_coeff_positive in Hc; [|done].
    apply fl_le_add_nonneg; [done|]. by apply reliability_shortfall_nonneg.
  - destruct (ObjectiveFunction.penalty_coeff O "reliability") as [c|] eqn:Hc;
      [|done].
    cbn [rbind]. intros [= <-].
    apply penalty_coeff_positive in Hc; [|done].
    apply fl_le_add_nonneg; [done|]. simpl. lra.
Qed.

(** X8. With positive penalty coefficients the penalty of a schedule is
    never negative and never NaN: every violation adds a positive amount. *)
Theorem penalty_function_nonneg (O : ObjectiveFunction.t) (schedule : Schedule.t)
    (p : pyfloat) :
  Notions.positive_coefficients O ->
  ObjectiveFunction.penalty_function O schedule = Ok p ->
  fl_le (Fin 0) p.
Proof.
  intros Hpos. unfold ObjectiveFunction.penalty_function,
    ObjectiveFunction.cpu_violations, ObjectiveFunction.memory_violations.
  destruct (ObjectiveFunction.overload_penalty O "cpu" _ _ _) as [p1|] eqn:H1;
    [|done].
  cbn [rbind].
  destruct (ObjectiveFunction.overload_penalty O "memory" _ _ _) as [p2|] eqn:H2;
    [|done].
  cbn [rbind].
  destruct (ObjectiveFunction.deadline_violations O schedule p2) as [p3|] eqn:H3;
    [|done].
  cbn [rbind]. intros H4.
  apply overload_penalty_bound with (x := 0) in H1; [|done|simpl; lra].
  apply overload_penalty_bound with (x := 0) in H2; [|done..].
  rewrite <- (with_tasks_same O) in H3 at 1.
  apply deadline_violations_bound with (x := 0) in H3; [|done..].
  by apply reliability_violations_bound with (x := 0) in H4.
Qed.

Lemma default_penalties_positive (topology : FogCloudTopology.t)
    (tasks : list Task.t) (beta_energy beta_reliability : R) :
  Notions.positive_coefficients
    (ObjectiveFunction.init topology tasks beta_energy beta_reliability None).
Proof.
  intros key c. cbn. unfold ObjectiveFunction.default_penalties. intros H.
  repeat (apply lookup_insert_Some in H as [[_ <-]|[_ H]]; [lra|]).
  by rewrite lookup_empty in H.
Qed.

Lemma penalty_function_nonneg_witness :
  fl_le (Fin 0)
    (Fin (100000 * INR (length (ObjectiveFunction.tasks Scenario.slow_objective))
          + 100000
            * INR (length (filter (fun t => Task.criticality t <> 0%Z)
                             (ObjectiveFunction.tasks Scenario.slow_objective))))).
Proof.
  apply (penalty_function_nonneg Scenario.slow_objective (Schedule.init 1 1)).
  - apply default_penalties_positive.
  - apply penalty_function_unassigned.
    + intros task _. apply lookup_empty.
    + reflexivity.
    + reflexivity.
Defined.

(** ** Feasibility *)

Lemma penalty_function_missing (O : ObjectiveFunction.t) (schedule : Schedule.t)
    (task : Task.t) (c : R) (p : pyfloat) :
  Notions.positive_coefficients O ->
  ObjectiveFunction.penalties O !! "deadline" = Some c ->
  task ∈ ObjectiveFunction.tasks O ->
  Schedule.assignments schedule !! Task.task_id task = None ->
  ObjectiveFunction.penalty_function O schedule = Ok p ->
  fl_le (Fin c) p.
Proof.
  intros Hpos Hc Hin Hnone. unfold ObjectiveFunction.penalty_function,
    ObjectiveFunction.cpu_violations, ObjectiveFunction.memory_violations.
  destruct (ObjectiveFunction.overload_penalty O "cpu" _ _ _) as [p1|] eqn:H1;
    [|done].
  cbn [rbind].
  destruct (ObjectiveFunction.overload_penalty O "memory" _ _ _) as [p2|] eqn:H2;
    [|done].
  cbn [rbind].
  destruct (ObjectiveFunction.deadline_violations O schedule p2) as [p3|] eqn:H3;
    [|done].
  cbn [rbind]. intros H4.
  apply overload_penalty_bound with (x := 0) in H1; [|done|simpl; lra].
  apply overload_penalty_bound with (x := 0) in H2; [|done..].
  apply (deadline_violations_missing O schedule task c 0) in H3; [|done..].
  apply reliability_violations_bound with (x := 0 + c) in H4; [|done..].
  destruct p; simpl in *; try done; lra.
Qed.

(** X9. [Schedule.is_feasible] never accepts a schedule that leaves a task
    unassigned, for any tolerance up to the default deadline coefficient
    100000: the penalty it compares is at least that coefficient. *)
Theorem is_feasible_rejects_unassigned (self : Schedule.t)
    (topology : FogCloudTopology.t) (tasks : list Task.t) (max_penalty : R)
    (task : Task.t) (b : bool) :
  task ∈ tasks ->
  Schedule.assignments self !! Task.task_id task = None ->
  max_penalty <= 100000 ->
  Objectives.is_feasible self topology tasks max_penalty = Ok b ->
  b = false.
Proof.
  intros Hin Hnone Hmax. unfold Objectives.is_feasible.
  destruct (ObjectiveFunction.penalty_function _ self) as [p|] eqn:Hp; [|done].
  cbn [rbind]. intros [= <-]. apply bool_decide_eq_false.
  apply (penalty_function_missing _ _ task 100000) in Hp;
    [|apply default_penalties_positive|reflexivity|done..].
  destruct p; simpl in *; try done; lra.
Qed.

Lemma is_feasible_rejects_unassigned_witness :
  bool_decide
    (fl_lt (Fin (100000 * INR (length [Scenario.long_task])
                 + 100000
                   * INR (length (filter (fun t => Task.criticality t <> 0%Z)
                                    [Scenario.long_task]))))
           (Fin Objectives.default_max_penalty))
  = false.
Proof.
  apply (is_feasible_rejects_unassigned (Schedule.init 1 1)
           Scenario.slow_topology [Scenario.long_task]
           Objectives.default_max_penalty Scenario.long_task).
  - by left.
  - apply lookup_empty.
  - unfold Objectives.default_max_penalty. lra.
  - unfold Objectives.is_feasible.
    rewrite (penalty_function_unassigned _ _ 100000 100000).
    + reflexivity.
    + intros task _. apply lookup_empty.
    + reflexivity.
    + reflexivity.
Defined.

(** ** The capacity checks of [ConstraintHandler] *)

Lemma lookup_of_schedule (schedule : Schedule.t) (k : Z) :
  Plain.of_schedule schedule !! k
  = Plain.of_assignment <$> Schedule.assignments schedule !! k.
Proof. unfold Plain.of_schedule. apply lookup_fmap. Qed.

Lemma utilization_by_node_value (O : ObjectiveFunction.t) (schedule : Schedule.t)
    (amount : Task.t -> R) :
  ConstraintHandler.utilization_by_node (ObjectiveFunction.topology O)
    (Plain.of_schedule schedule) (ObjectiveFunction.tasks O) amount
  = Ok (fold_left
          (fun d p => ObjectiveFunction.dict_add d (fst p) (amount (snd p)))
          (filter (fun p => is_Some (FogCloudTopology.get_host
                                       (ObjectiveFunction.topology O) (fst p)))
                  (Spec.placements O schedule))
          []).
Proof.
  unfold ConstraintHandler.utilization_by_node, Spec.placements.
  generalize (@nil (Z * R)).
  induction (ObjectiveFunction.tasks O) as [|task tasks IH]; intros d; [done|].
  cbn [for_each flat_map]. rewrite lookup_of_schedule.
  destruct (Schedule.assignments schedule !! Task.task_id task) as [a|];
    cbn [fmap option_fmap option_map Plain.get_nodes Plain.of_assignment
         Plain.nodes rbind].
  - rewrite IH, filter_app, fold_left_app. do 2 f_equal.
    generalize d. clear.
    induction (Schedule.nodes a) as [|n ns IHn]; intros d; [done|].
    cbn [fold_left map]. rewrite filter_cons. cbn [fst].
    destruct (FogCloudTopology.get_host _ n) as [host|] eqn:Hn.
    + rewrite decide_True by eauto. cbn [fold_left fst snd]. apply IHn.
    + rewrite decide_False by (by intros [? ?]). apply IHn.
  - apply IH.
Qed.

Lemma dict_set_middle (pre : list (Z * R)) (k : Z) (x v : R)
    (rest : list (Z * R)) :
  k ∉ map fst pre ->
  ConstraintHandler.dict_set (pre ++ (k, x) :: rest) k v = pre ++ (k, v) :: rest.
Proof.
  induction pre as [|[k' x'] pre IH]; intros Hk;
    cbn [app ConstraintHandler.dict_set].
  - by rewrite decide_True.
  - rewrite decide_False.
    + f_equal. apply IH. intros H. apply Hk. by right.
    + intros ->. apply Hk. by left.
Qed.

Lemma utilization_ratios_value (topology : FogCloudTopology.t)
    (capacity : Host -> R) (load : Z -> R) (ks : list Z) :
  NoDup ks ->
  (forall k, k ∈ ks -> is_Some (FogCloudTopology.get_host topology k)) ->
  ConstraintHandler.utilization_ratios topology capacity
    (map (fun k => (k, load k)) ks)
  = Ok (forallb
          (fun k =>
             match FogCloudTopology.get_host topology k with
             | Some host =>
                 negb (bool_decide (0 < capacity host /\
                                    1 < load k / capacity host))
             | None => true
             end) ks,
        map (fun k =>
               (k, match FogCloudTopology.get_host topology k with
                   | Some host => Notions.utilization_entry capacity host (load k)
                   | None => load k
                   end)) ks).
Proof.
  intros Hdup Hknown. unfold ConstraintHandler.utilization_ratios.
  set (ok := fun k => match FogCloudTopology.get_host topology k with
                      | Some host => negb (bool_decide (0 < capacity host /\
                                                  1 < load k / capacity host))
                      | None => true
                      end).
  set (new := fun k => (k, match FogCloudTopology.get_host topology k with
                           | Some host =>
                               Notions.utilization_entry capacity host (load k)
                           | None => load k
                           end)).
  set (old := fun k => (k, load k)).
  match goal with |- for_each ?f _ _ = _ => set (body := f) end.
  enough (H : forall rest pre b,
             NoDup (pre ++ rest) ->
             (forall k, k ∈ rest -> is_Some (FogCloudTopology.get_host topology k)) ->
             for_each body (map old rest) (b, map new pre ++ map old rest)
             = Ok (b && forallb ok rest, map new pre ++ map new rest)).
  { apply (H ks [] true); done. }
  clear Hdup Hknown. induction rest as [|k rest IH]; intros pre b Hdup Hknown.
  - simpl. by rewrite andb_true_r.
  - cbn [map for_each]. change (old k) with (k, load k). unfold body at 1.
    destruct (Hknown k ltac:(by left)) as [host Hhost]. rewrite Hhost.
    assert (Hk : k ∉ map fst (map new pre)).
    { rewrite map_map. cbn. rewrite map_id.
      apply NoDup_app in Hdup as (_ & Hdis & _).
      intros Hin. apply (Hdis k Hin). by left. }
    assert (Hnext : map new pre ++ new k :: map old rest
                    = map new (pre ++ [k]) ++ map old rest).
    { by rewrite map_app, <- app_assoc. }
    assert (Hdup' : NoDup ((pre ++ [k]) ++ rest)) by (by rewrite <- app_assoc).
    assert (Hknown' : forall k', k' ∈ rest ->
                        is_Some (FogCloudTopology.get_host topology k')).
    { intros k' Hk'. apply Hknown. by right. }
    destruct (decide (0 < capacity host)) as [Hcap|Hcap].
    + rewrite py_div_nonzero by lra. cbn [rbind].
      rewrite dict_set_middle by done.
      replace (k, load k / capacity host) with (new k).
      2:{ unfold new. rewrite Hhost. unfold Notions.utilization_entry.
          by rewrite decide_True. }
      rewrite Hnext, IH by done.
      rewrite map_app, <- app_assoc. cbn [map app forallb]. f_equal. f_equal.
      unfold ok at 2. rewrite Hhost.
      destruct (decide (1 < load k / capacity host)) as [Hu|Hu].
      * rewrite bool_decide_eq_true_2 by done. cbn. by rewrite andb_false_r.
      * rewrite bool_decide_eq_false_2 by tauto. cbn. done.
    + cbn [rbind]. replace (k, load k) with (new k).
      2:{ unfold new. rewrite Hhost. unfold Notions.utilization_entry.
          by rewrite decide_False. }
      rewrite Hnext, IH by done.
      rewrite map_app, <- app_assoc. cbn [map app forallb]. f_equal. f_equal.
      unfold ok at 2. rewrite Hhost.
      rewrite bool_decide_eq_false_2 by tauto. done.
Qed.

Lemma first_occurrences_elem (seen l : list Z) (k : Z) :
  k ∈ Spec.first_occurrences seen l <-> k ∈ l /\ k ∉ seen.
Proof.
  revert seen. induction l as [|x l IH]; intros seen; cbn [Spec.first_occurrences].
  - rewrite !elem_of_nil. tauto.
  - destruct (decide (x ∈ seen)) as [Hx|Hx].
    + rewrite IH, elem_of_cons. split; [tauto|].
      intros [[->|?] ?]; [done | tauto].
    + rewrite !elem_of_cons, IH, elem_of_cons.
      destruct (decide (k = x)) as [->|Hne]; [tauto|]. tauto.
Qed.

Lemma first_occurrences_NoDup (seen l : list Z) :
  NoDup (Spec.first_occurrences seen l).
Proof.
  revert seen. induction l as [|x l IH]; intros seen; cbn [Spec.first_occurrences].
  - constructor.
  - destruct (decide (x ∈ seen)); [apply IH|].
    apply NoDup_cons. split; [|apply IH].
    rewrite first_occurrences_elem, elem_of_cons. tauto.
Qed.

Lemma dict_get_map (f : Z -> R) (ks : list Z) (k : Z) :
  k ∈ ks -> Spec.dict_get (map (fun k => (k, f k)) ks) k = f k.
Proof.
  induction ks as [|k' ks IH]; [by intros ?%elem_of_nil|].
  cbn [map Spec.dict_get]. intros Hk.
  destruct (decide (k' = k)) as [->|Hne]; [done|].
  apply IH. by apply elem_of_cons in Hk as [->|?].
Qed.

Lemma total_assigned_absent (amount : Task.t -> R) (pl : list (Z * Task.t))
    (h : Z) :
  h ∉ map fst pl -> Spec.total_assigned amount pl h = 0.
Proof.
  induction pl as [|p pl IH]; intros Hh; [done|].
  rewrite total_assigned_cons, decide_False.
  - apply IH. intros H. apply Hh. by right.
  - intros <-. apply Hh. by left.
Qed.

Lemma total_assigned_filter (amount : Task.t -> R) (P : Z -> Prop)
    `{!forall n, Decision (P n)} (pl : list (Z * Task.t)) (h : Z) :
  P h ->
  Spec.total_assigned amount (filter (fun p => P (fst p)) pl) h
  = Spec.total_assigned amount pl h.
Proof.
  intros Hh. induction pl as [|p pl IH]; [done|].
  rewrite filter_cons, (total_assigned_cons _ p pl).
  destruct (decide (P (fst p))) as [Hp|Hp].
  - by rewrite total_assigned_cons, IH.
  - rewrite decide_False; [done|]. intros Heq. apply Hp. by rewrite Heq.
Qed.

Lemma check_capacity_verdict (O : ObjectiveFunction.t) (schedule : Schedule.t)
    (capacity : Host -> R) (amount : Task.t -> R) :
  exists (b : bool) (u : list (Z * R)),
    (utilization <-r
       ConstraintHandler.utilization_by_node (ObjectiveFunction.topology O)
         (Plain.of_schedule schedule) (ObjectiveFunction.tasks O) amount ;;
     ConstraintHandler.utilization_ratios (ObjectiveFunction.topology O)
       capacity utilization)
    = Ok (b, u) /\
    (b = true <-> Notions.within_capacity O schedule capacity amount) /\
    (forall h host,
       h ∈ map fst (Spec.placements O schedule) ->
       FogCloudTopology.get_host (ObjectiveFunction.topology O) h = Some host ->
       Spec.dict_get u h
       = Notions.utilization_entry capacity host
           (Spec.total_assigned amount (Spec.placements O schedule) h)).
Proof.
  rewrite utilization_by_node_value. cbn [rbind].
  rewrite fold_dict_add by constructor. cbn [map app].
  set (pl := Spec.placements O schedule).
  set (pl' := filter _ pl).
  set (ks := Spec.first_occurrences [] (map fst pl')).
  pose (known := fun n : Z =>
          is_Some (FogCloudTopology.get_host (ObjectiveFunction.topology O) n)).
  assert (Htotal : forall h, known h ->
            Spec.dict_get [] h + Spec.total_assigned amount pl' h
            = Spec.total_assigned amount pl h).
  { intros h Hh. cbn [Spec.dict_get].
    rewrite <- (total_assigned_filter amount known pl h Hh), Rplus_0_l.
    reflexivity. }
  assert (Hks : forall k, k ∈ ks <-> k ∈ map fst pl /\ known k).
  { intros k. unfold ks. rewrite first_occurrences_elem, elem_of_nil.
    unfold pl'. rewrite !list_elem_of_fmap. split.
    - intros [(p & -> & [Hp Hin]%list_elem_of_filter) _]. eauto.
    - intros [(p & -> & Hin) Hk]. split; [|tauto].
      exists p. split; [done|]. by apply list_elem_of_filter. }
  rewrite utilization_ratios_value;
    [|apply first_occurrences_NoDup | intros k Hk; by apply Hks].
  eexists _, _. split; [reflexivity|]. split.
  - rewrite forallb_forall. split.
    + intros Hok h host Hhost Hcap.
      destruct (decide (h ∈ map fst pl)) as [Hin|Hin].
      * assert (Hh : h ∈ ks) by (apply Hks; split; [done | by eexists]).
        apply list_elem_of_In, Hok in Hh.
        rewrite Hhost in Hh. apply negb_true_iff, bool_decide_eq_false in Hh.
        rewrite Htotal in Hh by (by eexists).
        destruct (Rle_dec (Spec.total_assigned amount pl h)
                          (capacity host)) as [|Hgt]; [done|].
        exfalso. apply Hh. split; [done|].
        apply Rnot_le_lt in Hgt.
        apply (Rmult_lt_reg_r (capacity host)); [done|].
        unfold Rdiv. rewrite Rmult_assoc, Rinv_l by lra. lra.
      * rewrite total_assigned_absent by done. lra.
    + intros Hwithin k Hk%list_elem_of_In.
      destruct (FogCloudTopology.get_host _ k) as [host|] eqn:Hhost; [|done].
      apply negb_true_iff, bool_decide_eq_false. intros [Hcap Hu].
      rewrite Htotal in Hu by (by eexists).
      specialize (Hwithin k host Hhost Hcap). fold pl in Hwithin.
      apply (Rmult_lt_compat_r (capacity host)) in Hu; [|done].
      unfold Rdiv in Hu. rewrite Rmult_assoc, Rinv_l in Hu by lra.
      lra.
  - intros h host Hin Hhost.
    rewrite dict_get_map by (apply Hks; split; [done | by eexists]).
    rewrite Hhost. by rewrite Htotal by (by eexists).
Qed.

(** X10. [check_cpu_capacity] and [check_memory_capacity] never raise on
    the assignments of a schedule.  Their verdict is true exactly when no
    host with a positive capacity is assigned more than its capacity; a
    host whose capacity is not positive is never reported, and its entry
    in the returned dict is its load, not a ratio. *)
Theorem capacity_checks_verdict (O : ObjectiveFunction.t) (schedule : Schedule.t) :
  (exists (b : bool) (u : list (Z * R)),
     ConstraintHandler.check_cpu_capacity (ObjectiveFunction.topology O)
       (Plain.of_schedule schedule) (ObjectiveFunction.tasks O) = Ok (b, u) /\
     (b = true
      <-> Notions.within_capacity O schedule host_cpu_mips Task.workload_mi) /\
     (forall h host,
        h ∈ map fst (Spec.placements O schedule) ->
        FogCloudTopology.get_host (ObjectiveFunction.topology O) h = Some host ->
        Spec.dict_get u h
        = Notions.utilization_entry host_cpu_mips host
            (Spec.total_assigned Task.workload_mi
               (Spec.placements O schedule) h))) /\
  (exists (b : bool) (u : list (Z * R)),
     ConstraintHandler.check_memory_capacity (ObjectiveFunction.topology O)
       (Plain.of_schedule schedule) (ObjectiveFunction.tasks O) = Ok (b, u) /\
     (b = true
      <-> Notions.within_capacity O schedule host_memory_mb
            Task.memory_requirement_mb) /\
     (forall h host,
        h ∈ map fst (Spec.placements O schedule) ->
        FogCloudTopology.get_host (ObjectiveFunction.topology O) h = Some host ->
        Spec.dict_get u h
        = Notions.utilization_entry host_memory_mb host
            (Spec.total_assigned Task.memory_requirement_mb
               (Spec.placements O schedule) h))).
Proof.
  split.
  - apply (check_capacity_verdict O schedule host_cpu_mips Task.workload_mi).
  - apply (check_capacity_verdict O schedule host_memory_mb
             Task.memory_requirement_mb).
Qed.

Lemma Rsum_zero (l : list R) :
  Forall (fun x => 0 <= x) l -> Spec.Rsum l = 0 -> Forall (fun x => x = 0) l.
Proof.
  induction l as [|x l IH]; intros Hall Hsum; [constructor|].
  apply Forall_cons in Hall as [Hx Hall].
  pose proof (Rsum_nonneg l Hall) as Hl. unfold Spec.Rsum in *. simpl in Hsum.
  constructor; [lra|]. apply IH; [done | lra].
Qed.

Lemma Rsum_zeros (l : list R) : Forall (fun x => x = 0) l -> Spec.Rsum l = 0.
Proof.
  induction l as [|x l IH]; intros Hall; [done|].
  apply Forall_cons in Hall as [-> Hall]. unfold Spec.Rsum in *. simpl.
  rewrite IH by done. lra.
Qed.

Lemma capacity_component_zero (O : ObjectiveFunction.t) (schedule : Schedule.t)
    (c : R) (capacity : Host -> R) (amount : Task.t -> R) :
  0 < c ->
  (forall h host, h ∈ Spec.hosts_with_load (Spec.placements O schedule) ->
     FogCloudTopology.get_host (ObjectiveFunction.topology O) h = Some host ->
     0 < capacity host) ->
  Spec.capacity_component O schedule c capacity amount = 0
  <-> Notions.within_capacity O schedule capacity amount.
Proof.
  intros Hc Hcap. unfold Spec.capacity_component.
  set (pl := Spec.placements O schedule) in *.
  assert (Hnonneg : Forall (fun x => 0 <= x)
            (map (Spec.overload O capacity (Spec.total_assigned amount pl))
                 (Spec.hosts_with_load pl))).
  { apply Forall_forall. intros x (h & -> & _)%list_elem_of_fmap.
    apply overload_nonneg. }
  split.
  - intros Hzero h host Hhost Hpos. fold pl.
    destruct (decide (h ∈ map fst pl)) as [Hin|Hin];
      [|rewrite total_assigned_absent by done; lra].
    assert (Hsum : Spec.Rsum
              (map (Spec.overload O capacity (Spec.total_assigned amount pl))
                   (Spec.hosts_with_load pl)) = 0) by nra.
    apply Rsum_zero in Hsum; [|done].
    rewrite Forall_forall in Hsum.
    assert (Hmax : Spec.overload O capacity (Spec.total_assigned amount pl) h = 0).
    { apply Hsum. apply list_elem_of_fmap. exists h. split; [done|].
      unfold Spec.hosts_with_load. rewrite first_occurrences_elem, elem_of_nil.
      tauto. }
    unfold Spec.overload in Hmax. rewrite Hhost in Hmax.
    pose proof (Rmax_r 0 (Spec.total_assigned amount pl h / capacity host - 1)).
    assert (Hdiv : Spec.total_assigned amount pl h / capacity host <= 1) by lra.
    apply (Rmult_le_compat_r (capacity host)) in Hdiv; [|lra].
    unfold Rdiv in Hdiv. rewrite Rmult_assoc, Rinv_l in Hdiv by lra. lra.
  - intros Hwithin. rewrite Rsum_zeros; [lra|].
    apply Forall_forall. intros x (h & -> & Hh)%list_elem_of_fmap.
    unfold Spec.overload.
    destruct (FogCloudTopology.get_host _ h) as [host|] eqn:Hhost; [|done].
    pose proof (Hcap h host Hh Hhost) as Hpos.
    specialize (Hwithin h host Hhost Hpos). fold pl in Hwithin.
    apply Rmax_left.
    apply (Rmult_le_compat_r (/ capacity host)) in Hwithin;
      [|left; by apply Rinv_0_lt_compat].
    rewrite Rinv_r in Hwithin by lra. unfold Rdiv. lra.
Qed.

Lemma capacity_check_matches_penalty (O : ObjectiveFunction.t)
    (schedule : Schedule.t) (key : string) (capacity : Host -> R)
    (amount : Task.t -> R) (c : R) :
  ObjectiveFunction.penalties O !! key = Some c -> 0 < c ->
  (forall h host,
     h ∈ Spec.hosts_with_load (Spec.placements O schedule) ->
     FogCloudTopology.get_host (ObjectiveFunction.topology O) h = Some host ->
     0 < capacity host) ->
  (exists u,
     (utilization <-r
        ConstraintHandler.utilization_by_node
          (ObjectiveFunction.topology O) (Plain.of_schedule schedule)
          (ObjectiveFunction.tasks O) amount ;;
      ConstraintHandler.utilization_ratios
        (ObjectiveFunction.topology O) capacity utilization)
     = Ok (true, u))
  <-> ObjectiveFunction.overload_penalty O key capacity
        (ObjectiveFunction.load_by_node O schedule amount) (Fin 0)
      = Ok (Fin 0).
Proof.
  intros Hkey Hc0 Hcap.
  rewrite (capacity_violations_value O schedule key capacity amount c 0 Hkey).
  2:{ intros h host Hh Hhost. pose proof (Hcap h host Hh Hhost). lra. }
  destruct (check_capacity_verdict O schedule capacity amount)
    as (b & u & Hrun & Hverdict & _).
  rewrite Hrun.
  rewrite <- (capacity_component_zero O schedule c capacity amount Hc0 Hcap)
    in Hverdict.
  split.
  - intros [u' [= -> _]]. apply Ok_Fin_eq.
    rewrite (proj1 Hverdict eq_refl). lra.
  - intros [= Hzero]. exists u. do 2 f_equal. apply Hverdict. lra.
Qed.

(** X11. Where every host that carries load has a positive capacity and
    the coefficients are positive, the capacity checks of
    [ConstraintHandler] and the penalty agree: a check passes exactly when
    the matching term of the penalty is zero. *)
Theorem capacity_checks_match_penalty (O : ObjectiveFunction.t)
    (schedule : Schedule.t) (c_cpu c_memory : R) :
  ObjectiveFunction.penalties O !! "cpu" = Some c_cpu -> 0 < c_cpu ->
  ObjectiveFunction.penalties O !! "memory" = Some c_memory -> 0 < c_memory ->
  (forall h host, h ∈ Spec.hosts_with_load (Spec.placements O schedule) ->
     FogCloudTopology.get_host (ObjectiveFunction.topology O) h = Some host ->
     0 < host_cpu_mips host /\ 0 < host_memory_mb host) ->
  ((exists u,
      ConstraintHandler.check_cpu_capacity (ObjectiveFunction.topology O)
        (Plain.of_schedule schedule) (ObjectiveFunction.tasks O) = Ok (true, u))
   <-> ObjectiveFunction.cpu_violations O schedule (Fin 0) = Ok (Fin 0)) /\
  ((exists u,
      ConstraintHandler.check_memory_capacity (ObjectiveFunction.topology O)
        (Plain.of_schedule schedule) (ObjectiveFunction.tasks O) = Ok (true, u))
   <-> ObjectiveFunction.memory_violations O schedule (Fin 0) = Ok (Fin 0)).
Proof.
  intros Hcpu Hc Hmem Hm Hpos. split.
  - apply (capacity_check_matches_penalty O schedule "cpu" host_cpu_mips
             Task.workload_mi c_cpu); [done..|].
    intros h host Hh Hhost. by apply (Hpos h host).
  - apply (capacity_check_matches_penalty O schedule "memory" host_memory_mb
             Task.memory_requirement_mb c_memory); [done..|].
    intros h host Hh Hhost. by apply (Hpos h host).
Qed.

Lemma capacity_checks_match_penalty_witness :
  ((exists u,
      ConstraintHandler.check_cpu_capacity
        (ObjectiveFunction.topology Scenario.crowded_objective)
        (Plain.of_schedule Scenario.all_on_node_one)
        (ObjectiveFunction.tasks Scenario.crowded_objective) = Ok (true, u))
   <-> ObjectiveFunction.cpu_violations Scenario.crowded_objective
         Scenario.all_on_node_one (Fin 0) = Ok (Fin 0)) /\
  ((exists u,
      ConstraintHandler.check_memory_capacity
        (ObjectiveFunction.topology Scenario.crowded_objective)
        (Plain.of_schedule Scenario.all_on_node_one)
        (ObjectiveFunction.tasks Scenario.crowded_objective) = Ok (true, u))
   <-> ObjectiveFunction.memory_violations Scenario.crowded_objective
         Scenario.all_on_node_one (Fin 0) = Ok (Fin 0)).
Proof.
  apply (capacity_checks_match_penalty Scenario.crowded_objective
           Scenario.all_on_node_one 10000 10000).
  - reflexivity.
  - lra.
  - reflexivity.
  - lra.
  - intros h host Hin Hhost.
    apply (hosts_with_load_all_on _ _ 1 h crowded_all_on) in Hin as ->.
    rewrite crowded_host in Hhost. injection Hhost as <-. cbn. lra.
Defined.

(** ** The deadline check of [ConstraintHandler] *)

Lemma fl_div_nonzero (a : pyfloat) (y : R) :
  y <> 0 -> exists q, fl_div a (Fin y) = Ok q.
Proof.
  intros Hy. unfold fl_div. destruct a; rewrite decide_False by done; by eexists.
Qed.

Lemma check_deadline_loop (topology : FogCloudTopology.t)
    (assignments : gmap Z Plain.entry) (l : list Task.t)
    (b' : bool) (d' : gmap Z pyfloat) :
  ConstraintHandler.check_deadline_constraints topology assignments l = Ok (b', d')
  -> b' = forallb (Notions.meets_deadline topology assignments) l /\
     forall task, task ∈ l -> is_Some (d' !! Task.task_id task).
Proof.
  unfold ConstraintHandler.check_deadline_constraints.
  match goal with |- for_each ?f _ _ = _ -> _ => set (body := f) end.
  enough (H : forall l b d b' d',
             for_each body l (b, d) = Ok (b', d') ->
             b' = b && forallb (Notions.meets_deadline topology assignments) l /\
             (forall k, is_Some (d !! k) -> is_Some (d' !! k)) /\
             forall task, task ∈ l -> is_Some (d' !! Task.task_id task)).
  { intros Hrun. destruct (H _ _ _ _ _ Hrun) as (-> & _ & Hdom). done. }
  clear. induction l as [|task l IH]; intros b d b' d' Hrun.
  - simpl in Hrun. injection Hrun as <- <-. rewrite andb_true_r.
    split; [done|]. split; [done|]. by intros task ?%elem_of_nil.
  - cbn [for_each] in Hrun.
    destruct (body (b, d) task) as [[b1 d1]|e] eqn:Hstep; [|done].
    cbn [rbind] in Hrun. apply IH in Hrun as (-> & Hmono & Hdom).
    assert (Hhead : b1 = b && Notions.meets_deadline topology assignments task /\
                    d1 !! Task.task_id task <> None /\
                    forall k, is_Some (d !! k) -> is_Some (d1 !! k)).
    { unfold body in Hstep. unfold Notions.meets_deadline.
      assert (Hins : forall (v : pyfloat) k,
                is_Some (d !! k) -> is_Some (<[Task.task_id task := v]> d !! k)).
      { intros v k Hk. destruct (decide (Task.task_id task = k)) as [->|Hne].
        - rewrite lookup_insert_eq. by eexists.
        - by rewrite lookup_insert_ne. }
      destruct (assignments !! Task.task_id task) as [entry|].
      - unfold Plain.get_nodes in Hstep.
        destruct (Plain.nodes entry) as [[|node_id rest]|]; [| |done];
          cbn [rbind] in Hstep.
        + injection Hstep as <- <-. rewrite andb_false_r, lookup_insert_eq.
          split; [done|]. split; [done | apply Hins].
        + destruct (NetworkModel.task_total_time _ _ _ _ _) as [total|]; [|done].
          cbn [rbind] in Hstep.
          destruct (fl_div total _) as [ratio|]; [|done]. cbn [rbind] in Hstep.
          injection Hstep as <- <-. rewrite lookup_insert_eq.
          split; [|split; [done | apply Hins]].
          destruct (decide _) as [Hlate|Hlate].
          * rewrite bool_decide_eq_true_2 by done. cbn. by rewrite andb_false_r.
          * rewrite bool_decide_eq_false_2 by done. cbn. by rewrite andb_true_r.
      - injection Hstep as <- <-. rewrite andb_false_r, lookup_insert_eq.
        split; [done|]. split; [done | apply Hins]. }
    destruct Hhead as (-> & Hk & Hmono1).
    split; [cbn [forallb]; by rewrite andb_assoc|].
    split; [intros k Hk'; by apply Hmono, Hmono1|].
    intros t [->|Ht]%elem_of_cons; [|by apply Hdom].
    apply Hmono. by destruct (d1 !! Task.task_id task); [eexists|].
Qed.

Lemma check_deadline_returns (topology : FogCloudTopology.t)
    (schedule : Schedule.t) (tasks : list Task.t) :
  (forall task a n rest,
     task ∈ tasks ->
     Schedule.assignments schedule !! Task.task_id task = Some a ->
     Schedule.nodes a = n :: rest ->
     is_Some (FogCloudTopology.get_host topology n) /\ Task.deadline_s task <> 0) ->
  exists b d,
    ConstraintHandler.check_deadline_constraints topology
      (Plain.of_schedule schedule) tasks = Ok (b, d).
Proof.
  unfold ConstraintHandler.check_deadline_constraints.
  generalize (true, (∅ : gmap Z pyfloat)).
  induction tasks as [|task tasks IH]; intros [b d] Hok.
  - simpl. by eexists _, _.
  - cbn [for_each]. rewrite lookup_of_schedule.
    assert (Htail : forall task a n rest,
              task ∈ tasks ->
              Schedule.assignments schedule !! Task.task_id task = Some a ->
              Schedule.nodes a = n :: rest ->
              is_Some (FogCloudTopology.get_host topology n) /\
              Task.deadline_s task <> 0).
    { intros t a n rest Ht. apply Hok. by right. }
    destruct (Schedule.assignments schedule !! Task.task_id task) as [a|] eqn:Ha;
      cbn [fmap option_fmap option_map Plain.get_nodes Plain.of_assignment
           Plain.nodes Plain.frequency rbind]; [|by apply IH].
    destruct (Schedule.nodes a) as [|n rest] eqn:Hnodes; [by apply IH|].
    destruct (Hok task a n rest ltac:(by left) Ha Hnodes) as [[host Hhost] Hd].
    rewrite Hhost.
    destruct (task_total_time_value task (Task.source_device_id task) host
                (default 2 (Some (Schedule.frequency a))) topology) as [v ->].
    cbn [rbind]. destruct (fl_div_nonzero v _ Hd) as [q ->]. cbn [rbind].
    by apply IH.
Qed.

(** X12. [check_deadline_constraints] returns whenever the first replica
    of every assigned task is on a host and no deadline is 0.  Its verdict
    is true exactly when every task is assigned, has a first replica, and
    its total time there does not exceed its deadline; the returned dict
    has an entry for every task. *)
Theorem deadline_check_verdict (topology : FogCloudTopology.t)
    (schedule : Schedule.t) (tasks : list Task.t) :
  ((forall task a n rest,
      task ∈ tasks ->
      Schedule.assignments schedule !! Task.task_id task = Some a ->
      Schedule.nodes a = n :: rest ->
      is_Some (FogCloudTopology.get_host topology n) /\ Task.deadline_s task <> 0) ->
   exists b d,
     ConstraintHandler.check_deadline_constraints topology
       (Plain.of_schedule schedule) tasks = Ok (b, d)) /\
  (forall b d,
     ConstraintHandler.check_deadline_constraints topology
       (Plain.of_schedule schedule) tasks = Ok (b, d) ->
     b = forallb (Notions.meets_deadline topology (Plain.of_schedule schedule))
                 tasks /\
     forall task, task ∈ tasks -> is_Some (d !! Task.task_id task)).
Proof.
  split.
  - apply check_deadline_returns.
  - intros b d. apply check_deadline_loop.
Qed.

Lemma deadline_step_on_time (O : ObjectiveFunction.t) (schedule : Schedule.t)
    (task : Task.t) (p : pyfloat) :
  Notions.meets_deadline (ObjectiveFunction.topology O)
    (Plain.of_schedule schedule) task = true ->
  ObjectiveFunction.deadline_violations (Notions.with_tasks O [task]) schedule p
  = Ok p.
Proof.
  unfold Notions.meets_deadline, ObjectiveFunction.deadline_violations.
  cbn [Notions.with_tasks ObjectiveFunction.tasks ObjectiveFunction.topology
       for_each].
  rewrite lookup_of_schedule.
  destruct (Schedule.assignments schedule !! Task.task_id task) as [a|];
    cbn [fmap option_fmap option_map Plain.of_assignment Plain.nodes
         Plain.frequency]; [|done].
  destruct (Schedule.nodes a) as [|n rest]; [done|].
  cbn [head default ObjectiveFunction.truthy].
  destruct (bool_decide (n <> 0%Z)); [|done].
  destruct (NetworkModel.task_total_time _ _ _ _ _) as [total|]; [|done].
  cbn [rbind]. intros Hlate%negb_true_iff%bool_decide_eq_false.
  by rewrite decide_False.
Qed.

Lemma deadline_violations_on_time (O : ObjectiveFunction.t) (schedule : Schedule.t)
    (p : pyfloat) :
  forallb (Notions.meets_deadline (ObjectiveFunction.topology O)
             (Plain.of_schedule schedule)) (ObjectiveFunction.tasks O) = true ->
  ObjectiveFunction.deadline_violations O schedule p = Ok p.
Proof.
  enough (H : forall l p,
             forallb (Notions.meets_deadline (ObjectiveFunction.topology O)
                        (Plain.of_schedule schedule)) l = true ->
             ObjectiveFunction.deadline_violations (Notions.with_tasks O l)
               schedule p = Ok p).
  { intros Hall. specialize (H _ p Hall). by rewrite with_tasks_same in H. }
  clear p. induction l as [|task l IH]; intros p; [done|].
  cbn [forallb]. intros [Htask Hl]%andb_true_iff.
  change (task :: l) with ([task] ++ l).
  rewrite deadline_violations_app, deadline_step_on_time by done.
  cbn [rbind]. by apply IH.
Qed.

(** X13. A schedule that passes [check_deadline_constraints] incurs no
    deadline penalty: the deadline loop of [penalty_function] adds
    nothing. *)
Theorem deadline_check_clears_penalty (O : ObjectiveFunction.t)
    (schedule : Schedule.t) (d : gmap Z pyfloat) (p : pyfloat) :
  ConstraintHandler.check_deadline_constraints (ObjectiveFunction.topology O)
    (Plain.of_schedule schedule) (ObjectiveFunction.tasks O) = Ok (true, d) ->
  ObjectiveFunction.deadline_violations O schedule p = Ok p.
Proof.
  intros [Hb _]%check_deadline_loop. by apply deadline_violations_on_time.
Qed.

Lemma light_assignment :
  Schedule.assignments Cases.light_schedule !! 0%Z
  = Some (Schedule.mk_assignment [1%Z] 2).
Proof. cbn. by rewrite lookup_insert_eq. Qed.

Lemma light_host :
  FogCloudTopology.get_host Scenario.crowded_topology 1
  = Some (HFog (Scenario.fog 1 2000 2048 (1 / 10000))).
Proof. apply crowded_host. Qed.

Lemma light_meets_deadline :
  forallb (Notions.meets_deadline Scenario.crowded_topology
             (Plain.of_schedule Cases.light_schedule)) Cases.light_tasks = true.
Proof.
  cbn [forallb Cases.light_tasks]. rewrite andb_true_r.
  unfold Notions.meets_deadline. rewrite lookup_of_schedule.
  cbn [Scenario.task Task.task_id]. rewrite light_assignment.
  cbn [fmap option_fmap option_map Plain.of_assignment Plain.nodes
       Plain.frequency Schedule.nodes Schedule.frequency default].
  rewrite light_host. unfold NetworkModel.task_total_time.
  rewrite !total_transfer_time_value, task_execution_time_value.
  unfold FogCloudTopology.get_bandwidth_mbps, FogCloudTopology.get_latency_ms.
  cbn. rewrite !lookup_empty. cbn. rdecide. cbn.
  apply negb_true_iff, bool_decide_eq_false. lra.
Qed.

Lemma light_deadline_check :
  exists d,
    ConstraintHandler.check_deadline_constraints Scenario.crowded_topology
      (Plain.of_schedule Cases.light_schedule) Cases.light_tasks = Ok (true, d).
Proof.
  destruct (check_deadline_returns Scenario.crowded_topology Cases.light_schedule
              Cases.light_tasks) as (b & d & Hrun).
  - intros task a n rest [->|[]%elem_of_nil]%elem_of_cons.
    cbn [Scenario.task Task.task_id Task.deadline_s].
    rewrite light_assignment. intros [= <-] [= <- _].
    rewrite light_host. split; [by eexists | lra].
  - exists d. rewrite Hrun. do 2 f_equal.
    apply check_deadline_loop in Hrun as [-> _]. apply light_meets_deadline.
Qed.

Lemma deadline_check_clears_penalty_witness :
  ObjectiveFunction.deadline_violations Cases.light_objective
    Cases.light_schedule (Fin 0) = Ok (Fin 0).
Proof.
  destruct light_deadline_check as [d Hd].
  apply (deadline_check_clears_penalty Cases.light_objective Cases.light_schedule
           d (Fin 0)).
  exact Hd.
Defined.

Lemma reliability_violations_noncritical (O : ObjectiveFunction.t)
    (schedule : Schedule.t) (p : pyfloat) :
  (forall task, task ∈ ObjectiveFunction.tasks O -> Task.criticality task = 0%Z) ->
  ObjectiveFunction.reliability_violations O schedule p = Ok p.
Proof.
  unfold ObjectiveFunction.reliability_violations.
  induction (ObjectiveFunction.tasks O) as [|task l IH]; intros Hall; [done|].
  cbn [for_each]. rewrite decide_True by (apply Hall; by left). cbn [rbind].
  apply IH. intros t Ht. apply Hall. by right.
Qed.

(** X14. On a topology whose hosts all have positive capacities, a
    schedule of non-critical tasks that passes [check_all_constraints] is
    feasible for every positive tolerance: its penalty is 0. *)
Theorem passing_checks_is_feasible (schedule : Schedule.t)
    (topology : FogCloudTopology.t) (tasks : list Task.t) (max_penalty : R)
    (verdicts : gmap string bool) :
  (forall task, task ∈ tasks -> Task.criticality task = 0%Z) ->
  (forall h host, FogCloudTopology.get_host topology h = Some host ->
     0 < host_cpu_mips host /\ 0 < host_memory_mb host) ->
  0 < max_penalty ->
  ConstraintHandler.check_all_constraints topology (Plain.of_schedule schedule)
    tasks = Ok verdicts ->
  verdicts !! "all" = Some true ->
  Objectives.is_feasible schedule topology tasks max_penalty = Ok true.
Proof.
  intros Hcrit Hcap Hmax. unfold ConstraintHandler.check_all_constraints.
  destruct (ConstraintHandler.check_cpu_capacity _ _ _) as [[cpu_ok u1]|] eqn:Hcpu;
    [|done].
  cbn [rbind].
  destruct (ConstraintHandler.check_memory_capacity _ _ _) as [[mem_ok u2]|]
    eqn:Hmem; [|done].
  cbn [rbind].
  destruct (ConstraintHandler.check_deadline_constraints _ _ _) as [[dl_ok d]|]
    eqn:Hdl; [|done].
  cbn [rbind fst]. intros [= <-].
  rewrite !lookup_insert_ne by done. rewrite lookup_insert_eq.
  intros [= [[-> ->]%andb_true_iff ->]%andb_true_iff].
  unfold Objectives.is_feasible.
  set (O := ObjectiveFunction.init topology tasks _ _ None).
  assert (Hcpu0 : ObjectiveFunction.cpu_violations O schedule (Fin 0) = Ok (Fin 0)).
  { apply (capacity_check_matches_penalty O schedule "cpu" host_cpu_mips
             Task.workload_mi 10000); [reflexivity | lra | | by exists u1].
    intros h host _ Hhost. by apply (Hcap h host). }
  assert (Hmem0 :
            ObjectiveFunction.memory_violations O schedule (Fin 0) = Ok (Fin 0)).
  { apply (capacity_check_matches_penalty O schedule "memory" host_memory_mb
             Task.memory_requirement_mb 10000); [reflexivity | lra | | by exists u2].
    intros h host _ Hhost. by apply (Hcap h host). }
  unfold ObjectiveFunction.penalty_function. rewrite Hcpu0. cbn [rbind].
  rewrite Hmem0. cbn [rbind].
  rewrite (deadline_violations_on_time O schedule (Fin 0)).
  2:{ apply check_deadline_loop in Hdl as [Hb _]. symmetry. exact Hb. }
  cbn [rbind]. rewrite reliability_violations_noncritical by done.
  cbn [rbind]. f_equal. apply bool_decide_eq_true. simpl. lra.
Qed.

Lemma light_checks :
  ConstraintHandler.check_all_constraints Scenario.crowded_topology
    (Plain.of_schedule Cases.light_schedule) Cases.light_tasks
  = Ok (<["cpu" := true]> (<["memory" := true]> (<["deadline" := true]>
          (<["all" := true]> ∅)))).
Proof.
  unfold ConstraintHandler.check_all_constraints.
  destruct (check_capacity_verdict Cases.light_objective Cases.light_schedule
              host_cpu_mips Task.workload_mi) as (b1 & u1 & H1 & Hv1 & _).
  destruct (check_capacity_verdict Cases.light_objective Cases.light_schedule
              host_memory_mb Task.memory_requirement_mb)
    as (b2 & u2 & H2 & Hv2 & _).
  destruct light_deadline_check as [d Hd].
  unfold ConstraintHandler.check_cpu_capacity,
    ConstraintHandler.check_memory_capacity.
  cbn [Cases.light_objective ObjectiveFunction.init ObjectiveFunction.topology
       ObjectiveFunction.tasks] in H1, H2.
  rewrite H1, H2, Hd. cbn [rbind fst].
  assert (Hpl : Spec.placements Cases.light_objective Cases.light_schedule
                = [(1%Z, Scenario.task 0 1500 10 0)]).
  { unfold Spec.placements. cbn [Cases.light_objective ObjectiveFunction.init
      ObjectiveFunction.tasks Cases.light_tasks flat_map Scenario.task
      Task.task_id].
    by rewrite light_assignment. }
  assert (Hwithin : forall capacity amount,
            (forall host,
               FogCloudTopology.get_host Scenario.crowded_topology 1 = Some host ->
               amount (Scenario.task 0 1500 10 0) <= capacity host) ->
            Notions.within_capacity Cases.light_objective Cases.light_schedule
              capacity amount).
  { intros capacity amount Hle h host Hhost Hpos. rewrite Hpl.
    rewrite total_assigned_cons. cbn [fst snd].
    destruct (decide (1%Z = h)) as [<-|_].
    - unfold Spec.total_assigned. cbn. specialize (Hle host Hhost). lra.
    - unfold Spec.total_assigned. cbn. lra. }
  rewrite (proj2 Hv1), (proj2 Hv2); [done | |].
  - apply Hwithin. intros host. rewrite light_host. intros [= <-]. cbn. lra.
  - apply Hwithin. intros host. rewrite light_host. intros [= <-]. cbn. lra.
Qed.

Lemma passing_checks_is_feasible_witness :
  Objectives.is_feasible Cases.light_schedule Scenario.crowded_topology
    Cases.light_tasks Objectives.default_max_penalty = Ok true.
Proof.
  apply (passing_checks_is_feasible Cases.light_schedule Scenario.crowded_topology
           Cases.light_tasks Objectives.default_max_penalty
           (<["cpu" := true]> (<["memory" := true]> (<["deadline" := true]>
              (<["all" := true]> ∅))))).
  - intros task [->|[]%elem_of_nil]%elem_of_cons. reflexivity.
  - intros h host. unfold FogCloudTopology.get_host. cbn.
    destruct (decide (h = 1%Z)) as [->|Hne].
    + rewrite lookup_insert_eq. intros [= <-]. cbn. lra.
    + rewrite lookup_insert_ne, !lookup_empty by done. done.
  - unfold Objectives.default_max_penalty. lra.
  - apply light_checks.
  - reflexivity.
Defined.

(** ** The leaders *)

Lemma insert_by_perm {A : Type} (key : A -> pyfloat) (x : A) (l : list A) :
  insert_by key x l ≡ₚ x :: l.
Proof.
  induction l as [|y l IH]; cbn [insert_by]; [done|].
  case_decide; [|done]. rewrite IH. apply Permutation_swap.
Qed.

Lemma py_sorted_perm {A : Type} (key : A -> pyfloat) (l : list A) :
  py_sorted key l ≡ₚ l.
Proof.
  induction l as [|x l IH]; [done|].
  cbn [py_sorted foldr]. fold (py_sorted key l).
  by rewrite insert_by_perm, IH.
Qed.

Lemma insert_by_ascending {A : Type} (key : A -> pyfloat) (x : A) (l : list A) :
  ~ is_nan (key x) -> (forall y, y ∈ l -> ~ is_nan (key y)) ->
  Notions.ascending key l -> Notions.ascending key (insert_by key x l).
Proof.
  intros Hx. induction l as [|y l IH]; intros Hnan Hasc; cbn [insert_by].
  - by split.
  - destruct Hasc as [Hy Hasc].
    assert (Hnan' : forall z, z ∈ l -> ~ is_nan (key z)).
    { intros z Hz. apply Hnan. by right. }
    destruct (decide (fl_lt (key y) (key x))) as [Hlt|Hlt].
    + split; [|by apply IH].
      rewrite insert_by_perm. constructor; [by apply fl_lt_le | done].
    + assert (Hxy : fl_le (key x) (key y)).
      { apply fl_not_lt_le; [apply Hnan; by left | done | done]. }
      split; [|by split].
      constructor; [done|].
      eapply Forall_impl; [exact Hy|]. intros z Hz. by eapply fl_le_trans.
Qed.

Lemma py_sorted_ascending {A : Type} (key : A -> pyfloat) (l : list A) :
  (forall y, y ∈ l -> ~ is_nan (key y)) ->
  Notions.ascending key (py_sorted key l).
Proof.
  induction l as [|x l IH]; intros Hnan; [done|].
  cbn [py_sorted foldr]. fold (py_sorted key l).
  apply insert_by_ascending.
  - apply Hnan. by left.
  - intros y Hy%py_sorted_elem. apply Hnan. by right.
  - apply IH. intros y Hy. apply Hnan. by right.
Qed.

(** X15. Among at least three wolves none of whose fitness is NaN,
    [_update_leaders] picks three different wolves, alpha no worse than
    beta, beta no worse than delta, and delta no worse than any wolf that
    is not a leader. *)
Theorem leaders_are_three_best (s : MDGWO.t) :
  (3 <= length (MDGWO.wolves s))%nat ->
  (forall w, w ∈ MDGWO.wolves s -> ~ is_nan (Wolf.fitness w)) ->
  exists (a b d : nat) (wa wb wd : Wolf.t),
    MDGWO._update_leaders s
    = (Ok tt, MDGWO.set_leaders (Some a) (Some b) (Some d) s) /\
    a <> b /\ a <> d /\ b <> d /\
    MDGWO.wolves s !! a = Some wa /\
    MDGWO.wolves s !! b = Some wb /\
    MDGWO.wolves s !! d = Some wd /\
    fl_le (Wolf.fitness wa) (Wolf.fitness wb) /\
    fl_le (Wolf.fitness wb) (Wolf.fitness wd) /\
    forall k w, MDGWO.wolves s !! k = Some w -> k <> a -> k <> b -> k <> d ->
                fl_le (Wolf.fitness wd) (Wolf.fitness w).
Proof.
  intros Hlen Hnan. unfold MDGWO._update_leaders.
  set (key := fun k : nat => default NaN (Wolf.fitness <$> MDGWO.wolves s !! k)).
  set (n := length (MDGWO.wolves s)) in *.
  assert (Hkey : forall k x, MDGWO.wolves s !! k = Some x -> key k = Wolf.fitness x).
  { intros k x Hk. unfold key. by rewrite Hk. }
  assert (Hknan : forall k, k ∈ seq 0 n -> ~ is_nan (key k)).
  { intros k [_ Hk]%elem_of_seq.
    destruct (lookup_lt_is_Some_2 (MDGWO.wolves s) k) as [x Hx]; [by unfold n in Hk|].
    rewrite (Hkey k x Hx). apply Hnan. by eapply list_elem_of_lookup_2. }
  pose proof (py_sorted_perm key (seq 0 n)) as Hperm.
  pose proof (py_sorted_ascending key (seq 0 n) Hknan) as Hasc.
  pose proof (py_sorted_length key (seq 0 n)) as Hsl. rewrite length_seq in Hsl.
  destruct (py_sorted key (seq 0 n)) as [|a [|b [|d rest]]] eqn:Hsorted;
    cbn [length] in Hsl; try lia.
  assert (Hdup : NoDup (a :: b :: d :: rest)).
  { rewrite Hperm. apply NoDup_seq. }
  apply NoDup_cons in Hdup as [Ha Hdup]. apply NoDup_cons in Hdup as [Hb Hdup].
  apply NoDup_cons in Hdup as [Hd _].
  assert (Hin : forall k, k ∈ a :: b :: d :: rest -> (k < n)%nat).
  { intros k Hk. rewrite Hperm in Hk. apply elem_of_seq in Hk. lia. }
  destruct (lookup_lt_is_Some_2 (MDGWO.wolves s) a) as [wa Hwa];
    [apply Hin; by left|].
  destruct (lookup_lt_is_Some_2 (MDGWO.wolves s) b) as [wb Hwb];
    [apply Hin; right; by left|].
  destruct (lookup_lt_is_Some_2 (MDGWO.wolves s) d) as [wd Hwd];
    [apply Hin; right; right; by left|].
  exists a, b, d, wa, wb, wd.
  destruct Hasc as (Hfa & Hfb & Hfd & _).
  apply Forall_cons in Hfa as [Hab _]. apply Forall_cons in Hfb as [Hbd _].
  rewrite (Hkey a wa Hwa), (Hkey b wb Hwb) in Hab.
  rewrite (Hkey b wb Hwb), (Hkey d wd Hwd) in Hbd.
  split; [unfold mbind, mgets; fold key; fold n; by rewrite Hsorted|].
  split; [intros ->; apply Ha; by left|].
  split; [intros ->; apply Ha; right; by left|].
  split; [intros ->; apply Hb; by left|].
  do 5 (split; [done|]).
  intros k w Hk Hka Hkb Hkd.
  assert (Hkrest : k ∈ rest).
  { assert (Hkn : k ∈ a :: b :: d :: rest).
    { rewrite Hperm. apply elem_of_seq. apply lookup_lt_Some in Hk.
      unfold n. lia. }
    by repeat (apply elem_of_cons in Hkn as [?|Hkn]; [done|]). }
  rewrite Forall_forall in Hfd. specialize (Hfd k Hkrest).
  by rewrite (Hkey d wd Hwd), (Hkey k w Hk) in Hfd.
Qed.

Lemma leaders_are_three_best_witness :
  exists (a b d : nat) (wa wb wd : Wolf.t),
    MDGWO._update_leaders Scenario.pack_before_move
    = (Ok tt, MDGWO.set_leaders (Some a) (Some b) (Some d)
                Scenario.pack_before_move) /\
    a <> b /\ a <> d /\ b <> d /\
    MDGWO.wolves Scenario.pack_before_move !! a = Some wa /\
    MDGWO.wolves Scenario.pack_before_move !! b = Some wb /\
    MDGWO.wolves Scenario.pack_before_move !! d = Some wd /\
    fl_le (Wolf.fitness wa) (Wolf.fitness wb) /\
    fl_le (Wolf.fitness wb) (Wolf.fitness wd) /\
    forall k w, MDGWO.wolves Scenario.pack_before_move !! k = Some w ->
                k <> a -> k <> b -> k <> d ->
                fl_le (Wolf.fitness wd) (Wolf.fitness w).
Proof.
  apply (leaders_are_three_best Scenario.pack_before_move).
  - cbn. lia.
  - intros w Hw. cbn in Hw.
    repeat (apply elem_of_cons in Hw as [->|Hw]; [simpl; tauto|]).
    by apply elem_of_nil in Hw.
Defined.

(** ** The first population *)










(** ** What a run keeps of the population *)

Section Wolfwise.
Variable P : Wolf.t -> Wolf.t -> Prop.
Variable f : Wolf.t -> pyfloat.
Hypothesis P_refl : forall w, P w w.
Hypothesis P_trans : forall w1 w2 w3, P w1 w2 -> P w2 w3 -> P w1 w3.
Hypothesis P_evaluate : forall w, P w (Spec.evaluate f w).
Hypothesis P_move : forall w w', Frame.same_but_position w w' -> P w w'.

Lemma wolfwise_refl (s : MDGWO.t) : Notions.wolfwise P s s.
Proof. repeat split. intros k w Hw. exists w. by split. Qed.

Lemma wolfwise_trans (s1 s2 s3 : MDGWO.t) :
  Notions.wolfwise P s1 s2 -> Notions.wolfwise P s2 s3 -> Notions.wolfwise P s1 s3.
Proof.
  intros (?&?&?&?&?&?&H12) (?&?&?&?&?&?&H23).
  repeat split; try congruence.
  intros k w Hw. destruct (H12 k w Hw) as (w2 & Hw2 & Hp).
  destruct (H23 k w2 Hw2) as (w3 & Hw3 & Hp'). exists w3.
  split; [done | by eapply P_trans].
Qed.

Lemma wolfwise_same_wolves (s s' : MDGWO.t) :
  MDGWO.num_tasks s' = MDGWO.num_tasks s ->
  MDGWO.num_hosts s' = MDGWO.num_hosts s ->
  MDGWO.population_size s' = MDGWO.population_size s ->
  MDGWO.max_iterations s' = MDGWO.max_iterations s ->
  MDGWO.memory_decay s' = MDGWO.memory_decay s ->
  MDGWO.wolves s' = MDGWO.wolves s ->
  Notions.wolfwise P s s'.
Proof.
  intros ? ? ? ? ? Hw. repeat split; try done; [by rewrite Hw|].
  intros k w Hk. exists w. rewrite Hw. by split.
Qed.

Lemma wolfwise_update_leaders : preserves (Notions.wolfwise P) MDGWO._update_leaders.
Proof.
  intros s. unfold MDGWO._update_leaders, mbind, mgets.
  destruct (py_sorted _ _); cbn [snd mraise mmodify]; [apply wolfwise_refl|].
  by apply wolfwise_same_wolves.
Qed.

Lemma wolfwise_record_best : preserves (Notions.wolfwise P) MDGWO.record_best.
Proof.
  intros s. unfold MDGWO.record_best, MDGWO.deref, mbind, mgets.
  destruct (MDGWO.alpha s) as [a|]; cbn [mret mmodify snd].
  - destruct (MDGWO.wolves s !! a); cbn [mret mraise mmodify snd];
      [by apply wolfwise_same_wolves | apply wolfwise_refl].
  - by apply wolfwise_same_wolves.
Qed.

Lemma wolfwise_evaluate_all : preserves (Notions.wolfwise P) (MDGWO.evaluate_all f).
Proof.
  intros s. rewrite evaluate_all_value. cbn [snd].
  repeat split; cbn [MDGWO.set_wolves MDGWO.wolves]; [by rewrite length_map|].
  intros k w Hw. exists (Spec.evaluate f w). split; [|apply P_evaluate].
  by rewrite lookup_map, Hw.
Qed.

Lemma wolfwise_update_frame (k : nat) (s s' : MDGWO.t) :
  Frame.update_frame k s s' -> Notions.wolfwise P s s'.
Proof.
  intros ((?&?&?&?&?&_) & Hlen & Hother & Hk).
  repeat split; try done.
  intros j w Hw. destruct (decide (j = k)) as [->|Hne].
  - destruct (Hk w Hw) as (w' & Hw' & Hp). exists w'. split; [done|].
    by apply P_move.
  - exists w. rewrite Hother by done. by split.
Qed.

Lemma wolfwise_move_wolves (iteration : Z) :
  preserves (Notions.wolfwise P) (MDGWO.move_wolves iteration).
Proof.
  unfold MDGWO.move_wolves.
  apply preserves_mbind;
    [apply wolfwise_trans
    | apply preserves_readonly; [apply wolfwise_refl | apply readonly_mgets]
    | intros ws].
  apply preserves_mfor; [apply wolfwise_refl | apply wolfwise_trans |].
  intros k s. unfold mbind at 1 2 3. cbn [mgets].
  destruct (decide _); [|apply wolfwise_refl].
  eapply wolfwise_update_frame, update_wolf_preserves.
Qed.

Lemma wolfwise_generation (iteration : Z) :
  preserves (Notions.wolfwise P) (MDGWO.generation f iteration).
Proof.
  unfold MDGWO.generation.
  apply preserves_mbind;
    [apply wolfwise_trans | apply wolfwise_evaluate_all | intros _].
  apply preserves_mbind;
    [apply wolfwise_trans | apply wolfwise_update_leaders | intros _].
  apply preserves_mbind;
    [apply wolfwise_trans | apply wolfwise_record_best | intros _].
  apply preserves_mbind;
    [apply wolfwise_trans | apply wolfwise_move_wolves | intros _].
  intros s. by apply wolfwise_same_wolves.
Qed.

Lemma wolfwise_optimize : preserves (Notions.wolfwise P) (MDGWO.optimize f).
Proof.
  unfold MDGWO.optimize.
  apply preserves_mbind;
    [apply wolfwise_trans | intros s; by apply wolfwise_same_wolves | intros _].
  apply preserves_mbind;
    [apply wolfwise_trans
    | apply preserves_readonly; [apply wolfwise_refl | apply readonly_mgets]
    | intros n].
  apply preserves_mbind; [apply wolfwise_trans | | intros _].
  - apply preserves_mfor; [apply wolfwise_refl | apply wolfwise_trans |].
    intros it. apply wolfwise_generation.
  - apply preserves_mbind;
      [apply wolfwise_trans
      | apply preserves_readonly; [apply wolfwise_refl | apply readonly_mgets]
      | intros a].
    apply preserves_readonly; [apply wolfwise_refl|].
    destruct a; [apply readonly_mret | apply readonly_mraise].
Qed.
End Wolfwise.

Lemma fl_lt_trans (a b c : pyfloat) : fl_lt a b -> fl_lt b c -> fl_lt a c.
Proof. destruct a, b, c; simpl; try done; lra. Qed.

Lemma sum_fitness_pure : Spec.position_pure Scenario.sum_fitness.
Proof. intros w w' H. unfold Scenario.sum_fitness. by rewrite H. Qed.

Lemma sum_fitness_never_nan : Spec.never_nan Scenario.sum_fitness.
Proof. intros w. unfold Scenario.sum_fitness. simpl. tauto. Qed.

(** X18. Whether it returns or raises, [optimize] leaves the
    hyperparameters and the number of wolves as they were, every wolf
    keeps its [num_tasks] and [num_hosts], and the personal best fitness of
    a wolf changes only to a smaller value. *)
Theorem optimize_keeps_population (f : Wolf.t -> pyfloat) (s : MDGWO.t) :
  Notions.wolfwise Notions.kept s (snd (MDGWO.optimize f s)).
Proof.
  apply (wolfwise_optimize Notions.kept f).
  - intros w. repeat split. by left.
  - intros w1 w2 w3 (Ht & Hh & Hp) (Ht' & Hh' & Hp').
    split; [congruence|]. split; [congruence|].
    destruct Hp as [Hp|Hp], Hp' as [Hp'|Hp'].
    + left. congruence.
    + right. by rewrite <- Hp.
    + right. by rewrite Hp'.
    + right. by eapply fl_lt_trans.
  - intros w. unfold Spec.evaluate. destruct (decide _) as [Hlt|_].
    + split; [done|]. split; [done|]. by right.
    + split; [done|]. split; [done|]. by left.
  - intros w w' (Ht & Hh & _ & _ & Hp). split; [done|]. split; [done|]. by left.
Qed.

Lemma wolfwise_Forall (P : Wolf.t -> Wolf.t -> Prop) (Q : Wolf.t -> Prop)
    (s s' : MDGWO.t) :
  (forall w w', P w w' -> Q w -> Q w') ->
  Notions.wolfwise P s s' ->
  Forall Q (MDGWO.wolves s) -> Forall Q (MDGWO.wolves s').
Proof.
  intros HPQ (_&_&_&_&_&Hlen&Hw) HQ. rewrite Forall_forall in HQ.
  apply Forall_forall. intros w' [k Hk]%list_elem_of_lookup.
  destruct (lookup_lt_is_Some_2 (MDGWO.wolves s) k) as [w Hwk].
  { rewrite <- Hlen. by eapply lookup_lt_Some. }
  destruct (Hw k w Hwk) as (w'' & Hw'' & Hp).
  rewrite Hk in Hw''. injection Hw'' as <-.
  eapply HPQ; [done|]. apply HQ. by eapply list_elem_of_lookup_2.
Qed.

(** X19. For a fitness function that looks at the position only,
    [optimize] keeps the personal bests consistent: where every wolf's
    [pbest_fitness] is the fitness of its [pbest] position, or the infinity
    it was created with, this still holds when [optimize] ends. *)
Theorem optimize_keeps_pbest_consistent (f : Wolf.t -> pyfloat) (s : MDGWO.t) :
  Spec.position_pure f ->
  Forall (Notions.pbest_consistent f) (MDGWO.wolves s) ->
  Forall (Notions.pbest_consistent f) (MDGWO.wolves (snd (MDGWO.optimize f s))).
Proof.
  intros Hpure.
  apply (wolfwise_Forall
           (fun w w' => Notions.pbest_consistent f w ->
                        Notions.pbest_consistent f w')); [tauto|].
  apply (wolfwise_optimize _ f).
  - tauto.
  - tauto.
  - intros w Hw. unfold Spec.evaluate, Notions.pbest_consistent.
    destruct (decide _) as [Hlt|_]; cbn [Wolf.set_pbest Wolf.set_fitness
      Wolf.pbest_fitness Wolf.pbest Wolf.position].
    + right. by apply Hpure.
    + destruct Hw as [Hw|Hw]; [by left|]. right. rewrite Hw. by apply Hpure.
  - intros w w' (_ & _ & _ & Hpb & Hpf) [Hw|Hw].
    + left. congruence.
    + right. rewrite Hpf, Hw, Hpb. by apply Hpure.
Qed.

Lemma optimize_keeps_pbest_consistent_witness :
  Forall (Notions.pbest_consistent Scenario.sum_fitness)
    (MDGWO.wolves (snd (MDGWO.optimize Scenario.sum_fitness Scenario.pack))).
Proof.
  apply (optimize_keeps_pbest_consistent Scenario.sum_fitness Scenario.pack).
  - apply sum_fitness_pure.
  - cbn [Scenario.pack MDGWO.wolves].
    repeat (constructor; [by left|]). constructor.
Defined.

(** ** The wolf a run returns *)

Lemma generation_facts (f : Wolf.t -> pyfloat) (iteration : Z) (s s' : MDGWO.t) :
  MDGWO.generation f iteration s = (Ok tt, s') ->
  exists a w0,
    MDGWO.alpha s' = Some a /\
    MDGWO.wolves s !! a = Some w0 /\
    MDGWO.wolves s' !! a = Some (Spec.evaluate f w0) /\
    MDGWO.best_fitness_history s' = MDGWO.best_fitness_history s ++ [f w0] /\
    ((forall w, w ∈ MDGWO.wolves s -> ~ is_nan (f w)) ->
     forall w, w ∈ MDGWO.wolves s -> fl_le (f w0) (f w)) /\
    length (MDGWO.wolves s') = length (MDGWO.wolves s) /\
    forall k w, MDGWO.wolves s !! k = Some w ->
      exists w', MDGWO.wolves s' !! k = Some w' /\
                 Frame.same_but_position (Spec.evaluate f w) w'.
Proof.
  unfold MDGWO.generation.
  erewrite mbind_ok by apply evaluate_all_value.
  set (s1 := MDGWO.set_wolves (map (Spec.evaluate f) (MDGWO.wolves s)) s).
  destruct (decide (MDGWO.wolves s1 = [])) as [Hnil|Hne].
  { erewrite mbind_raise by (by apply update_leaders_empty). done. }
  destruct (update_leaders_value s1 Hne) as (a & b & d & Hrank & Ha & Hmin).
  erewrite mbind_ok by exact Hrank.
  set (s2 := MDGWO.set_leaders (Some a) (Some b) (Some d) s1) in *.
  assert (Hlen1 : length (MDGWO.wolves s1) = length (MDGWO.wolves s)).
  { unfold s1. cbn [MDGWO.set_wolves MDGWO.wolves]. apply length_map. }
  destruct (lookup_lt_is_Some_2 (MDGWO.wolves s) a) as [w0 Hw0]; [lia|].
  assert (Hwa : MDGWO.wolves s2 !! a = Some (Spec.evaluate f w0)).
  { unfold s2, s1. cbn [MDGWO.set_leaders MDGWO.set_wolves MDGWO.wolves].
    by rewrite lookup_map, Hw0. }
  erewrite mbind_ok by (by apply (record_best_value s2 a (Spec.evaluate f w0))).
  set (s3 := MDGWO.set_history _ s2).
  pose proof (move_wolves_keeps_leader a iteration s3) as Hkeep.
  pose proof (wolfwise_move_wolves Frame.same_but_position
                same_but_position_refl same_but_position_trans
                ltac:(done) iteration s3) as Hwise.
  destruct (MDGWO.move_wolves iteration s3) as [[[]|e] s4] eqn:Hmove.
  2:{ erewrite mbind_raise by exact Hmove. done. }
  erewrite mbind_ok by exact Hmove. unfold mmodify. intros [= <-].
  cbn [snd] in Hkeep, Hwise.
  destruct (Hkeep eq_refl) as (Hsame & Hlen & Hlead).
  destruct Hsame as (_&_&_&_&_&Halpha&_&_&_&Hhist).
  destruct Hwise as (_&_&_&_&_&_&Hwolves).
  exists a, w0. cbn [MDGWO.set_iteration MDGWO.alpha MDGWO.wolves
                     MDGWO.best_fitness_history].
  split; [exact Halpha|]. split; [done|]. split; [by rewrite Hlead|].
  split.
  { rewrite Hhist. unfold s3, s2, s1.
    cbn [MDGWO.set_history MDGWO.set_leaders MDGWO.set_wolves
         MDGWO.best_fitness_history].
    by rewrite evaluate_fitness. }
  split; [|split].
  - intros Hnan w Hw.
    specialize (Hmin ltac:(
      intros w1 (w2 & -> & Hw2)%list_elem_of_fmap; rewrite evaluate_fitness;
      by apply Hnan)).
    specialize (Hmin (Spec.evaluate f w0) (Spec.evaluate f w) Hwa).
    rewrite !evaluate_fitness in Hmin. apply Hmin.
    apply list_elem_of_fmap. by exists w.
  - rewrite Hlen. unfold s3, s2, s1.
    cbn [MDGWO.set_history MDGWO.set_leaders MDGWO.set_wolves MDGWO.wolves].
    apply length_map.
  - intros k w Hk. apply (Hwolves k (Spec.evaluate f w)).
    unfold s3, s2, s1.
    cbn [MDGWO.set_history MDGWO.set_leaders MDGWO.set_wolves MDGWO.wolves].
    by rewrite lookup_map, Hk.
Qed.

Lemma fl_le_PInf (a : pyfloat) : ~ is_nan a -> fl_le a PInf.
Proof. destruct a; simpl; tauto. Qed.

Lemma generation_best (f : Wolf.t -> pyfloat) (iteration : Z) (s s' : MDGWO.t) :
  Spec.position_pure f -> Spec.never_nan f ->
  Notions.between_generations f s ->
  MDGWO.generation f iteration s = (Ok tt, s') ->
  exists a, Notions.best_so_far f a s'.
Proof.
  intros Hpure Hnan [Hpb Hlast] Hrun.
  destruct (generation_facts f iteration s s' Hrun)
    as (a & w0 & Halpha & Hw0 & Hwa & Hhist & Hmin & Hlen & Hwolves).
  specialize (Hmin ltac:(intros w _; apply Hnan)).
  exists a, (Spec.evaluate f w0).
  split; [done|]. split; [done|].
  assert (Hfa : Wolf.fitness (Spec.evaluate f w0) = f (Spec.evaluate f w0)).
  { rewrite evaluate_fitness. apply Hpure. by rewrite evaluate_position. }
  split; [done|]. split; [by rewrite Hhist, last_snoc, evaluate_fitness|].
  rewrite evaluate_fitness.
  intros w' [k Hk]%list_elem_of_lookup.
  destruct (lookup_lt_is_Some_2 (MDGWO.wolves s) k) as [w Hw].
  { rewrite <- Hlen. by eapply lookup_lt_Some. }
  destruct (Hwolves k w Hw) as (w'' & Hw'' & (_ & _ & Hfit & _ & Hpf)).
  rewrite Hk in Hw''. injection Hw'' as <-.
  assert (Hin : w ∈ MDGWO.wolves s) by (by eapply list_elem_of_lookup_2).
  rewrite Hfit, Hpf, evaluate_fitness. split; [by apply Hmin|].
  unfold Spec.evaluate. destruct (decide _) as [_|_];
    cbn [Wolf.set_pbest Wolf.set_fitness Wolf.pbest_fitness]; [by apply Hmin|].
  destruct (Hpb w Hin) as [->|(x & Hx & Hle)]; [apply fl_le_PInf, Hnan|].
  destruct (Hlast x Hx) as (k1 & w1 & Hk1 & Hle1).
  eapply fl_le_trans; [|exact Hle]. eapply fl_le_trans; [|exact Hle1].
  apply Hmin. by eapply list_elem_of_lookup_2.
Qed.

Lemma best_so_far_between (f : Wolf.t -> pyfloat) (a : nat) (s : MDGWO.t) :
  Spec.never_nan f ->
  Notions.best_so_far f a s -> Notions.between_generations f s.
Proof.
  intros Hnan (wa & Halpha & Hwa & Hfa & Hlast & Hbest). split.
  - intros w Hw. right. exists (Wolf.fitness wa). split; [done|]. by apply Hbest.
  - intros x Hx. rewrite Hlast in Hx. injection Hx as <-.
    exists a, wa. split; [done|]. rewrite <- Hfa. apply fl_le_refl.
    rewrite Hfa. apply Hnan.
Qed.

Lemma generations_best (f : Wolf.t -> pyfloat) (its : list Z) (s s' : MDGWO.t) :
  Spec.position_pure f -> Spec.never_nan f ->
  its <> [] ->
  Notions.between_generations f s ->
  mfor its (MDGWO.generation f) s = (Ok tt, s') ->
  exists a, Notions.best_so_far f a s'.
Proof.
  intros Hpure Hnan. revert s.
  induction its as [|it its IH]; intros s Hne Hinv; [done|].
  cbn [mfor]. unfold mbind at 1.
  destruct (MDGWO.generation f it s) as [[[]|e] s1] eqn:Hgen; [|done].
  destruct (generation_best f it s s1 Hpure Hnan Hinv Hgen) as [a Ha].
  destruct its as [|it' its'].
  - cbn [mfor mret]. intros [= <-]. by exists a.
  - apply IH; [done|]. by eapply best_so_far_between.
Qed.

(** X20. Over a new population, with a fitness function that looks at the
    position only and never returns NaN, the wolf that [optimize] returns
    after at least one generation is the best the run has seen: its
    fitness is the fitness of its final position and the last recorded
    value, and no wolf has a smaller fitness or a smaller personal best
    fitness. *)
Theorem optimize_returns_best (f : Wolf.t -> pyfloat) (s s' : MDGWO.t) (a : nat) :
  Spec.position_pure f -> Spec.never_nan f ->
  Forall (fun w => Wolf.pbest_fitness w = PInf) (MDGWO.wolves s) ->
  (1 <= MDGWO.max_iterations s)%Z ->
  MDGWO.optimize f s = (Ok a, s') ->
  Notions.best_so_far f a s'.
Proof.
  intros Hpure Hnan Hfresh Hbudget. unfold MDGWO.optimize.
  erewrite mbind_ok by reflexivity. erewrite mbind_ok by reflexivity.
  cbn [MDGWO.set_history MDGWO.max_iterations].
  set (s0 := MDGWO.set_history [] s).
  assert (Hinv : Notions.between_generations f s0).
  { split; [|by intros x [=]]. intros w Hw. left.
    rewrite Forall_forall in Hfresh. by apply Hfresh. }
  unfold mbind at 1.
  destruct (mfor (seqZ 0 (MDGWO.max_iterations s)) (MDGWO.generation f) s0)
    as [[[]|e] s1] eqn:Hrun; [|done].
  destruct (generations_best f (seqZ 0 (MDGWO.max_iterations s)) s0 s1
              Hpure Hnan) as [a' Ha']; [|done..|].
  { intros Hnil%(f_equal length). rewrite length_seqZ in Hnil. cbn in Hnil. lia. }
  unfold mbind, mgets. destruct Ha' as (wa & Halpha & Hrest).
  rewrite Halpha. cbn [mret]. intros [= <- <-]. by exists wa.
Qed.

Lemma optimize_returns_best_witness :
  exists a s',
    MDGWO.optimize Scenario.sum_fitness Scenario.pack = (Ok a, s') /\
    Notions.best_so_far Scenario.sum_fitness a s'.
Proof.
  destruct (optimize_completes Scenario.sum_fitness 3 Scenario.pack)
    as (a & s' & Hrun & _); [apply pack_uniform | simpl; lia|].
  exists a, s'. split; [exact Hrun|].
  apply (optimize_returns_best Scenario.sum_fitness Scenario.pack s' a).
  - apply sum_fitness_pure.
  - apply sum_fitness_never_nan.
  - cbn [Scenario.pack MDGWO.wolves]. repeat (constructor; [done|]). constructor.
  - simpl. lia.
  - exact Hrun.
Defined.

(** X21. [optimize] on an optimizer without wolves, as [__init__] leaves
    it, raises [IndexError] in its first generation when the budget is at
    least 1: there is no wolf to rank; nothing but the cleared record has
    changed by then. *)
Theorem optimize_without_population (f : Wolf.t -> pyfloat) (s : MDGWO.t) :
  MDGWO.wolves s = [] ->
  (1 <= MDGWO.max_iterations s)%Z ->
  MDGWO.optimize f s = (Raise IndexError, MDGWO.set_history [] s).
Proof.
  intros Hnil Hbudget. unfold MDGWO.optimize.
  erewrite mbind_ok by reflexivity. erewrite mbind_ok by reflexivity.
  cbn [MDGWO.set_history MDGWO.max_iterations].
  set (s0 := MDGWO.set_history [] s).
  assert (Hnil0 : MDGWO.wolves s0 = []) by done.
  erewrite mbind_raise; [reflexivity|].
  rewrite (seqZ_cons 0) by lia. cbn [mfor].
  erewrite mbind_raise; [reflexivity|]. unfold MDGWO.generation.
  erewrite mbind_ok by apply evaluate_all_value.
  rewrite Hnil0. cbn [map]. rewrite <- Hnil0, set_wolves_same.
  erewrite mbind_raise; [reflexivity|]. by apply update_leaders_empty.
Qed.

Lemma optimize_without_population_witness :
  MDGWO.optimize Scenario.sum_fitness Scenario.linear_optimizer
  = (Raise IndexError, MDGWO.set_history [] Scenario.linear_optimizer).
Proof.
  apply (optimize_without_population Scenario.sum_fitness
           Scenario.linear_optimizer).
  - reflexivity.
  - simpl. lia.
Defined.

(** ** Where a move puts a wolf *)

Lemma mbind_readonly {S A B : Type} (m : M S A) (k : A -> M S B) (s : S) :
  readonly m ->
  mbind m k s = match fst (m s) with
                | Ok a => k a s
                | Raise e => (Raise e, s)
                end.
Proof.
  intros H. unfold mbind. specialize (H s).
  destruct (m s) as [[a|e] s1]; simpl in *; by subst.
Qed.

Lemma enforce_bound_box (num_hosts : Z) (l : list R) :
  (1 <= num_hosts)%Z ->
  Notions.in_box (IZR (num_hosts - 1)) (imap (MDGWO.enforce_bound num_hosts) l).
Proof.
  intros Hnh i x. rewrite list_lookup_imap.
  destruct (l !! i) as [y|]; [|done].
  change (MDGWO.enforce_bound num_hosts i <$> Some y)
    with (Some (MDGWO.enforce_bound num_hosts i y)).
  intros [= <-]. unfold MDGWO.enforce_bound.
  assert (0 <= IZR (num_hosts - 1)) by (apply IZR_le; lia).
  destruct (decide (i mod 3 = 0)%nat); [apply clip_bounds; lra|].
  destruct (decide (i mod 3 = 1)%nat); apply clip_bounds; lra.
Qed.

Lemma np_round_between (x : R) (a b : Z) :
  IZR a <= x <= IZR b -> (a <= np_round x <= b)%Z.
Proof.
  intros [Ha Hb]. pose proof (np_round_nearest x) as Hn.
  assert (Hn' : - (1 / 2) <= x - IZR (np_round x) <= 1 / 2).
  { unfold Rabs in Hn. destruct (Rcase_abs (x - IZR (np_round x))); lra. }
  clear Hn. split.
  - destruct (Z_le_gt_dec a (np_round x)) as [|Hgt]; [done|].
    assert (np_round x <= a - 1)%Z as Hle%IZR_le by lia.
    rewrite minus_IZR in Hle. lra.
  - destruct (Z_le_gt_dec (np_round x) b) as [|Hgt]; [done|].
    assert (b + 1 <= np_round x)%Z as Hle%IZR_le by lia.
    rewrite plus_IZR in Hle. lra.
Qed.

Lemma update_wolf_moved (wolf : nat) (iteration : Z) (s s' : MDGWO.t) :
  is_Some (MDGWO.alpha s) -> is_Some (MDGWO.beta s) -> is_Some (MDGWO.delta s) ->
  MDGWO.update_wolf wolf iteration s = (Ok tt, s') ->
  exists w new_position,
    MDGWO.wolves s !! wolf = Some w /\
    s' = MDGWO.set_wolves
           (<[wolf := Wolf.set_position
                        (imap (MDGWO.enforce_bound (MDGWO.num_hosts s))
                              new_position) w]> (MDGWO.wolves s)) s.
Proof.
  intros [a Ha] [b Hb] [d Hd]. unfold MDGWO.update_wolf.
  do 3 erewrite mbind_ok by reflexivity. rewrite Ha, Hb, Hd.
  rewrite mbind_readonly by apply readonly_memory_coefficient.
  destruct (fst (MDGWO._memory_coefficient iteration s)) as [eta|]; [|done].
  do 3 (rewrite mbind_readonly by apply readonly_deref;
        destruct (fst (MDGWO.deref _ s)); [|done]).
  do 2 (rewrite mbind_readonly by apply readonly_mlift; cbn [mlift fst];
        destruct (np_zip _ _ _); [|done]).
  rewrite mbind_readonly by apply readonly_deref.
  unfold MDGWO.deref at 1. unfold mbind at 1. cbn [mgets].
  destruct (MDGWO.wolves s !! wolf) as [w|] eqn:Hw; cbn [mret mraise fst]; [|done].
  do 2 (rewrite mbind_readonly by apply readonly_mlift; cbn [mlift fst];
        destruct (np_zip _ _ _); [|done]).
  erewrite mbind_ok by reflexivity.
  match goal with
  | |- MDGWO.on_wolf _ (mmodify (Wolf.set_position ?p) ;;m _) _ = _ -> _ =>
      rewrite (on_wolf_value
                 (fun w => Wolf.set_position
                             (imap (MDGWO.enforce_bound (MDGWO.num_hosts s)) p) w)
                 _ wolf s w eq_refl Hw)
  end.
  intros [= <-]. by eexists _, _.
Qed.

(** X22. When the leaders are set and the optimizer has at least one host,
    a wolf that [update_wolf] has moved lies inside
    [0, num_hosts - 1] x [1, 3] x [0.4, 2]; decoding such a wolf never
    wraps around: the primary node of a task is its host coordinate,
    rounded. *)
Theorem update_wolf_in_box (wolf : nat) (iteration : Z) (s s' : MDGWO.t) :
  (1 <= MDGWO.num_hosts s)%Z ->
  is_Some (MDGWO.alpha s) -> is_Some (MDGWO.beta s) -> is_Some (MDGWO.delta s) ->
  MDGWO.update_wolf wolf iteration s = (Ok tt, s') ->
  exists w',
    MDGWO.wolves s' !! wolf = Some w' /\
    Notions.in_box (IZR (MDGWO.num_hosts s - 1)) (Wolf.position w') /\
    (Wolf.num_hosts w' = MDGWO.num_hosts s ->
     forall j x, Wolf.position w' !! (3 * j)%nat = Some x ->
       Spec.decoded_node w' j = np_round x /\
       (0 <= np_round x < MDGWO.num_hosts s)%Z).
Proof.
  intros Hnh Ha Hb Hd Hrun.
  destruct (update_wolf_moved wolf iteration s s' Ha Hb Hd Hrun)
    as (w & new_position & Hw & ->).
  eexists. cbn [MDGWO.set_wolves MDGWO.wolves].
  split; [apply list_lookup_insert_eq; by eapply lookup_lt_Some|].
  pose proof (enforce_bound_box (MDGWO.num_hosts s) new_position Hnh) as Hbox.
  split; [exact Hbox|].
  cbn [Wolf.set_position Wolf.num_hosts Wolf.position]. intros Hwh j x Hx.
  specialize (Hbox (3 * j)%nat x Hx).
  rewrite decide_True in Hbox by (by rewrite Nat.mul_comm, Nat.Div0.mod_mul).
  assert (Hround : (0 <= np_round x <= MDGWO.num_hosts s - 1)%Z)
    by (by apply np_round_between).
  split; [|lia].
  unfold Spec.decoded_node. cbn [Wolf.set_position Wolf.num_hosts Wolf.position].
  rewrite Hx, Hwh. cbn [default]. apply Z.mod_small. lia.
Qed.

Lemma update_wolf_in_box_witness :
  exists w',
    MDGWO.wolves Scenario.pack_after_one !! 2%nat = Some w' /\
    Notions.in_box (IZR (MDGWO.num_hosts Scenario.pack_before_move - 1))
      (Wolf.position w') /\
    (Wolf.num_hosts w' = MDGWO.num_hosts Scenario.pack_before_move ->
     forall j x, Wolf.position w' !! (3 * j)%nat = Some x ->
       Spec.decoded_node w' j = np_round x /\
       (0 <= np_round x < MDGWO.num_hosts Scenario.pack_before_move)%Z).
Proof.
  apply (update_wolf_in_box 2 0 Scenario.pack_before_move Scenario.pack_after_one).
  - simpl. lia.
  - by eexists.
  - by eexists.
  - by eexists.
  - apply move_third_wolf.
Defined.

(** ** Reading the result *)

Lemma on_wolf_readonly {A : Type} (k : nat) (m : M Wolf.t A) (s : MDGWO.t) :
  readonly m ->
  MDGWO.on_wolf k m s
  = (match MDGWO.wolves s !! k with
     | Some w => fst (m w)
     | None => Raise IndexError
     end, s).
Proof.
  intros Hm. unfold MDGWO.on_wolf, MDGWO.deref, mbind, mgets.
  destruct (MDGWO.wolves s !! k) as [w|] eqn:Hw; cbn [mret mraise]; [|done].
  specialize (Hm w). destruct (m w) as [r w']. cbn [snd fst] in *. subst w'.
  unfold mmodify, mlift. by rewrite list_insert_id, set_wolves_same.
Qed.


(** X23. [get_best_schedule] never changes the optimizer.  Without an
    alpha wolf it returns the empty schedule; otherwise it returns what
    [decode_position] gives for the alpha wolf, or raises what that
    raises. *)
Theorem get_best_schedule_reads (s : MDGWO.t) :
  snd (Readout.get_best_schedule s) = s /\
  (MDGWO.alpha s = None -> fst (Readout.get_best_schedule s) = Ok ∅) /\
  (forall a wa,
     MDGWO.alpha s = Some a -> MDGWO.wolves s !! a = Some wa ->
     fst (Readout.get_best_schedule s) = fst (Wolf.decode_position wa) /\
     (Wolf.num_hosts wa <> 0%Z ->
      exists schedule,
        fst (Readout.get_best_schedule s) = Ok schedule /\
        forall j : nat,
          schedule !! j =
          if decide (j < Z.to_nat (Wolf.num_tasks wa))%nat
          then Some (Spec.decoded_entry wa j) else None)).
Proof.
  assert (Hrun : Readout.get_best_schedule s
                 = (match MDGWO.alpha s with
                    | Some a =>
                        match MDGWO.wolves s !! a with
                        | Some w => fst (Wolf.decode_position w)
                        | None => Raise IndexError
                        end
                    | None => Ok ∅
                    end, s)).
  { unfold Readout.get_best_schedule, mbind at 1. cbn [mgets].
    destruct (MDGWO.alpha s) as [a|]; [|done].
    by rewrite on_wolf_readonly by apply readonly_decode_position. }
  rewrite Hrun. cbn [fst snd]. split; [done|].
  split; [by intros ->|]. intros a wa -> ->. split; [done|]. intros Hnh.
  destruct (decode_position_value wa Hnh) as (schedule & Hdec & Hentries).
  exists schedule. by rewrite Hdec.
Qed.




(** ** The baseline without memory *)

Lemma standard_update_moved (wolf : nat) (iteration : Z) (s s' : MDGWO.t) :
  is_Some (MDGWO.alpha s) -> is_Some (MDGWO.beta s) -> is_Some (MDGWO.delta s) ->
  StandardGWO.update_wolf wolf iteration s = (Ok tt, s') ->
  exists w center,
    MDGWO.wolves s !! wolf = Some w /\
    Notions.leaders_center s = Some center /\
    s' = MDGWO.set_wolves
           (<[wolf := Wolf.set_position center w]> (MDGWO.wolves s)) s.
Proof.
  intros [a Ha] [b Hb] [d Hd]. unfold StandardGWO.update_wolf.
  unfold Notions.leaders_center.
  do 3 erewrite mbind_ok by reflexivity. rewrite Ha, Hb, Hd.
  do 3 (rewrite mbind_readonly by apply readonly_deref;
        unfold MDGWO.deref at 1; unfold mbind at 1; cbn [mgets];
        destruct (MDGWO.wolves s !! _); cbn [mret mraise fst]; [|done]).
  do 2 (rewrite mbind_readonly by apply readonly_mlift; cbn [mlift fst];
        destruct (np_zip _ _ _); [|done]).
  erewrite mbind_ok by reflexivity.
  destruct (MDGWO.wolves s !! wolf) as [w|] eqn:Hw.
  - match goal with
    | |- MDGWO.on_wolf _ (mmodify (Wolf.set_position ?p) ;;m _) _ = _ -> _ =>
        rewrite (on_wolf_value
                   (fun w => Wolf.set_position
                               (imap (MDGWO.enforce_bound (MDGWO.num_hosts s)) p) w)
                   _ wolf s w eq_refl Hw)
    end.
    intros [= <-]. by eexists _, _.
  - unfold MDGWO.on_wolf, MDGWO.deref, mbind, mgets. by rewrite Hw.
Qed.

Lemma leaders_center_insert (s : MDGWO.t) (k : nat) (w : Wolf.t) :
  Notions.follower s k ->
  Notions.leaders_center (MDGWO.set_wolves (<[k := w]> (MDGWO.wolves s)) s)
  = Notions.leaders_center s.
Proof.
  intros (Ha & Hb & Hd). unfold Notions.leaders_center.
  cbn [MDGWO.set_wolves MDGWO.alpha MDGWO.beta MDGWO.delta MDGWO.wolves
       MDGWO.num_hosts].
  destruct (MDGWO.alpha s) as [a|]; [|done].
  destruct (MDGWO.beta s) as [b|]; [|done].
  destruct (MDGWO.delta s) as [d|]; [|done].
  rewrite !list_lookup_insert_ne by congruence. done.
Qed.

Lemma standard_moves_loop (iteration : Z) (l : list nat) (s s' : MDGWO.t) :
  is_Some (MDGWO.alpha s) -> is_Some (MDGWO.beta s) -> is_Some (MDGWO.delta s) ->
  mfor l
    (fun k =>
       a <-m mgets MDGWO.alpha ;;
       b <-m mgets MDGWO.beta ;;
       d <-m mgets MDGWO.delta ;;
       if decide (Some k <> a /\ Some k <> b /\ Some k <> d)
       then StandardGWO.update_wolf k iteration
       else mret tt) s = (Ok tt, s') ->
  length (MDGWO.wolves s') = length (MDGWO.wolves s) /\
  forall k,
    (k ∈ l -> Notions.follower s k ->
     forall w', MDGWO.wolves s' !! k = Some w' ->
                Notions.leaders_center s = Some (Wolf.position w')) /\
    (k ∉ l \/ ~ Notions.follower s k ->
     MDGWO.wolves s' !! k = MDGWO.wolves s !! k).
Proof.
  revert s. induction l as [|k0 l IH]; intros s Ha Hb Hd.
  - cbn [mfor mret]. intros [= <-]. split; [done|]. intros k.
    split; [by intros ?%elem_of_nil | done].
  - cbn [mfor]. unfold mbind at 1. unfold mbind at 1 2 3. cbn [mgets].
    destruct (decide (Some k0 <> MDGWO.alpha s /\ Some k0 <> MDGWO.beta s /\
                      Some k0 <> MDGWO.delta s)) as [Hf|Hf].
    + destruct (StandardGWO.update_wolf k0 iteration s) as [[[]|e] s1] eqn:Hstep;
        [|done].
      destruct (standard_update_moved k0 iteration s s1 Ha Hb Hd Hstep)
        as (w & center & Hw & Hcenter & ->).
      intros Hrest. apply IH in Hrest as [Hlen Hrest]; [|done..].
      cbn [MDGWO.set_wolves MDGWO.wolves] in Hlen, Hrest.
      rewrite length_insert in Hlen. split; [done|]. intros k.
      destruct (Hrest k) as [Hin Hout].
      rewrite leaders_center_insert in Hin by done. split.
      * intros [->|Hk]%elem_of_cons Hfk w' Hw'.
        -- destruct (decide (k0 ∈ l)) as [Hl|Hl]; [by apply Hin|].
           rewrite Hout in Hw' by (by left).
           rewrite list_lookup_insert_eq in Hw' by (by eapply lookup_lt_Some).
           injection Hw' as <-. done.
        -- by apply Hin.
      * intros Hk. rewrite Hout.
        -- apply list_lookup_insert_ne. intros ->. destruct Hk as [Hk|Hk].
           ++ apply Hk. by left.
           ++ by apply Hk.
        -- destruct Hk as [Hk|Hk]; [left|by right].
           intros Hl. apply Hk. by right.
    + cbn [mret]. intros Hrest. apply IH in Hrest as [Hlen Hrest]; [|done..].
      split; [done|]. intros k. destruct (Hrest k) as [Hin Hout]. split.
      * intros [->|Hk]%elem_of_cons Hfk; [done | by apply Hin].
      * intros Hk. apply Hout. destruct Hk as [Hk|Hk]; [left|by right].
        intros Hl. apply Hk. by right.
Qed.

(** X25. In the baseline, whose move has no memory term, one pass over the
    population puts every wolf that is not a leader at one and the same
    position, the bounded mean of the three leaders, and leaves the
    leaders where they are. *)
Theorem standard_gwo_collapses (iteration : Z) (s s' : MDGWO.t) :
  is_Some (MDGWO.alpha s) -> is_Some (MDGWO.beta s) -> is_Some (MDGWO.delta s) ->
  StandardGWO.move_wolves iteration s = (Ok tt, s') ->
  (forall k w', MDGWO.wolves s' !! k = Some w' -> Notions.follower s k ->
     Notions.leaders_center s = Some (Wolf.position w')) /\
  (forall k1 k2 w1 w2,
     MDGWO.wolves s' !! k1 = Some w1 -> MDGWO.wolves s' !! k2 = Some w2 ->
     Notions.follower s k1 -> Notions.follower s k2 ->
     Wolf.position w1 = Wolf.position w2) /\
  (forall k, ~ Notions.follower s k ->
     MDGWO.wolves s' !! k = MDGWO.wolves s !! k).
Proof.
  intros Ha Hb Hd. unfold StandardGWO.move_wolves.
  erewrite mbind_ok by reflexivity. intros Hrun.
  apply standard_moves_loop in Hrun as [Hlen Hrun]; [|done..].
  assert (Hcenter : forall k w', MDGWO.wolves s' !! k = Some w' ->
            Notions.follower s k ->
            Notions.leaders_center s = Some (Wolf.position w')).
  { intros k w' Hw' Hf. destruct (Hrun k) as [Hin _]. apply Hin; [|done..].
    apply elem_of_seq. apply lookup_lt_Some in Hw'. lia. }
  split; [done|]. split.
  - intros k1 k2 w1 w2 Hw1 Hw2 Hf1 Hf2.
    pose proof (Hcenter k1 w1 Hw1 Hf1) as H1.
    pose proof (Hcenter k2 w2 Hw2 Hf2) as H2. congruence.
  - intros k Hk. destruct (Hrun k) as [_ Hout]. apply Hout. by right.
Qed.

Lemma standard_move_third_wolf :
  StandardGWO.update_wolf 2 0 Scenario.pack_before_move
  = (Ok tt, Scenario.pack_after_one).
Proof.
  unfold StandardGWO.update_wolf.
  do 3 erewrite mbind_ok by reflexivity.
  cbn [Scenario.pack_before_move MDGWO.alpha MDGWO.beta MDGWO.delta].
  do 3 erewrite mbind_ok by (apply deref_value; reflexivity).
  erewrite mbind_ok by (unfold mlift; rewrite np_zip_same_length by done; reflexivity).
  erewrite mbind_ok by (unfold mlift; rewrite np_zip_same_length by done; reflexivity).
  erewrite mbind_ok by reflexivity.
  unfold MDGWO.on_wolf.
  erewrite mbind_ok by (apply deref_value; reflexivity).
  unfold mbind, mmodify, mlift. f_equal.
  unfold Scenario.pack_after_one, Scenario.pack_before_move, MDGWO.set_wolves.
  cbn [MDGWO.num_tasks MDGWO.num_hosts MDGWO.population_size MDGWO.max_iterations
       MDGWO.memory_decay MDGWO.wolves MDGWO.alpha MDGWO.beta MDGWO.delta
       MDGWO.iteration MDGWO.best_fitness_history insert list_insert].
  f_equal. do 2 f_equal.
  unfold Scenario.moved_wolf, Scenario.evaluated_wolf, Wolf.set_position.
  cbn [Wolf.position Wolf.num_tasks Wolf.num_hosts Wolf.fitness Wolf.pbest
       Wolf.pbest_fitness zip_with map imap].
  assert (H0 : MDGWO.enforce_bound 10 0 ((9 + 0 + 3) / 3) = 4).
  { unfold MDGWO.enforce_bound. rewrite decide_True by done.
    change (IZR (10 - 1)) with 9. rewrite clip_inside; lra. }
  assert (H1 : MDGWO.enforce_bound 10 1 ((1 + 1 + 1) / 3) = 1).
  { unfold MDGWO.enforce_bound. rewrite decide_False by done.
    rewrite decide_True by done. rewrite clip_inside; lra. }
  assert (H2 : MDGWO.enforce_bound 10 2 ((1 + 1 + 1) / 3) = 1).
  { unfold MDGWO.enforce_bound. rewrite decide_False by done.
    rewrite decide_False by done. rewrite clip_inside; lra. }
  unfold compose. rewrite H0, H1, H2. done.
Qed.

Lemma standard_move_pack :
  StandardGWO.move_wolves 0 Scenario.pack_before_move
  = (Ok tt, Scenario.pack_after_one).
Proof.
  unfold StandardGWO.move_wolves. erewrite mbind_ok by reflexivity.
  cbn [Scenario.pack_before_move MDGWO.wolves length seq mfor].
  erewrite mbind_ok by reflexivity.
  erewrite mbind_ok by reflexivity.
  erewrite mbind_ok.
  2:{ do 3 erewrite mbind_ok by reflexivity.
      rewrite decide_True by (cbn; repeat split; congruence).
      apply standard_move_third_wolf. }
  erewrite mbind_ok by reflexivity. reflexivity.
Qed.

Lemma standard_gwo_collapses_witness :
  (forall k w', MDGWO.wolves Scenario.pack_after_one !! k = Some w' ->
     Notions.follower Scenario.pack_before_move k ->
     Notions.leaders_center Scenario.pack_before_move = Some (Wolf.position w')) /\
  (forall k1 k2 w1 w2,
     MDGWO.wolves Scenario.pack_after_one !! k1 = Some w1 ->
     MDGWO.wolves Scenario.pack_after_one !! k2 = Some w2 ->
     Notions.follower Scenario.pack_before_move k1 ->
     Notions.follower Scenario.pack_before_move k2 ->
     Wolf.position w1 = Wolf.position w2) /\
  (forall k, ~ Notions.follower Scenario.pack_before_move k ->
     MDGWO.wolves Scenario.pack_after_one !! k
     = MDGWO.wolves Scenario.pack_before_move !! k).
Proof.
  apply (standard_gwo_collapses 0 Scenario.pack_before_move
           Scenario.pack_after_one).
  - by eexists.
  - by eexists.
  - by eexists.
  - apply standard_move_pack.
Defined.

(** ** The game-theoretic engine *)

Lemma for_each_ok {A S : Type} (body : S -> A -> result S) (l : list A) (s : S) :
  (forall s x, x ∈ l -> exists s', body s x = Ok s') ->
  exists s', for_each body l s = Ok s'.
Proof.
  revert s. induction l as [|x l IH]; intros s Hbody; [by eexists|].
  cbn [for_each]. destruct (Hbody s x ltac:(by left)) as [s1 ->]. cbn [rbind].
  apply IH. intros s2 y Hy. apply Hbody. by right.
Qed.

Lemma compute_node_payoff_fog (self : GameTheoreticEngine.t) (node_id : Z)
    (n : FogNode.t) (assigned_tasks : list Task.t) (frequencies : gmap Z R)
    (replication_factors : gmap Z nat) :
  FogCloudTopology.fog_nodes (GameTheoreticEngine.topology self) !! node_id
  = Some n ->
  exists v,
    GameTheoreticEngine.compute_node_payoff self node_id assigned_tasks
      frequencies replication_factors = Ok v.
Proof.
  intros Hn. unfold GameTheoreticEngine.compute_node_payoff,
    FogCloudTopology.get_host. rewrite Hn.
  match goal with
  | |- exists v, rbind (for_each ?f ?l ?s) _ = _ =>
      destruct (for_each_ok f l s) as [[rel en] ->]; [|by eexists]
  end.
  intros [rel en] task _.
  rewrite task_execution_time_value. cbn [rbind].
  rewrite node_success_probability_value. cbn [rbind].
  cbn [EnergyModel.computation_energy rbind].
  rewrite total_transfer_time_value. cbn [rbind]. by eexists.
Qed.

(** X26. [compute_system_payoff] returns for every schedule, and
    [is_epsilon_nash_equilibrium] answers [True] for every schedule and
    every tolerance: it never answers [False] and never raises. *)
Theorem equilibrium_check_always_true (self : GameTheoreticEngine.t)
    (schedule : gmap Z Plain.entry) (epsilon : R) :
  (exists payoff,
     GameTheoreticEngine.compute_system_payoff self schedule = Ok payoff) /\
  GameTheoreticEngine.is_epsilon_nash_equilibrium self schedule epsilon = Ok true.
Proof.
  assert (Hpay : exists payoff,
            GameTheoreticEngine.compute_system_payoff self schedule = Ok payoff).
  { unfold GameTheoreticEngine.compute_system_payoff,
      GameTheoreticEngine.payoff_over.
    apply for_each_ok. intros total node_id Hin.
    apply list_elem_of_fmap in Hin as ([k n] & -> & Hkn).
    apply elem_of_map_to_list in Hkn. cbn [fst].
    destruct (GameTheoreticEngine.tasks_on_node self schedule k)
      as [[assigned frequencies] factors].
    destruct (compute_node_payoff_fog self k n assigned frequencies factors Hkn)
      as [v ->].
    by eexists. }
  split; [exact Hpay|].
  unfold GameTheoreticEngine.is_epsilon_nash_equilibrium.
  destruct Hpay as [payoff ->]. reflexivity.
Qed.

(** The loop of [compute_best_response] from any dict of taken tasks and
    any finite capacity that is left. *)
Lemma take_tasks_loop (node_id : Z) (l : list Task.t) (r : gmap Z (Z * R)) (c : R) :
  0 <= c ->
  NoDup (map Task.task_id l) ->
  (forall t, t ∈ l -> r !! Task.task_id t = None) ->
  exists r' c',
    fold_left
      (fun '(best_response, cpu_available) task =>
         if decide (fl_le (Fin (Task.workload_mi task)) cpu_available)
         then (<[Task.task_id task := (node_id, 2)]> best_response,
               fl_sub cpu_available (Fin (Task.workload_mi task)))
         else (best_response, cpu_available))
      l (r, Fin c) = (r', Fin c') /\
    0 <= c' /\
    c' = c - Notions.taken_load r' l /\
    (forall k v, r !! k = Some v -> r' !! k = Some v) /\
    (forall k, is_Some (r' !! k) ->
       is_Some (r !! k) \/ k ∈ map Task.task_id l).
Proof.
  revert r c. induction l as [|t l IH]; intros r c Hc Hnd Hfresh.
  { exists r, c. unfold Notions.taken_load. cbn.
    repeat split; [lra | lra | done | by left]. }
  cbn [map] in Hnd. apply NoDup_cons in Hnd as [Hnotin Hnd].
  cbn [fold_left].
  assert (Hload : forall r' : gmap Z (Z * R),
            Notions.taken_load r' (t :: l) =
            (if decide (is_Some (r' !! Task.task_id t))
             then Task.workload_mi t + Notions.taken_load r' l
             else Notions.taken_load r' l)).
  { intros r'. unfold Notions.taken_load. rewrite filter_cons.
    by destruct (decide (is_Some (r' !! Task.task_id t))). }
  destruct (decide (fl_le (Fin (Task.workload_mi t)) (Fin c))) as [Hfit|Hnofit].
  - cbn [fl_le] in Hfit. cbn [fl_sub fl_neg fl_add].
    destruct (IH (<[Task.task_id t := (node_id, 2)]> r)
                (c + - Task.workload_mi t))
      as (r' & c' & Hrun & Hc' & Hleft & Hmono & Hkeys); [lra | done | |].
    { intros t' Ht'. rewrite lookup_insert_ne.
      - apply Hfresh. by right.
      - intros Heq. apply Hnotin. rewrite Heq.
        apply list_elem_of_fmap. by exists t'. }
    exists r', c'. split; [exact Hrun|]. split; [done|].
    assert (Htaken : is_Some (r' !! Task.task_id t)).
    { exists (node_id, 2). apply Hmono. by rewrite lookup_insert_eq. }
    split; [rewrite Hload, decide_True by done; lra|].
    split.
    + intros k v Hk. apply Hmono. rewrite lookup_insert_ne; [done|].
      intros <-. rewrite Hfresh in Hk; [done | by left].
    + intros k Hk. destruct (decide (k = Task.task_id t)) as [->|Hne].
      * right. by left.
      * destruct (Hkeys k Hk) as [Hin|Hin].
        -- left. by rewrite lookup_insert_ne in Hin.
        -- right. by right.
  - destruct (IH r c) as (r' & c' & Hrun & Hc' & Hleft & Hmono & Hkeys);
      [lra | done | |].
    { intros t' Ht'. apply Hfresh. by right. }
    exists r', c'. split; [exact Hrun|]. split; [done|].
    assert (Hnot : ~ is_Some (r' !! Task.task_id t)).
    { intros Hk. destruct (Hkeys _ Hk) as [Hin|Hin]; [|done].
      rewrite Hfresh in Hin; [by destruct Hin | by left]. }
    split; [by rewrite Hload, decide_False|].
    split; [done|].
    intros k Hk. destruct (Hkeys k Hk) as [Hin|Hin]; [by left | right; by right].
Qed.

(** The same loop when the capacity is unbounded: every task is taken. *)
Lemma take_tasks_unbounded (node_id : Z) (l : list Task.t) (r : gmap Z (Z * R)) :
  exists r',
    fold_left
      (fun '(best_response, cpu_available) task =>
         if decide (fl_le (Fin (Task.workload_mi task)) cpu_available)
         then (<[Task.task_id task := (node_id, 2)]> best_response,
               fl_sub cpu_available (Fin (Task.workload_mi task)))
         else (best_response, cpu_available))
      l (r, PInf) = (r', PInf) /\
    (forall k, r !! k = Some (node_id, 2) -> r' !! k = Some (node_id, 2)) /\
    (forall t, t ∈ l -> r' !! Task.task_id t = Some (node_id, 2)).
Proof.
  revert r. induction l as [|t l IH]; intros r.
  { exists r. repeat split; [done|]. intros t Ht. by apply elem_of_nil in Ht. }
  cbn [fold_left]. rewrite decide_True by exact I.
  cbn [fl_sub fl_neg fl_add].
  destruct (IH (<[Task.task_id t := (node_id, 2)]> r)) as (r' & Hrun & Hmono & Hall).
  exists r'. split; [exact Hrun|]. split.
  - intros k Hk. apply Hmono.
    destruct (decide (k = Task.task_id t)) as [->|Hne].
    + by rewrite lookup_insert_eq.
    + by rewrite lookup_insert_ne.
  - intros t' Ht'. apply elem_of_cons in Ht' as [->|Ht'].
    + apply Hmono. by rewrite lookup_insert_eq.
    + by apply Hall.
Qed.

(** X27. The best response of a node whose capacity is not negative never
    takes more workload than the capacity ([cpu_mips]) of the node, when
    the task ids are distinct; and for a node id the topology does not
    know the capacity counts as unbounded, so every task is taken. *)
Theorem best_response_within_capacity {A : Type} (self : BestResponseDynamics.t)
    (node_id : Z) (other_strategies : A) :
  let topology := GameTheoreticEngine.topology (BestResponseDynamics.engine self) in
  let tasks := GameTheoreticEngine.tasks (BestResponseDynamics.engine self) in
  let response :=
    BestResponseDynamics.compute_best_response self node_id other_strategies in
  (forall host,
     FogCloudTopology.get_host topology node_id = Some host ->
     0 <= host_cpu_mips host ->
     NoDup (map Task.task_id tasks) ->
     Notions.taken_load response tasks <= host_cpu_mips host) /\
  (FogCloudTopology.get_host topology node_id = None ->
   forall task, task ∈ tasks ->
     response !! Task.task_id task = Some (node_id, 2)).
Proof.
  intros topology tasks response. split.
  - intros host Hhost Hcap Hnd.
    unfold response, BestResponseDynamics.compute_best_response.
    fold topology. rewrite Hhost. fold tasks.
    unfold BestResponseDynamics.take_tasks.
    destruct (take_tasks_loop node_id tasks ∅ (host_cpu_mips host))
      as (r' & c' & -> & Hc' & Hleft & _); [done | done | |].
    { intros t _. apply lookup_empty. }
    cbn [fst]. lra.
  - intros Hhost task Htask.
    unfold response, BestResponseDynamics.compute_best_response.
    fold topology. rewrite Hhost. fold tasks.
    unfold BestResponseDynamics.take_tasks.
    destruct (take_tasks_unbounded node_id tasks ∅) as (r' & -> & _ & Hall).
    cbn [fst]. by apply Hall.
Qed.

(** ** The simulator *)

(** One turn of the loop of [run] that does not raise files the task under
    exactly one of the two lists, and leaves the topology and the task
    list alone. *)
Lemma run_task_counts (samples : nat -> R) (schedule : gmap Z Plain.entry)
    (acc acc' : pyfloat * pyfloat * nat) (task : Task.t) (s s' : Simulator.t) :
  Simulator.run_task samples schedule acc task s = (Ok acc', s') ->
  (length (Simulator.completed_tasks s') + length (Simulator.failed_tasks s')
   = S (length (Simulator.completed_tasks s) + length (Simulator.failed_tasks s)))%nat /\
  Simulator.topology s' = Simulator.topology s /\
  Simulator.tasks s' = Simulator.tasks s.
Proof.
  unfold Simulator.run_task. destruct acc as [[total_energy max_time] draws].
  assert (Hfail : forall a : pyfloat * pyfloat * nat,
            (mmodify (fun s => Simulator.set_failed
                                 (Simulator.failed_tasks s ++ [Task.task_id task]) s)
             ;;m mret a) s = (Ok acc', s') ->
            (length (Simulator.completed_tasks s')
             + length (Simulator.failed_tasks s')
             = S (length (Simulator.completed_tasks s)
                  + length (Simulator.failed_tasks s)))%nat /\
            Simulator.topology s' = Simulator.topology s /\
            Simulator.tasks s' = Simulator.tasks s).
  { intros a [= _ <-]. cbn. rewrite length_app. cbn. split; [lia | done]. }
  destruct (schedule !! Task.task_id task) as [assignment|]; [|apply Hfail].
  unfold mbind at 1. unfold mlift at 1.
  destruct (Plain.get_nodes assignment) as [node_ids|e]; [|done].
  unfold mbind at 1. unfold mlift at 1.
  destruct (Plain.get_frequency assignment) as [frequency_ghz|e]; [|done].
  destruct node_ids as [|node_id rest]; [done|].
  unfold mbind at 1. unfold mgets at 1.
  destruct (FogCloudTopology.get_host (Simulator.topology s) node_id)
    as [host|]; [|apply Hfail].
  rewrite task_execution_time_value. unfold mbind at 1. unfold mlift at 1.
  rewrite total_transfer_time_value. unfold mbind at 1. unfold mlift at 1.
  unfold mbind at 1. unfold mlift at 1.
  destruct (EnergyModel.computation_energy host task frequency_ghz _); [|done].
  rewrite node_success_probability_value.
  unfold mbind, mlift, mret, mmodify.
  destruct (decide (fl_lt _ _)); intros [= _ <-]; cbn; rewrite length_app; cbn;
    (split; [lia | done]).
Qed.

Lemma run_loop_counts (samples : nat -> R) (schedule : gmap Z Plain.entry)
    (l : list Task.t) (acc acc' : pyfloat * pyfloat * nat) (s s' : Simulator.t) :
  mfold (Simulator.run_task samples schedule) l acc s = (Ok acc', s') ->
  (length (Simulator.completed_tasks s') + length (Simulator.failed_tasks s')
   = length l + (length (Simulator.completed_tasks s)
                 + length (Simulator.failed_tasks s)))%nat /\
  Simulator.topology s' = Simulator.topology s /\
  Simulator.tasks s' = Simulator.tasks s.
Proof.
  revert acc s. induction l as [|task l IH]; intros acc s.
  { intros [= _ <-]. done. }
  cbn [mfold]. unfold mbind at 1.
  destruct (Simulator.run_task samples schedule acc task s) as [[acc1|e] s1] eqn:E;
    [|done].
  intros Hrest. apply run_task_counts in E as (Hone & Htop & Htasks).
  apply IH in Hrest as (Hall & Htop' & Htasks').
  split; [cbn [length]; lia|]. split; congruence.
Qed.

(** X28. A run of the simulator that returns has filed every task of the
    simulator under exactly one of completed and failed: the two counts it
    reports are the lengths of the two lists it leaves and add up to the
    number of tasks, whatever was in the lists before the run. *)
Theorem run_counts_every_task (samples : nat -> R)
    (schedule : gmap Z Plain.entry) (s s' : Simulator.t)
    (out : Simulator.outcome) :
  Simulator.run samples schedule s = (Ok out, s') ->
  (Simulator.completed out + Simulator.failed out
   = length (Simulator.tasks s))%nat /\
  Simulator.completed out = length (Simulator.completed_tasks s') /\
  Simulator.failed out = length (Simulator.failed_tasks s') /\
  Simulator.tasks s' = Simulator.tasks s.
Proof.
  unfold Simulator.run.
  unfold mbind at 1. unfold mmodify at 1.
  unfold mbind at 1. unfold mmodify at 1.
  unfold mbind at 1. unfold mgets at 1.
  unfold mbind at 1.
  destruct (mfold _ _ _ _) as [[acc|e] s1] eqn:E; [|done].
  unfold mbind, mgets, mret. intros [= <- <-].
  apply run_loop_counts in E as (Hall & _ & Htasks).
  cbn in Hall, Htasks |- *. repeat split; [lia | done].
Qed.

(** The run on the one light task with nothing scheduled. *)
Lemma run_nothing_scheduled :
  Simulator.run (fun _ => 0) ∅
    (Simulator.init Scenario.crowded_topology Cases.light_tasks)
  = (Ok (Simulator.mk_outcome 0 1 (Fin 0) (Fin 0)),
     Simulator.set_failed [0%Z]
       (Simulator.init Scenario.crowded_topology Cases.light_tasks)).
Proof. reflexivity. Qed.

Lemma run_counts_every_task_witness :
  (Simulator.completed (Simulator.mk_outcome 0 1 (Fin 0) (Fin 0))
   + Simulator.failed (Simulator.mk_outcome 0 1 (Fin 0) (Fin 0))
   = length (Simulator.tasks
               (Simulator.init Scenario.crowded_topology Cases.light_tasks)))%nat.
Proof.
  exact (proj1 (run_counts_every_task (fun _ => 0) ∅ _ _ _ run_nothing_scheduled)).
Defined.

(** One turn of the loop for a task whose first node is a cloud data
    center raises. *)
Lemma run_task_on_cloud (samples : nat -> R) (schedule : gmap Z Plain.entry)
    (acc : pyfloat * pyfloat * nat) (task : Task.t) (s : Simulator.t)
    (assignment : Plain.entry) (node_id : Z) (rest : list Z)
    (c : CloudDataCenter.t) :
  schedule !! Task.task_id task = Some assignment ->
  Plain.nodes assignment = Some (node_id :: rest) ->
  FogCloudTopology.get_host (Simulator.topology s) node_id = Some (HCloud c) ->
  exists e, Simulator.run_task samples schedule acc task s = (Raise e, s).
Proof.
  intros Hentry Hnodes Hhost. unfold Simulator.run_task.
  destruct acc as [[total_energy max_time] draws]. rewrite Hentry.
  unfold Plain.get_nodes. rewrite Hnodes.
  unfold mbind at 1. unfold mlift at 1.
  unfold mbind at 1. unfold mlift at 1.
  destruct (Plain.get_frequency assignment) as [frequency_ghz|e];
    [|by eexists].
  unfold mbind at 1. unfold mgets at 1. rewrite Hhost.
  rewrite task_execution_time_value. unfold mbind at 1. unfold mlift at 1.
  rewrite total_transfer_time_value. unfold mbind at 1. unfold mlift at 1.
  unfold mbind, mlift. cbn [EnergyModel.computation_energy]. by eexists.
Qed.

(** X29. The simulator cannot run a schedule that places the first replica
    of a task of its task list on a cloud data center: such a run never
    returns, it raises (the energy model reads the power of the host, which
    a data center does not have). *)
Theorem run_raises_on_cloud (samples : nat -> R)
    (schedule : gmap Z Plain.entry) (s : Simulator.t) (task : Task.t)
    (assignment : Plain.entry) (node_id : Z) (rest : list Z)
    (c : CloudDataCenter.t) :
  task ∈ Simulator.tasks s ->
  schedule !! Task.task_id task = Some assignment ->
  Plain.nodes assignment = Some (node_id :: rest) ->
  FogCloudTopology.get_host (Simulator.topology s) node_id = Some (HCloud c) ->
  exists e s', Simulator.run samples schedule s = (Raise e, s').
Proof.
  intros Htask Hentry Hnodes Hhost.
  enough (Hloop : forall l acc s0,
            task ∈ l -> Simulator.topology s0 = Simulator.topology s ->
            exists e s',
              mfold (Simulator.run_task samples schedule) l acc s0 = (Raise e, s')).
  { unfold Simulator.run.
    unfold mbind at 1. unfold mmodify at 1.
    unfold mbind at 1. unfold mmodify at 1.
    unfold mbind at 1. unfold mgets at 1.
    unfold mbind at 1. cbn [Simulator.tasks Simulator.set_failed
                              Simulator.set_completed].
    destruct (Hloop (Simulator.tasks s) (Fin 0, Fin 0, 0%nat)
                (Simulator.set_failed [] (Simulator.set_completed [] s))
                Htask eq_refl) as (e & s' & ->).
    by exists e, s'. }
  induction l as [|x l IH]; intros acc s0 Hin Htop.
  { by apply elem_of_nil in Hin. }
  cbn [mfold]. unfold mbind at 1.
  destruct (Simulator.run_task samples schedule acc x s0) as [[acc1|e] s1] eqn:E;
    [|by exists e, s1].
  apply elem_of_cons in Hin as [->|Hin].
  - destruct (run_task_on_cloud samples schedule acc x s0 assignment node_id
                rest c Hentry Hnodes) as [e He]; [by rewrite Htop|].
    rewrite He in E. done.
  - apply run_task_counts in E as (_ & Htop1 & _).
    apply IH; [done | congruence].
Qed.

Lemma run_raises_on_cloud_witness :
  exists e s',
    Simulator.run (fun _ => 0) Cases.on_the_cloud
      (Simulator.init Cases.cloud_topology Cases.light_tasks) = (Raise e, s').
Proof.
  apply (run_raises_on_cloud (fun _ => 0) Cases.on_the_cloud
           (Simulator.init Cases.cloud_topology Cases.light_tasks)
           (Scenario.task 0 1500 10 0)
           (Plain.mk_entry (Some [5%Z]) (Some 2)) 5 [] Cases.cloud).
  - cbn. by left.
  - reflexivity.
  - reflexivity.
  - reflexivity.
Defined.
